(** * TetraCycle serial/Firebase bridge: a shallow embedding

    The development follows [tetracycle_firebase_bridge.py].  Python
    dictionaries are finite maps keyed by strings, Python values are a small
    inductive type covering what [json.loads] and the remote store can hand to
    the bridge, and the module-level state (the status dictionary, the serial
    port object, the function attributes used as static variables, the remote
    database) is threaded explicitly through a state-and-exception monad.

    Conventions:
    - time is counted in milliseconds ([time.time()] is the field [clock]);
    - text read from the serial port is a list of characters, taken after the
      [decode('utf-8', errors='replace')] step;
    - library functions that are not part of the bridge ([json.loads],
      [json.dumps], [int] on strings, [strftime]) are section variables. *)

From Stdlib Require Import ZArith Ascii String SpecFloat.
From stdpp Require Import base tactics option list gmap strings fin_maps.

Local Open Scope string_scope.
Local Open Scope list_scope.
Local Open Scope Z_scope.

(** ** Python values *)

Module Py.

(** Exceptions the bridge can meet.  All of them derive from [Exception];
    only [ValueError] and [TypeError] are caught by name somewhere. *)
Inductive exn : Type :=
| TypeError
| ValueError
| IndexError
| KeyError
| OverflowError
| JSONDecodeError
| SerialException
| FirebaseError
| PortNotOpen.   (* [raise Exception("Serial port is not open")] *)

(** How a call ends.  [OutOfFuel] is not an exception: it marks a loop that
    was still running when the model stopped unrolling it, and no [except]
    clause sees it. *)
Inductive outcome (A : Type) : Type :=
| Done (a : A)
| Raised (e : exn)
| OutOfFuel.
Arguments Done {A} a.
Arguments Raised {A} e.
Arguments OutOfFuel {A}.

(** JSON scalars and arrays.  Floats are kept as IEEE-754 data
    ([spec_float]); the bridge never does arithmetic on them. *)
#[local] Set Warnings "-register-all".
Inductive val : Type :=
| PyNone
| PyBool (b : bool)
| PyInt (z : Z)
| PyFloat (f : spec_float)
| PyStr (s : string)
| PyList (l : list val).

(** [bool(v)], the test performed by [1 if v else 0]. *)
Definition truthy (v : val) : bool :=
  match v with
  | PyNone => false
  | PyBool b => b
  | PyInt z => negb (z =? 0)
  | PyFloat (S754_zero _) => false
  | PyFloat _ => true
  | PyStr s => match s with EmptyString => false | String _ _ => true end
  | PyList l => match l with [] => false | _ :: _ => true end
  end.

(** [int(f)] on a float: truncation toward zero; [nan] and the infinities
    raise. *)
Definition int_of_float (f : spec_float) : outcome Z :=
  match f with
  | S754_zero _ => Done 0
  | S754_nan => Raised ValueError
  | S754_infinity _ => Raised OverflowError
  | S754_finite s m e =>
      let mag := if 0 <=? e then Z.shiftl (Z.pos m) e
                 else Z.shiftr (Z.pos m) (- e) in
      Done (if s then - mag else mag)
  end.

(** One-character string at position [i] of [s], if any. *)
Fixpoint str_nth (i : nat) (s : string) : option string :=
  match s, i with
  | EmptyString, _ => None
  | String c _, O => Some (String c EmptyString)
  | String _ s', S i' => str_nth i' s'
  end.

(** [v[i]] for a non-negative index. *)
Definition getitem (v : val) (i : nat) : outcome val :=
  match v with
  | PyList l => match l !! i with
                | Some x => Done x
                | None => Raised IndexError
                end
  | PyStr s => match str_nth i s with
               | Some c => Done (PyStr c)
               | None => Raised IndexError
               end
  | _ => Raised TypeError
  end.

(** [v[i] = x] for a non-negative index: only lists support item
    assignment, and only within range. *)
Definition setitem (v : val) (i : nat) (x : val) : outcome val :=
  match v with
  | PyList l => if decide (i < length l)%nat then Done (PyList (<[i := x]> l))
                else Raised IndexError
  | _ => Raised TypeError
  end.

(** [len(v)]. *)
Definition len (v : val) : outcome Z :=
  match v with
  | PyList l => Done (Z.of_nat (length l))
  | PyStr s => Done (Z.of_nat (String.length s))
  | _ => Raised TypeError
  end.

End Py.
Export Py.

(** The double nearest to 7.1 and the double 0.5, used in examples. *)
Definition float_7_1 : spec_float := S754_finite false 3996944669291315 (-49).
Definition float_0_5 : spec_float := S754_finite false 1 (-1).

(** ** State and exceptions *)

Section Monad.
Context {S : Type}.

(** A computation returns normally or raises, and in both cases leaves a
    state behind: what was mutated before a [raise] stays mutated. *)
Definition M (A : Type) : Type := S → outcome A * S.

Definition ret {A} (a : A) : M A := λ s, (Done a, s).
Definition raise {A} (e : exn) : M A := λ s, (Raised e, s).
Definition out_of_fuel {A} : M A := λ s, (OutOfFuel, s).
Definition bind {A B} (m : M A) (k : A → M B) : M B :=
  λ s, match m s with
       | (Done a, s') => k a s'
       | (Raised e, s') => (Raised e, s')
       | (OutOfFuel, s') => (OutOfFuel, s')
       end.
Definition get : M S := λ s, (Done s, s).
Definition gets {A} (f : S → A) : M A := λ s, (Done (f s), s).
Definition modify (f : S → S) : M unit := λ s, (Done tt, f s).
Definition lift {A} (o : outcome A) : M A := λ s, (o, s).

(** [try: m  except Exception: h] *)
Definition try_except {A} (m : M A) (h : exn → M A) : M A :=
  λ s, match m s with
       | (Done a, s') => (Done a, s')
       | (Raised e, s') => h e s'
       | (OutOfFuel, s') => (OutOfFuel, s')
       end.

(** [try: m  except (e1, e2, ...): h], other exceptions propagate. *)
Definition try_except_only {A} (caught : exn → bool) (m : M A) (h : exn → M A) : M A :=
  λ s, match m s with
       | (Done a, s') => (Done a, s')
       | (Raised e, s') => if caught e then h e s' else (Raised e, s')
       | (OutOfFuel, s') => (OutOfFuel, s')
       end.
End Monad.
Arguments M : clear implicits.

Notation "'let*' x ':=' m 'in' k" := (bind m (λ x, k))
  (at level 10, x name, m at level 100, k at level 200).
Notation "'let*' ' p ':=' m 'in' k" := (bind m (λ p, k))
  (at level 10, p pattern, m at level 100, k at level 200).
Notation "m1 '>>' m2" := (bind m1 (λ _, m2))
  (at level 100, m2 at level 200, right associativity).

(** Run a computation on a component of a larger state. *)
Definition zoom {S T A} (proj : S → T) (upd : T → S → S) (m : M T A) : M S A :=
  λ s, let '(r, t') := m (proj s) in (r, upd t' s).

(** ** The status store: [current_status] and [update_status] *)

(** Line 25: the dictionary the bridge starts with. *)
Definition initial_status : gmap string val :=
  <["ph" := PyInt 0]> (<["turbidity" := PyInt 0]> (<["tds" := PyInt 0]>
  (<["pumps" := PyList [PyInt 0; PyInt 0]]> (<["servo" := PyInt 0]>
  (<["system" := PyInt 0]> ∅))))).

(** [1 if v else 0] *)
Definition coerce01 (v : val) : Z := if truthy v then 1 else 0.

(** [if k in data: current_status[k] = data[k]] *)
Definition copy_key (k : string) (data : gmap string val) : M (gmap string val) unit :=
  match data !! k with
  | Some v => modify (λ st, <[k := v]> st)
  | None => ret tt
  end.

(** [if k in data: ...; current_status['pumps'][i] = 1 if data[k] else 0]
    (lines 108-114 for [pump1], slot 0, and 116-122 for [pump2], slot 1). *)
Definition set_pump (k : string) (i : nat) (data : gmap string val) : M (gmap string val) unit :=
  match data !! k with
  | Some v =>
      modify (λ st, match st !! "pumps" with
                    | None => <["pumps" := PyList [PyInt 0; PyInt 0]]> st
                    | Some _ => st
                    end) >>
      let* st := get in
      match st !! "pumps" with
      | None => raise KeyError
      | Some p =>
          let* p' := lift (setitem p i (PyInt (coerce01 v))) in
          modify (λ st, <["pumps" := p']> st)
      end
  | None => ret tt
  end.

(** Lines 90-128. *)
Definition update_status (data : gmap string val) : M (gmap string val) unit :=
  copy_key "ph" data >>
  copy_key "turbidity" data >>
  copy_key "tds" data >>
  copy_key "pumps" data >>
  set_pump "pump1" 0 data >>
  set_pump "pump2" 1 data >>
  copy_key "servo" data >>
  copy_key "system" data.



(** ** The world the bridge runs in *)

(** The [serial.Serial] object: whether it is open, the received text not yet
    read ([in_waiting] is its length) and everything written so far. *)
Record Serial : Type := mkSerial {
  is_open : bool;
  rx : list ascii;
  tx : list ascii;
}.

(** Function attributes of [read_and_upload_data] (lines 317-319). *)
Record Decoder : Type := mkDecoder {
  buffer : list ascii;
  error_count : Z;
}.

(** The two database paths the bridge uses.  An absent control document is
    the empty map ([get()] returns [None], which is as falsy as [{}]). *)
Record Remote : Type := mkRemote {
  control_doc : gmap string val;                 (* /tetracycle_control *)
  sensor_data : gmap string (gmap string val);   (* /tetracycle_sensor_data *)
}.

Record World : Type := mkWorld {
  clock : Z;                                  (* [time.time()], in ms *)
  ser : Serial;
  device : list (Z * list ascii);             (* what the device emits, and when *)
  serial_fault : Z → bool;                    (* port I/O raises at that time *)
  current_status : gmap string val;           (* line 25 *)
  decoder : Decoder;
  previous_control : gmap string (option Z);  (* lines 586-592 *)
  remote : Remote;
  remote_fault : Z → bool;                    (* database calls raise at that time *)
}.

Definition set_clock (t : Z) (w : World) : World :=
  mkWorld t (ser w) (device w) (serial_fault w) (current_status w) (decoder w)
          (previous_control w) (remote w) (remote_fault w).
Definition set_ser (s : Serial) (w : World) : World :=
  mkWorld (clock w) s (device w) (serial_fault w) (current_status w) (decoder w)
          (previous_control w) (remote w) (remote_fault w).
Definition set_device (d : list (Z * list ascii)) (w : World) : World :=
  mkWorld (clock w) (ser w) d (serial_fault w) (current_status w) (decoder w)
          (previous_control w) (remote w) (remote_fault w).
Definition set_status (st : gmap string val) (w : World) : World :=
  mkWorld (clock w) (ser w) (device w) (serial_fault w) st (decoder w)
          (previous_control w) (remote w) (remote_fault w).
Definition set_decoder (d : Decoder) (w : World) : World :=
  mkWorld (clock w) (ser w) (device w) (serial_fault w) (current_status w) d
          (previous_control w) (remote w) (remote_fault w).
Definition set_previous_control (pc : gmap string (option Z)) (w : World) : World :=
  mkWorld (clock w) (ser w) (device w) (serial_fault w) (current_status w) (decoder w)
          pc (remote w) (remote_fault w).
Definition set_remote (r : Remote) (w : World) : World :=
  mkWorld (clock w) (ser w) (device w) (serial_fault w) (current_status w) (decoder w)
          (previous_control w) r (remote_fault w).

(** Lines 587-592: the cache before the first reconciliation. *)
Definition unset_control : gmap string (option Z) :=
  <["pump1" := None]> (<["pump2" := None]> (<["servo" := None]> (<["system" := None]> ∅))).

(** *** Time *)

(** Text the device has emitted up to time [t] reaches the input queue of an
    open port; a closed port loses it. *)
Definition deliver (w : World) : World :=
  let due := filter (λ c, c.1 <= clock w) (device w) in
  let later := filter (λ c, ¬ c.1 <= clock w) (device w) in
  let s := ser w in
  set_device later
    (if is_open s then set_ser (mkSerial true (rx s ++ concat (due.*2)) (tx s)) w else w).

(** [time.sleep(d)]: the only operation that takes time. *)
Definition sleep (d : Z) : M World unit :=
  modify (λ w, deliver (set_clock (clock w + d) w)).

(** *** The serial port *)

Definition port_io : M World unit :=
  let* w := get in
  if serial_fault w (clock w) then raise SerialException else ret tt.

(** [ser.in_waiting] *)
Definition in_waiting : M World Z :=
  port_io >> gets (λ w, Z.of_nat (length (rx (ser w)))).

(** [ser.read(ser.in_waiting)]: takes everything that is waiting. *)
Definition read_waiting : M World (list ascii) :=
  let* _ := in_waiting in
  port_io >>
  let* w := get in
  modify (set_ser (mkSerial (is_open (ser w)) [] (tx (ser w)))) >>
  ret (rx (ser w)).

(** [ser.write(data)] *)
Definition ser_write (data : list ascii) : M World unit :=
  port_io >>
  modify (λ w, set_ser (mkSerial (is_open (ser w)) (rx (ser w)) (tx (ser w) ++ data)) w).

(** [ser.flush()] *)
Definition ser_flush : M World unit := port_io.

(** *** Text *)

(** [c in s] *)
Definition has_char (c : ascii) (s : list ascii) : bool := existsb (Ascii.eqb c) s.

(** [s.find(c, start)] for [start >= 0]: first index at or after [start], or
    [-1]. *)
Fixpoint find_at (c : ascii) (s : list ascii) (i : Z) : Z :=
  match s with
  | [] => -1
  | x :: s' => if Ascii.eqb x c then i else find_at c s' (i + 1)
  end.
Definition find_from (c : ascii) (start : nat) (s : list ascii) : Z :=
  find_at c (drop start s) (Z.of_nat start).

(** [s.rfind(c)]: last index, or [-1]. *)
Fixpoint rfind_at (c : ascii) (s : list ascii) (i : Z) : Z :=
  match s with
  | [] => -1
  | x :: s' => let r := rfind_at c s' (i + 1) in
               if r =? -1 then (if Ascii.eqb x c then i else -1) else r
  end.
Definition rfind (c : ascii) (s : list ascii) : Z := rfind_at c s 0.

(** Slice bounds as Python normalises them. *)
Definition slice_index (n i : Z) : nat :=
  Z.to_nat (if i <? 0 then Z.max (i + n) 0 else Z.min i n).

(** [s[a:b]] and [s[a:]] *)
Definition slice (s : list ascii) (a b : Z) : list ascii :=
  let n := Z.of_nat (length s) in
  take (slice_index n b - slice_index n a) (drop (slice_index n a) s).
Definition slice_from (s : list ascii) (a : Z) : list ascii :=
  drop (slice_index (Z.of_nat (length s)) a) s.

Definition with_status {A} (m : M (gmap string val) A) : M World A :=
  zoom current_status set_status m.

Definition actuator_keys : list string := ["pump1"; "pump2"; "servo"; "system"].

Section Bridge.

(** Library functions the bridge calls. *)
Variable json_loads : list ascii → option (gmap string val).
Variable json_dumps : gmap string Z → list ascii.
Variable int_of_str : string → option Z.     (* [int(s)] on a string *)
Variable strftime : Z → string.              (* ["%Y-%m-%d %H:%M:%S"] *)
Variable strftime_key : Z → string.          (* ["%Y%m%d%H%M%S"] *)

(** ** The command channel: [send_command_to_arduino] *)

(** Lines 139-144: keep the recognised keys, each value forced to 0 or 1. *)
Definition format_command (command : gmap string val) : gmap string Z :=
  coerce01 <$> filter (λ kv, kv.1 ∈ actuator_keys) command.

(** Lines 177-200: one read of the awaited response.  The result is [true]
    when the loop is left through [break].  ([response_received] only
    selects a log message and is not modelled.) *)
Definition read_response : M World bool :=
  try_except
    (let* raw_data := read_waiting in
     if has_char "{" raw_data && has_char "}" raw_data then
       let start_idx := find_from "{" 0 raw_data in
       let end_idx := find_from "}" (Z.to_nat start_idx) raw_data + 1 in
       let json_str := slice raw_data start_idx end_idx in
       match json_loads json_str with
       | Some response_data =>
           with_status (update_status response_data) >> ret true
       | None => ret false
       end
     else ret false)
    (λ _, ret false).

(** Lines 175-202: [while time.time() - start_time < 2.0: ...; sleep(0.1)] *)
Fixpoint await_response (fuel : nat) (start_time : Z) : M World unit :=
  match fuel with
  | O => out_of_fuel
  | S fuel' =>
      let* now := gets clock in
      if now - start_time <? 2000 then
        let* n := in_waiting in
        let* stop := (if n =? 0 then ret false else read_response) in
        if stop then ret tt
        else sleep 100 >> await_response fuel' start_time
      else ret tt
  end.

(** Twenty polls fit in two seconds; the twenty-first test of the loop
    condition fails. *)
Definition response_polls : nat := 21.

(** Lines 130-212.  The result is the function's return value. *)
Definition send_command_to_arduino (command : gmap string val) : M World bool :=
  try_except
    (let* w := get in
     if negb (is_open (ser w)) then ret false
     else
       let formatted_command := format_command command in
       if bool_decide (formatted_command = ∅) then ret false
       else
         let command_json := (json_dumps formatted_command ++ ["010"%char])%list in
         let* n := in_waiting in
         (if n =? 0 then ret tt else read_waiting >> ret tt) >>
         ser_write command_json >>
         ser_flush >>
         sleep 500 >>
         let* start_time := gets clock in
         await_response response_polls start_time >>
         ret true)
    (λ _, ret false).

(** ** The reconciler: [process_control_values] *)

(** [int(v)] *)
Definition py_int (v : val) : outcome Z :=
  match v with
  | PyNone => Raised TypeError
  | PyBool b => Done (if b then 1 else 0)
  | PyInt z => Done z
  | PyFloat f => int_of_float f
  | PyStr s => match int_of_str s with
               | Some z => Done z
               | None => Raised ValueError
               end
  | PyList _ => Raised TypeError
  end.

(** Lines 603-607. *)
Definition control_value (v : val) : outcome Z :=
  match v with
  | PyNone => Done 0
  | _ => match py_int v with
         | Done z => Done (if z =? 0 then 0 else 1)
         | Raised e => Raised e
         | OutOfFuel => OutOfFuel
         end
  end.

(** [process_control_values.previous_control[key]] *)
Definition previous (key : string) : M World (option Z) :=
  let* w := get in
  match previous_control w !! key with
  | Some p => ret p
  | None => raise KeyError
  end.

Definition set_previous (key : string) (value : Z) : M World unit :=
  modify (λ w, set_previous_control (<[key := Some value]> (previous_control w)) w).

Definition value_or_type_error (e : exn) : bool :=
  match e with ValueError | TypeError => true | _ => false end.

(** Lines 600-619: the body of the loop over the four keys.  The
    accumulator is the pair of [command] and [changed]. *)
Definition check_key (current_values : gmap string val) (key : string)
    (acc : gmap string val * bool) : M World (gmap string val * bool) :=
  match current_values !! key with
  | None => ret acc
  | Some cv =>
      try_except_only value_or_type_error
        (let* value := lift (control_value cv) in
         let* prev := previous key in
         if bool_decide (prev = None ∨ Some value ≠ prev) then
           set_previous key value >>
           ret (<[key := PyInt value]> acc.1, true)
         else ret acc)
        (λ _,
         let* prev := previous key in
         match prev with
         | None => set_previous key 0 >> ret acc
         | Some _ => ret acc
         end)
  end.

(** [for key in keys: ...] *)
Fixpoint check_keys (current_values : gmap string val) (keys : list string)
    (acc : gmap string val * bool) : M World (gmap string val * bool) :=
  match keys with
  | [] => ret acc
  | key :: keys' =>
      let* acc' := check_key current_values key acc in
      check_keys current_values keys' acc'
  end.

(** Lines 644 and 648: [current_status['pumps'][i] if 'pumps' in
    current_status and len(current_status['pumps']) > i else "unknown"] *)
Definition actual_value (i : nat) : M World val :=
  let* w := get in
  match current_status w !! "pumps" with
  | None => ret (PyStr "unknown")
  | Some p =>
      let* n := lift (len p) in
      if Z.of_nat i <? n then lift (getitem p i) else ret (PyStr "unknown")
  end.

(** Lines 641-651, for one key of [command]; only the evaluation matters,
    the text goes to the console. *)
Definition report_key (key : string) : M World unit :=
  if String.eqb key "pump1" then actual_value 0 >> ret tt
  else if String.eqb key "pump2" then actual_value 1 >> ret tt
  else ret tt.

Fixpoint report_keys (keys : list string) : M World unit :=
  match keys with
  | [] => ret tt
  | key :: keys' => report_key key >> report_keys keys'
  end.

(** The keys of [command] in insertion order, which is the order of the
    loop that filled it. *)
Definition command_keys (command : gmap string val) : list string :=
  filter (λ k, is_Some (command !! k)) actuator_keys.

(** [db.reference(CONTROL_DB_PATH).update(updates)] *)
Definition remote_io : M World unit :=
  let* w := get in
  if remote_fault w (clock w) then raise FirebaseError else ret tt.

Definition control_ref_update (updates : gmap string val) : M World unit :=
  remote_io >>
  modify (λ w, set_remote (mkRemote (updates ∪ control_doc (remote w))
                                    (sensor_data (remote w))) w).

(** Lines 663-665: [{'last_updated': now}] overlaid with [command]. *)
Definition confirmation (now : string) (command : gmap string val) : gmap string val :=
  command ∪ {["last_updated" := PyStr now]}.

(** Lines 621-667: what happens once the loop has found a change. *)
Definition forward_command (command : gmap string val) : M World unit :=
  let* result := send_command_to_arduino command in
  sleep 500 >>
  report_keys (command_keys command) >>
  let* now := gets (λ w, strftime (clock w)) in
  control_ref_update (confirmation now command).

(** Lines 583-667. *)
Definition process_control_values (current_values : gmap string val) : M World unit :=
  let* '(command, changed) := check_keys current_values actuator_keys (∅, false) in
  if changed : bool then forward_command command else ret tt.

(** ** The frame decoder: [read_and_upload_data] *)

Definition set_buffer (b : list ascii) : M World unit :=
  modify (λ w, set_decoder (mkDecoder b (error_count (decoder w))) w).
Definition set_error_count (n : Z) : M World unit :=
  modify (λ w, set_decoder (mkDecoder (buffer (decoder w)) n) w).

Definition text_len (s : list ascii) : Z := Z.of_nat (length s).

(** Lines 356-368: the [except json.JSONDecodeError] clause.  The result
    is [true] on [break]. *)
Definition on_decode_error : M World bool :=
  let* n := gets (λ w, error_count (decoder w)) in
  set_error_count (n + 1) >>
  if (n + 1) mod 1000 =? 0 then
    if 10000 <? n + 1 then set_buffer [] >> ret true else ret false
  else ret false.

(** Lines 338-370: one pass through the body of the [while] loop; [true]
    on [break]. *)
Definition decode_step : M World bool :=
  try_except
    (let* buf := gets (λ w, buffer (decoder w)) in
     let start_idx := find_from "{" 0 buf in
     let end_idx := find_from "}" (Z.to_nat start_idx) buf + 1 in
     let json_str := slice buf start_idx end_idx in
     set_buffer (slice_from buf end_idx) >>
     if (text_len json_str <? 5) || (500 <? text_len json_str) then ret false
     else
       match json_loads json_str with
       | None => raise JSONDecodeError
       | Some data =>
           set_error_count 0 >>
           with_status (update_status data) >>
           ret false
       end)
    (λ e, match e with
          | JSONDecodeError => on_decode_error
          | _ => ret false
          end).

(** Line 337: [while '{' in buffer and '}' in buffer: ...] *)
Fixpoint decode_loop (fuel : nat) : M World unit :=
  match fuel with
  | O => out_of_fuel
  | S fuel' =>
      let* buf := gets (λ w, buffer (decoder w)) in
      if has_char "{" buf && has_char "}" buf then
        let* stop := decode_step in
        if stop then ret tt else decode_loop fuel'
      else ret tt
  end.

(** Lines 330-335. *)
Definition drop_stalled_frame (buf : list ascii) : M World unit :=
  let buf' := slice_from buf (rfind "{" buf) in
  set_buffer buf' >>
  if 100 <? text_len buf' then set_buffer [] else ret tt.

(** Lines 373-379. *)
Definition trim_buffer : M World unit :=
  let* buf := gets (λ w, buffer (decoder w)) in
  if 500 <? text_len buf then
    if negb (has_char "{" buf) || negb (has_char "}" buf) then set_buffer []
    else set_buffer (slice_from buf (rfind "{" buf))
  else ret tt.

(** Lines 312-385. *)
Definition read_and_upload_data (fuel : nat) : M World unit :=
  try_except
    (let* w := get in
     if negb (is_open (ser w)) then raise PortNotOpen
     else
       let* n := in_waiting in
       if n =? 0 then ret tt
       else
         let* raw_data := read_waiting in
         let* old := gets (λ w, buffer (decoder w)) in
         let buf := (old ++ raw_data)%list in
         set_buffer buf >>
         if has_char "{" buf && negb (has_char "}" buf) && (100 <? text_len buf)
         then drop_stalled_frame buf
         else decode_loop fuel >> trim_buffer)
    (λ _,
     let* n := gets (λ w, error_count (decoder w)) in
     set_error_count (n + 1)).

(** ** The main loop *)

(** Local variables of [main] (lines 485-489). *)
Record Loop : Type := mkLoop {
  serial_errors : Z;
  last_reset_time : Z;
  last_firebase_update : Z;
  last_sensor_upload : Z;
  last_control_sync : Z;
}.

(** Lines 445-464.  Reopening goes through the driver and can fail. *)
Definition reset_serial_port : M World bool :=
  let* w := get in
  if is_open (ser w) then
    try_except
      (modify (λ w, set_ser (mkSerial false (rx (ser w)) (tx (ser w))) w) >>
       sleep 1000 >>
       port_io >>
       modify (λ w, set_ser (mkSerial true [] (tx (ser w))) w) >>
       sleep 2000 >>
       ret true)
      (λ _, ret false)
  else ret false.

(** [current_status[k]] and [current_status.get(k, d)] *)
Definition status_item (k : string) : M World val :=
  let* w := get in
  match current_status w !! k with
  | Some v => ret v
  | None => raise KeyError
  end.
Definition status_get (k : string) (d : val) : M World val :=
  gets (λ w, default d (current_status w !! k)).

(** [current_status['pumps'][i]] *)
Definition pump_slot (i : nat) : M World val :=
  let* p := status_item "pumps" in
  lift (getitem p i).

(** Lines 515-525: the sensor record and its upload. *)
Definition upload_sensor_data : M World unit :=
  let* ph := status_get "ph" (PyInt 0) in
  let* tds := status_get "tds" (PyInt 0) in
  let* turbidity := status_get "turbidity" (PyInt 0) in
  let sensor_record : gmap string val :=
    <["ph" := ph]> (<["tds" := tds]> (<["turbidity" := turbidity]> ∅)) in
  let* timestamp_key := gets (λ w, strftime_key (clock w)) in
  remote_io >>
  modify (λ w, set_remote (mkRemote (control_doc (remote w))
                 (<[timestamp_key := sensor_record]> (sensor_data (remote w)))) w).

(** Line 528: the status display evaluates all four states. *)
Definition display_states : M World unit :=
  pump_slot 0 >> pump_slot 1 >> status_item "servo" >> status_item "system" >> ret tt.

(** Lines 537-543: the dictionary mirrored to the control document. *)
Definition control_updates : M World (gmap string val) :=
  let* pump1 := pump_slot 0 in
  let* pump2 := pump_slot 1 in
  let* servo := status_item "servo" in
  let* system := status_item "system" in
  let* now := gets (λ w, strftime (clock w)) in
  ret (<["pump1" := pump1]> (<["pump2" := pump2]> (<["servo" := servo]>
       (<["system" := system]> (<["last_updated" := PyStr now]> ∅))))).

(** Lines 534-550. *)
Definition sync_control_values (current_time : Z) (lp : Loop) : M World Loop :=
  try_except
    (let* updates := control_updates in
     control_ref_update updates >>
     ret (mkLoop (serial_errors lp) (last_reset_time lp) (last_firebase_update lp)
                 (last_sensor_upload lp) current_time))
    (λ _, ret lp).

(** Lines 512-550: the block run once a second. *)
Definition upload_block (current_time : Z) (lp : Loop) : M World Loop :=
  upload_sensor_data >>
  display_states >>
  let lp1 := mkLoop (serial_errors lp) (last_reset_time lp) (last_firebase_update lp)
                    current_time (last_control_sync lp) in
  if 5000 <=? current_time - last_control_sync lp
  then sync_control_values current_time lp1
  else ret lp1.

(** Lines 507-554. *)
Definition process_serial (fuel : nat) (current_time : Z) (lp : Loop) : M World Loop :=
  try_except
    (read_and_upload_data fuel >>
     if 1000 <=? current_time - last_sensor_upload lp
     then upload_block current_time lp
     else ret lp)
    (λ _, ret (mkLoop (serial_errors lp + 1) (last_reset_time lp)
                      (last_firebase_update lp) (last_sensor_upload lp)
                      (last_control_sync lp))).

(** Line 497. *)
Definition reset_due (current_time : Z) (lp : Loop) : bool :=
  (100 <? serial_errors lp) && (60 * 1000 <? current_time - last_reset_time lp).

(** Lines 497-504. *)
Definition check_reset (current_time : Z) (lp : Loop) : M World Loop :=
  if reset_due current_time lp then
    let* ok := reset_serial_port in
    if ok : bool
    then ret (mkLoop 0 current_time (last_firebase_update lp)
                     (last_sensor_upload lp) (last_control_sync lp))
    else ret lp
  else ret lp.

(** [control_ref.get()] *)
Definition control_ref_get : M World (gmap string val) :=
  remote_io >> gets (λ w, control_doc (remote w)).

(** Lines 557-568. *)
Definition check_firebase (current_time : Z) (lp : Loop) : M World Loop :=
  if 2000 <=? current_time - last_firebase_update lp then
    try_except
      (let* current_values := control_ref_get in
       (if bool_decide (current_values = ∅) then ret tt
        else process_control_values current_values) >>
       ret (mkLoop (serial_errors lp) (last_reset_time lp) current_time
                   (last_sensor_upload lp) (last_control_sync lp)))
      (λ _, ret lp)
  else ret lp.

(** Lines 494-571: one turn of [while running].  The handler of lines
    573-575 is not modelled: every statement of the body that can raise
    sits in a [try] of its own (see [main_iteration_no_raise]). *)
Definition main_iteration (fuel : nat) (lp : Loop) : M World Loop :=
  let* current_time := gets clock in
  let* lp1 := check_reset current_time lp in
  let* lp2 := process_serial fuel current_time lp1 in
  let* lp3 := check_firebase current_time lp2 in
  sleep 50 >>
  ret lp3.

(** [n] turns of the loop. *)
Fixpoint main_loop (fuel n : nat) (lp : Loop) : M World Loop :=
  match n with
  | O => ret lp
  | S n' =>
      let* lp' := main_iteration fuel lp in
      main_loop fuel n' lp'
  end.

(** Whether the turn that starts in [w] with the locals [lp] resets the
    port: the test of line 497 holds and [reset_serial_port] returns
    [True]. *)
Definition resets_port (lp : Loop) (w : World) : bool :=
  reset_due (clock w) lp &&
  match (reset_serial_port w).1 with Done true => true | _ => false end.

(** The times at which the first [n] turns of the loop reset the port, in
    the order of the turns. *)
Fixpoint reset_log (fuel n : nat) (lp : Loop) (w : World) : list Z :=
  match n with
  | O => []
  | S n' =>
      (if resets_port lp w then [clock w] else []) ++
      match main_iteration fuel lp w with
      | (Done lp', w') => reset_log fuel n' lp' w'
      | _ => []
      end
  end.

End Bridge.

(** Each time of the list is followed, more than [gap] later, by the
    next. *)
Fixpoint spaced (gap : Z) (l : list Z) : Prop :=
  match l with
  | t1 :: l' => match l' with
                | t2 :: _ => t1 + gap < t2 ∧ spaced gap l'
                | [] => True
                end
  | [] => True
  end.

(** Lines 500-501: the locals after a reset at time [t]. *)
Definition after_reset (t : Z) (lp : Loop) : Loop :=
  mkLoop 0 t (last_firebase_update lp) (last_sensor_upload lp) (last_control_sync lp).

(** ** Vocabulary of the statements *)

(** [keeps R m]: whatever way [m] ends, the state it leaves is related by
    [R] to the state it started from. *)
Definition keeps {S A} (R : S → S → Prop) (m : M S A) : Prop := ∀ s, R s (m s).2.

(** A status field [k] is left alone. *)
Definition same_field (k : string) (st st' : gmap string val) : Prop :=
  st' !! k = st !! k.

(** Frame keys that can change the status field [k]. *)
Definition field_sources (k : string) : list string :=
  if bool_decide (k = "pumps") then ["pumps"; "pump1"; "pump2"]
  else if bool_decide (k ∈ ["ph"; "turbidity"; "tds"; "servo"; "system"]) then [k]
  else [].

(** Keys [update_status] looks at. *)
Definition frame_keys : list string :=
  ["ph"; "turbidity"; "tds"; "pumps"; "pump1"; "pump2"; "servo"; "system"].

(** The pump slots after an array [l] has been stored and the individual
    fields of the frame applied on top of it. *)
Definition override_slots (data : gmap string val) (l : list val) : list val :=
  let l1 := match data !! "pump1" with
            | Some v => <[0%nat := PyInt (coerce01 v)]> l
            | None => l
            end in
  match data !! "pump2" with
  | Some v => <[1%nat := PyInt (coerce01 v)]> l1
  | None => l1
  end.

(** A value that [v[0]] and [v[1]] cannot both read: anything but a list or
    a string of two or more elements. *)
Definition lacks_two_slots (v : val) : Prop :=
  match v with
  | PyList l => (length l < 2)%nat
  | PyStr s => (String.length s < 2)%nat
  | _ => True
  end.

(** ** Sample instances of the library functions, for concrete runs *)

Definition text (s : string) : list ascii := list_ascii_of_string s.

(** The text [{"k": v}]. *)
Definition frame_text (k v : string) : list ascii :=
  (text "{" ++ ["034"%char] ++ text k ++ ["034"%char] ++ text ": " ++ text v ++ text "}")%list.

(** A [json.loads] that knows a handful of frames and rejects the rest. *)
Definition sample_frames : list (list ascii * gmap string val) :=
  [ (frame_text "ph" "7", {["ph" := PyInt 7]});
    (frame_text "pump1" "1", {["pump1" := PyInt 1]});
    (frame_text "servo" "1", {["servo" := PyInt 1]}) ].
Definition sample_json_loads (s : list ascii) : option (gmap string val) :=
  snd <$> List.find (λ f, bool_decide (f.1 = s)) sample_frames.

(** A [json.dumps] that writes the recognised keys in a fixed order. *)
Definition sample_json_dumps (d : gmap string Z) : list ascii :=
  (text "{" ++
   concat (omap (λ k, (λ z : Z, frame_text k (if z =? 0 then "0" else "1")) <$> d !! k)
                actuator_keys) ++
   text "}")%list.

(** An [int] for strings that reads a single decimal digit. *)
Definition sample_int_of_str (s : string) : option Z :=
  match s with
  | String c EmptyString =>
      let n := Z.of_nat (nat_of_ascii c) - 48 in
      if (0 <=? n) && (n <=? 9) then Some n else None
  | _ => None
  end.

(** A clock display that does not vary. *)
Definition sample_strftime (t : Z) : string := "2025-01-01 00:00:00".
Definition sample_strftime_key (t : Z) : string := "20250101000000".

(** The state of a freshly started bridge with an open port, a silent
    device and an empty database. *)
Definition fresh_world : World :=
  mkWorld 0 (mkSerial true [] []) [] (λ _, false) initial_status
          (mkDecoder [] 0) unset_control (mkRemote ∅ ∅) (λ _, false).

(** [None], booleans and integers: the values on which [int(v)] is exact. *)
Definition integral (v : val) : Prop :=
  match v with
  | PyNone | PyBool _ | PyInt _ => True
  | _ => False
  end.

(** An observation [f] of the state is the same before and after. *)
Definition same {S B} (f : S → B) (s s' : S) : Prop := f s' = f s.

(** A computation that never leaves a loop unfinished. *)
Definition finishes {S A} (m : M S A) : Prop := ∀ s, (m s).1 ≠ OutOfFuel.

(** The value the reconciler forwards for [key], if any: the document holds
    the key, its value coerces to [z], and the cache entry is unset or
    differs from [z]. *)
Definition key_delta (int_of_str : string → option Z)
    (current_values : gmap string val) (pc : gmap string (option Z))
    (key : string) : option Z :=
  match current_values !! key with
  | Some cv =>
      match control_value int_of_str cv, pc !! key with
      | Done z, Some prev =>
          if bool_decide (prev = None ∨ Some z ≠ prev) then Some z else None
      | _, _ => None
      end
  | None => None
  end.

(** The cache after a cycle in which every actuator was 0. *)
Definition all_off : gmap string (option Z) :=
  <["pump1" := Some 0]> (<["pump2" := Some 0]> (<["servo" := Some 0]>
  (<["system" := Some 0]> ∅))).

(** A bridge whose serial port has been closed. *)
Definition closed_port_world : World :=
  set_ser (mkSerial false [] []) fresh_world.

(** A bridge that has just received a lone closing brace, the same bridge
    once the brace has been read into the buffer, the arrival of 10,000
    opening braces, and the state in which the decoder then turns. *)
Definition flood_size : nat := Z.to_nat 10000.
Definition stray_close_world : World :=
  set_ser (mkSerial true ["}"%char] []) fresh_world.
Definition after_stray_close : World :=
  set_decoder (mkDecoder ["}"%char] 0) (set_ser (mkSerial true [] []) fresh_world).
Definition flood_world (w : World) : World :=
  set_ser (mkSerial true (replicate flood_size "{"%char) (tx (ser w))) w.
Definition stalled_world : World :=
  set_decoder (mkDecoder ("}"%char :: replicate flood_size "{"%char) 0)
              (set_ser (mkSerial true [] []) fresh_world).

(** A computation that lets no exception out. *)
Definition quiet {S A} (m : M S A) : Prop := ∀ s e, (m s).1 ≠ Raised e.

(** Every normal result of a computation satisfies [Q]. *)
Definition yields {S A} (Q : A → Prop) (m : M S A) : Prop :=
  ∀ s a s', m s = (Done a, s') → Q a.

(** ** Start-up: [initialize_control_values] *)

Section Startup.
Variable strftime : Z → string.

(** Lines 390-396. *)
Definition default_values (now : string) : gmap string val :=
  <["pump1" := PyInt 0]> (<["pump2" := PyInt 0]> (<["servo" := PyInt 0]>
  (<["system" := PyInt 0]> (<["last_updated" := PyStr now]> ∅)))).

(** [control_ref.set(d)]: the document is replaced. *)
Definition control_ref_set (d : gmap string val) : M World unit :=
  remote_io >>
  modify (λ w, set_remote (mkRemote d (sensor_data (remote w))) w).

(** Lines 387-420. *)
Definition initialize_control_values : M World unit :=
  let* now := gets (λ w, strftime (clock w)) in
  let defaults := default_values now in
  let* control_data := control_ref_get in
  (if bool_decide (control_data = ∅) then control_ref_set defaults
   else
     let update_values := filter (λ kv, control_data !! kv.1 = None) defaults in
     if bool_decide (update_values = ∅) then ret tt
     else control_ref_update update_values) >>
  let* now' := gets (λ w, strftime (clock w)) in
  control_ref_update {["last_updated" := PyStr now']}.

End Startup.

(** ** Vocabulary of the further statements *)

(** Text without braces. *)
Definition brace_free (s : list ascii) : Prop :=
  has_char "{" s = false ∧ has_char "}" s = false.

(** Every opening brace is followed, somewhere, by a closing one. *)
Definition closes (s : list ascii) : Prop :=
  ∀ i, s !! i = Some "{"%char → ∃ j, (i < j)%nat ∧ s !! j = Some "}"%char.

(** Every normal end of a computation satisfies [Q], a condition on the
    result and the state left. *)
Definition ensures {S A} (Q : A → S → Prop) (m : M S A) : Prop :=
  ∀ s a s', m s = (Done a, s') → Q a s'.

(** Every exception a computation raises satisfies [P]. *)
Definition raises_only {S A} (P : exn → Prop) (m : M S A) : Prop :=
  ∀ s e s', m s = (Raised e, s') → P e.

(** What is left of the buffer's tail once line 373 has looked at it. *)
Definition kept (post : list ascii) : list ascii :=
  if 500 <? Z.of_nat (length post) then [] else post.

(** Line 384 alone: the error count goes up by one. *)
Definition bump_error_count (w : World) : World :=
  set_decoder (mkDecoder (buffer (decoder w)) (error_count (decoder w) + 1)) w.

(** The world once everything waiting on the port has been appended to the
    buffer (lines 326-327). *)
Definition after_read (w : World) : World :=
  set_decoder (mkDecoder (buffer (decoder w) ++ rx (ser w)) (error_count (decoder w)))
              (set_ser (mkSerial true [] (tx (ser w))) w).

(** The test of line 330. *)
Definition stalled (buf : list ascii) : bool :=
  has_char "{" buf && negb (has_char "}" buf) && (100 <? Z.of_nat (length buf)).

(** What lines 332-334 leave of a stalled buffer. *)
Definition stalled_rest (buf : list ascii) : list ascii :=
  let buf' := slice_from buf (rfind "{" buf) in
  if 100 <? Z.of_nat (length buf') then [] else buf'.


(** A port whose driver never raises. *)
Definition never_faults (w : World) : Prop := ∀ t, serial_fault w t = false.

(** A computation that raises nothing as long as the port driver works. *)
Definition steady {A} (m : M World A) : Prop :=
  ∀ w, never_faults w → ∀ e, (m w).1 ≠ Raised e.

(** Lines 139-157 and 208-212 around the exchange itself: the world a send
    starts its wait in, once the stale input is dropped and the line is
    written. *)
Definition line_written (line : list ascii) (w : World) : World :=
  set_ser (mkSerial true [] (tx (ser w) ++ line)) w.

(** What the device has emitted up to time [t] and is still to be
    delivered. *)
Definition emitted_by (t : Z) (w : World) : list ascii :=
  concat (filter (λ c, c.1 <= t) (device w)).*2.

(** A bridge whose port driver raises on every access, and one whose input
    queue holds text left over from before. *)
Definition broken_port_world : World :=
  mkWorld 0 (mkSerial true [] []) [] (λ _, true) initial_status
          (mkDecoder [] 0) unset_control (mkRemote ∅ ∅) (λ _, false).
Definition stale_input_world : World :=
  set_ser (mkSerial true (text "leftover") []) fresh_world.

(** A device that answers [{"ph": 7}] 100 ms from the start. *)
Definition answering_world : World :=
  set_device [(100, frame_text "ph" "7")] fresh_world.

(** ** Vocabulary for the reconciler *)

(** Nothing is left to forward for [key]: the document lacks it, or its
    value coerces to what the cache holds, or its value cannot be read and
    the cache holds some value. *)
Definition settled (int_of_str : string → option Z)
    (current_values : gmap string val) (pc : gmap string (option Z))
    (key : string) : Prop :=
  match current_values !! key with
  | None => True
  | Some cv =>
      match control_value int_of_str cv with
      | Done z => pc !! key = Some (Some z)
      | Raised e => value_or_type_error e = true ∧ ∃ p, pc !! key = Some (Some p)
      | OutOfFuel => False
      end
  end.

(** Lines 537-543 over a status whose pump slots are [v1] and [v2]. *)
Definition mirrored (v1 v2 servo system : val) (now : string) : gmap string val :=
  <["pump1" := v1]> (<["pump2" := v2]> (<["servo" := servo]>
  (<["system" := system]> (<["last_updated" := PyStr now]> ∅)))).

(** A status that reports pump 1 off while the cache records that 1 was
    forwarded for it. *)
Definition unconfirmed_world : World :=
  set_previous_control (<["pump1" := Some 1]> all_off) fresh_world.

(** ** Vocabulary for the main loop *)

(** A closed port stays closed, and nothing more is written to it. *)
Definition stays_closed (w w' : World) : Prop :=
  is_open (ser w) = false → is_open (ser w') = false ∧ tx (ser w') = tx (ser w).

(** [serial_errors += 1] (line 552), the other locals as they were. *)
Definition count_serial_error (lp : Loop) : Loop :=
  mkLoop (serial_errors lp + 1) (last_reset_time lp) (last_firebase_update lp)
         (last_sensor_upload lp) (last_control_sync lp).

(** What the device emits after [t1] and up to [t2]. *)
Definition emitted_between (t1 t2 : Z) (w : World) : list ascii :=
  concat (filter (λ c, c.1 <= t2) (filter (λ c, ¬ c.1 <= t1) (device w))).*2.

(** A bridge that cannot reach the database. *)
Definition remote_down_world : World :=
  mkWorld 0 (mkSerial true [] []) [] (λ _, false) initial_status
          (mkDecoder [] 0) unset_control (mkRemote ∅ ∅) (λ _, true).

(** A bridge whose port driver fails one second from the start, when a
    reset would reopen the port. *)
Definition failing_reopen_world : World :=
  mkWorld 0 (mkSerial true [] []) [] (λ t, t =? 1000) initial_status
          (mkDecoder [] 0) unset_control (mkRemote ∅ ∅) (λ _, false).

(** ** Vocabulary for the status store *)

(** No key of the status is lost. *)
Definition keeps_keys (st st' : gmap string val) : Prop :=
  ∀ k, is_Some (st !! k) → is_Some (st' !! k).
Definition status_grows (w w' : World) : Prop :=
  keeps_keys (current_status w) (current_status w').

(** ** Vocabulary for streams of frames *)

(** The frame with body [body]. *)
Definition frame_of (body : list ascii) : list ascii :=
  "{"%char :: body ++ ["}"%char].

(** Text that holds the given frames one after the other, each preceded by
    its own leading text. *)
Fixpoint stream_text (fs : list (list ascii * list ascii * gmap string val))
    : list ascii :=
  match fs with
  | [] => []
  | f :: fs' => f.1.1 ++ frame_of f.1.2 ++ stream_text fs'
  end.

(** The contents of the frames merged into the status one after the other. *)
Definition merge_all (fs : list (list ascii * list ascii * gmap string val))
    (st : gmap string val) : gmap string val :=
  fold_left (λ st f, (update_status f.2 st).2) fs st.

(** Leading text and body without braces, a length the decoder accepts, and
    a content [json.loads] returns. *)
Definition well_framed (json_loads : list ascii → option (gmap string val))
    (f : list ascii * list ascii * gmap string val) : Prop :=
  brace_free f.1.1 ∧ brace_free f.1.2 ∧
  5 ≤ text_len (frame_of f.1.2) ≤ 500 ∧
  json_loads (frame_of f.1.2) = Some f.2.

(** A device that sends [{"ph": 7}] in two pieces, 400 ms and 550 ms from
    the start. *)
Definition stuttering_world : World :=
  set_device [(400, ("{"%char :: ["034"%char] ++ text "ph")%list);
              (550, (["034"%char] ++ text ": 7}")%list)] fresh_world.

(** ** Vocabulary for the path from the port to the database *)

(** Lines 516-520: the sensor record built from a status. *)
Definition sensor_record (st : gmap string val) : gmap string val :=
  <["ph" := default (PyInt 0) (st !! "ph")]>
  (<["tds" := default (PyInt 0) (st !! "tds")]>
  (<["turbidity" := default (PyInt 0) (st !! "turbidity")]> ∅)).

(** The command that switches every actuator off. *)
Definition all_zero : gmap string val :=
  <["pump1" := PyInt 0]> (<["pump2" := PyInt 0]> (<["servo" := PyInt 0]>
  (<["system" := PyInt 0]> ∅))).

(** [last_sensor_upload = current_time] (line 530). *)
Definition uploaded_at (t : Z) (lp : Loop) : Loop :=
  mkLoop (serial_errors lp) (last_reset_time lp) (last_firebase_update lp)
         t (last_control_sync lp).

(** ** Vocabulary for the duration of a send *)

(** Time does not run backwards. *)
Definition later (w w' : World) : Prop := clock w ≤ clock w'.

(** The end of a computation that started at time [c0]: not before [c0],
    and not before [c0 + 500] if the result is [True]. *)
Definition paused (c0 : Z) (p : outcome bool * World) : Prop :=
  c0 ≤ clock p.2 ∧ (p.1 = Done true → c0 + 500 ≤ clock p.2).
(** * Properties *)

Example update_status_ph_only :
  update_status {["ph" := PyFloat float_7_1]} initial_status
  = (Done tt, <["ph" := PyFloat float_7_1]> initial_status).
Proof. reflexivity. Qed.

(** ** Reasoning about computations *)

Lemma bind_done {S A B} (m : M S A) (k : A → M S B) s a s' :
  m s = (Done a, s') → bind m k s = k a s'.
Proof. unfold bind. by intros ->. Qed.

Lemma bind_raised {S A B} (m : M S A) (k : A → M S B) s e s' :
  m s = (Raised e, s') → bind m k s = (Raised e, s').
Proof. unfold bind. by intros ->. Qed.

Lemma bind_done_inv {S A B} (m : M S A) (k : A → M S B) s b s' :
  bind m k s = (Done b, s') →
  ∃ a s1, m s = (Done a, s1) ∧ k a s1 = (Done b, s').
Proof. unfold bind. destruct (m s) as [[a|e|] s1]; [eauto | done | done]. Qed.

Section Keeps.
Context {S : Type} (R : S → S → Prop) `{!Reflexive R, !Transitive R}.


Lemma keeps_ret {A} (a : A) : keeps R (ret a).
Proof. intros s. simpl. reflexivity. Qed.

Lemma keeps_raise {A} e : keeps R (raise (A := A) e).
Proof. intros s. simpl. reflexivity. Qed.

Lemma keeps_out_of_fuel {A} : keeps R (out_of_fuel (A := A)).
Proof. intros s. simpl. reflexivity. Qed.

Lemma keeps_lift {A} (o : outcome A) : keeps R (lift o).
Proof. intros s. simpl. reflexivity. Qed.

Lemma keeps_get : keeps R get.
Proof. intros s. simpl. reflexivity. Qed.

Lemma keeps_gets {A} (f : S → A) : keeps R (gets f).
Proof. intros s. simpl. reflexivity. Qed.

Lemma keeps_modify f : (∀ s, R s (f s)) → keeps R (modify f).
Proof. intros H s. apply H. Qed.

Lemma keeps_bind {A B} (m : M S A) (k : A → M S B) :
  keeps R m → (∀ a, keeps R (k a)) → keeps R (bind m k).
Proof.
  intros Hm Hk s. unfold bind. specialize (Hm s).
  destruct (m s) as [[a|e|] s1]; simpl in *; try done.
  etrans; [exact Hm | apply Hk].
Qed.

Lemma keeps_try_except {A} (m : M S A) h :
  keeps R m → (∀ e, keeps R (h e)) → keeps R (try_except m h).
Proof.
  intros Hm Hh s. unfold try_except. specialize (Hm s).
  destruct (m s) as [[a|e|] s1]; simpl in *; try done.
  etrans; [exact Hm | apply Hh].
Qed.

Lemma keeps_try_except_only {A} c (m : M S A) h :
  keeps R m → (∀ e, keeps R (h e)) → keeps R (try_except_only c m h).
Proof.
  intros Hm Hh s. unfold try_except_only. specialize (Hm s).
  destruct (m s) as [[a|e|] s1]; simpl in *; try done.
  destruct (c e); simpl; [|done].
  etrans; [exact Hm | apply Hh].
Qed.

End Keeps.

(** Structural steps of a [keeps] proof; what is left are the [modify]
    steps and the calls. *)
Create HintDb keeps discriminated.

Ltac keeps_step :=
  first
    [ solve [auto 2 with keeps nocore]
    | apply keeps_ret; apply _ | apply keeps_raise; apply _
    | apply keeps_out_of_fuel; apply _
    | apply keeps_lift; apply _ | apply keeps_get; apply _
    | apply keeps_gets; apply _
    | apply keeps_bind; [apply _ | | intros ?]
    | apply keeps_try_except; [apply _ | | intros ?]
    | apply keeps_try_except_only; [apply _ | | intros ?]
    | match goal with
      | |- keeps _ (let _ := _ in _) => cbv zeta
      | |- keeps _ (match ?x with _ => _ end) => destruct x
      | |- keeps _ (if ?b then _ else _) => destruct b
      | |- keeps _ (let '(_, _) := ?x in _) => destruct x
      end ].
Ltac keeps_auto := repeat keeps_step.

(** ** The status store *)


#[local] Instance same_field_refl k : Reflexive (same_field k).
Proof. by intros st. Qed.
#[local] Instance same_field_trans k : Transitive (same_field k).
Proof. unfold same_field. intros a b c H1 H2. congruence. Qed.

Lemma copy_key_same k k' data :
  k ≠ k' ∨ data !! k' = None → keeps (same_field k) (copy_key k' data).
Proof.
  intros H. unfold copy_key. destruct (data !! k') eqn:E.
  - destruct H as [H|H]; [|done]. apply keeps_modify.
    intros st. unfold same_field. by rewrite lookup_insert_ne.
  - apply keeps_ret; apply _.
Qed.

Lemma set_pump_same k k' i data :
  k ≠ "pumps" ∨ data !! k' = None → keeps (same_field k) (set_pump k' i data).
Proof.
  intros H. unfold set_pump. destruct (data !! k') eqn:E.
  - destruct H as [H|H]; [|done].
    assert (∀ v st, same_field k st (<["pumps" := v]> st)) as Hins.
    { intros v' st. unfold same_field. by rewrite lookup_insert_ne. }
    keeps_auto; apply keeps_modify; intros st;
      try destruct (st !! "pumps"); first [reflexivity | apply Hins].
  - apply keeps_ret; apply _.
Qed.


Lemma update_status_same k data :
  (∀ k', k' ∈ field_sources k → data !! k' = None) →
  keeps (same_field k) (update_status data).
Proof.
  intros H. unfold update_status.
  assert (∀ k', k' ∈ ["ph"; "turbidity"; "tds"; "servo"; "system"; "pumps"] →
                k ≠ k' ∨ data !! k' = None) as Hc.
  { intros k' Hk'. destruct (decide (k = k')) as [<-|]; [right|by left].
    apply H. rewrite !elem_of_cons, elem_of_nil in Hk'.
    rewrite list_elem_of_In.
    destruct Hk' as [->|[->|[->|[->|[->|[->|[]]]]]]]; vm_compute; tauto. }
  assert (∀ k', k' ∈ ["pump1"; "pump2"] → k ≠ "pumps" ∨ data !! k' = None) as Hp.
  { intros k' Hk'. destruct (decide (k = "pumps")) as [->|]; [right|by left].
    apply H. rewrite !elem_of_cons, elem_of_nil in Hk'.
    rewrite list_elem_of_In.
    destruct Hk' as [->|[->|[]]]; vm_compute; tauto. }
  repeat (apply keeps_bind; [apply _ | | intros _]);
    first [ apply copy_key_same, Hc | apply set_pump_same, Hp ];
    rewrite list_elem_of_In; vm_compute; tauto.
Qed.

Lemma copy_key_run k (data st : gmap string val) :
  copy_key k data st
  = (Done tt, match data !! k with Some v => <[k := v]> st | None => st end).
Proof. unfold copy_key. by destruct (data !! k). Qed.

Lemma set_pump_absent k i (data st : gmap string val) :
  data !! k = None → set_pump k i data st = (Done tt, st).
Proof. unfold set_pump. by intros ->. Qed.

Lemma set_pump_run k i (data st : gmap string val) v p :
  data !! k = Some v → st !! "pumps" = Some p →
  set_pump k i data st
  = match setitem p i (PyInt (coerce01 v)) with
    | Done p' => (Done tt, <["pumps" := p']> st)
    | Raised e => (Raised e, st)
    | OutOfFuel => (OutOfFuel, st)
    end.
Proof.
  unfold set_pump. intros -> Hp. unfold bind, modify, get, lift. simpl.
  rewrite Hp. simpl. rewrite Hp. by destruct (setitem _ _ _).
Qed.


Lemma update_status_tail (data st : gmap string val) :
  (copy_key "servo" data >> copy_key "system" data) st
  = (Done tt, (copy_key "system" data (copy_key "servo" data st).2).2)
  ∧ (copy_key "system" data (copy_key "servo" data st).2).2 !! "pumps" = st !! "pumps".
Proof.
  split.
  - unfold bind. by rewrite !copy_key_run.
  - rewrite !copy_key_run. simpl.
    destruct (data !! "system"), (data !! "servo"); simpl;
      by rewrite ?lookup_insert_ne.
Qed.

Lemma update_status_pumps_array (data st : gmap string val) (l : list val) :
  data !! "pumps" = Some (PyList l) →
  (is_Some (data !! "pump1") → (1 ≤ length l)%nat) →
  (is_Some (data !! "pump2") → (2 ≤ length l)%nat) →
  (update_status data st).1 = Done tt ∧
  (update_status data st).2 !! "pumps" = Some (PyList (override_slots data l)).
Proof.
  intros Hp Hl1 Hl2. unfold update_status.
  do 4 (erewrite bind_done; [|apply copy_key_run]).
  rewrite Hp.
  set (st3 := match data !! "tds" with Some v => _ | None => _ end).
  assert (∀ (m : gmap string val) p,
            (<["pumps" := p]> m : gmap string val) !! "pumps" = Some p) as Hlk
    by (intros; apply lookup_insert_eq).
  unfold override_slots.
  destruct (data !! "pump1") as [v1|] eqn:E1;
    [ specialize (Hl1 ltac:(eauto)); erewrite bind_done;
      [| erewrite set_pump_run by (done || apply Hlk); simpl;
         rewrite decide_True by lia; reflexivity]
    | erewrite bind_done; [| by apply set_pump_absent] ];
  (destruct (data !! "pump2") as [v2|] eqn:E2;
    [ specialize (Hl2 ltac:(eauto)); erewrite bind_done;
      [| erewrite set_pump_run by (done || apply Hlk); simpl;
         rewrite decide_True by (rewrite ?length_insert; lia); reflexivity]
    | erewrite bind_done; [| by apply set_pump_absent] ]).
  all: match goal with
       | |- context [bind _ _ ?s] =>
           destruct (update_status_tail data s) as [E Ep]
       end; rewrite E; cbn [fst snd]; by rewrite Ep, Hlk.
Qed.

(** ** Readers of the pump slots *)

Lemma pump_slot_run (w : World) v i :
  current_status w !! "pumps" = Some v → pump_slot i w = (getitem v i, w).
Proof.
  intros H. unfold pump_slot, status_item, bind, get, lift. simpl. rewrite H.
  simpl. by destruct (getitem v i).
Qed.

Lemma lacks_two_slots_getitem v :
  lacks_two_slots v →
  ∃ e, getitem v 0 = Raised e ∨ ((∃ x, getitem v 0 = Done x) ∧ getitem v 1 = Raised e).
Proof.
  destruct v as [| b | z | f | s | l]; simpl; intros H;
    try (exists TypeError; by left).
  - exists IndexError. destruct s as [|c [|c' s']]; simpl in *; try lia; eauto.
  - exists IndexError. destruct l as [|a [|b l']]; simpl in *; try lia; eauto.
Qed.

Lemma lacks_two_slots_reader {A} (w : World) v (k : val → val → M World A) :
  current_status w !! "pumps" = Some v → lacks_two_slots v →
  ∃ e, (let* a := pump_slot 0 in let* b := pump_slot 1 in k a b) w = (Raised e, w).
Proof.
  intros Hv Hl. destruct (lacks_two_slots_getitem v Hl) as [e [H0|[[x H0] H1]]];
    exists e.
  - apply bind_raised. rewrite (pump_slot_run w v) by done. by rewrite H0.
  - erewrite bind_done by (rewrite (pump_slot_run w v) by done; by rewrite H0).
    apply bind_raised. rewrite (pump_slot_run w v) by done. by rewrite H1.
Qed.

Lemma upload_sensor_data_run strftime_key (w : World) :
  upload_sensor_data strftime_key w = (Raised FirebaseError, w) ∨
  ∃ records, upload_sensor_data strftime_key w
             = (Done tt, set_remote (mkRemote (control_doc (remote w)) records) w).
Proof.
  unfold upload_sensor_data, status_get, remote_io, bind, gets, get, modify. simpl.
  destruct (remote_fault w (clock w)); simpl; eauto.
Qed.

(** ** The command channel *)

Lemma format_command_lookup (command : gmap string val) k :
  format_command command !! k
  = if bool_decide (k ∈ actuator_keys) then coerce01 <$> command !! k else None.
Proof.
  unfold format_command. rewrite lookup_fmap. case_bool_decide as Hk.
  - destruct (command !! k) as [v|] eqn:E.
    + by rewrite (map_lookup_filter_Some_2 _ _ k v E Hk).
    + by rewrite (map_lookup_filter_None_2 _ _ k (or_introl E)).
  - rewrite map_lookup_filter_None_2; [done|]. right. intros v _. exact Hk.
Qed.

Lemma format_command_empty (command : gmap string val) :
  (∀ k, k ∈ actuator_keys → command !! k = None) → format_command command = ∅.
Proof.
  intros H. apply map_eq. intros k. rewrite format_command_lookup, lookup_empty.
  case_bool_decide; [|done]. by rewrite H.
Qed.

Lemma format_command_nonempty (command : gmap string val) k v :
  k ∈ actuator_keys → command !! k = Some v → format_command command ≠ ∅.
Proof.
  intros Hk Hv He. apply (f_equal (λ m, m !! k)) in He.
  rewrite format_command_lookup, lookup_empty, bool_decide_eq_true_2, Hv in He; done.
Qed.

(** ** Observations that a computation leaves alone *)

#[local] Instance same_refl {S B} (f : S → B) : Reflexive (same f).
Proof. by intros s. Qed.
#[local] Instance same_trans {S B} (f : S → B) : Transitive (same f).
Proof. unfold same. intros a b c H1 H2. congruence. Qed.

Lemma keeps_zoom {S T A} (R : S → S → Prop) (proj : S → T) upd (m : M T A) :
  (∀ s t, R s (upd t s)) → keeps R (zoom proj upd m).
Proof. intros H s. unfold zoom. destruct (m (proj s)). apply H. Qed.

Lemma keeps_with_status {A B} (f : World → B) (m : M (gmap string val) A) :
  (∀ w st, f (set_status st w) = f w) → keeps (same f) (with_status m).
Proof. intros H. apply keeps_zoom. intros s t. apply H. Qed.

Lemma deliver_fields (w : World) :
  clock (deliver w) = clock w ∧
  tx (ser (deliver w)) = tx (ser w) ∧
  is_open (ser (deliver w)) = is_open (ser w) ∧
  serial_fault (deliver w) = serial_fault w ∧
  current_status (deliver w) = current_status w ∧
  decoder (deliver w) = decoder w ∧
  previous_control (deliver w) = previous_control w ∧
  remote (deliver w) = remote w ∧
  remote_fault (deliver w) = remote_fault w.
Proof. unfold deliver. destruct (is_open (ser w)) eqn:E; simpl; by rewrite ?E. Qed.

Lemma sleep_keeps {B} (f : World → B) d :
  (∀ w, f (deliver w) = f w) → (∀ w t, f (set_clock t w) = f w) →
  keeps (same f) (sleep d).
Proof. intros H1 H2. apply keeps_modify. intros w. unfold same. by rewrite H1, H2. Qed.

(** Leaves of a [keeps (same f)] proof on the world: [sleep], a [modify]
    whose function is built from the setters, and a status update. *)
Ltac same_leaf :=
  first
    [ apply sleep_keeps; [intros; cbv beta; apply deliver_fields | by intros]
    | apply keeps_modify; intros ?; unfold same; simpl; reflexivity
    | apply keeps_with_status; intros ? ?; reflexivity ].

Ltac same_auto := repeat first [ keeps_step | same_leaf ].

(** ** Computations that finish *)

Lemma finishes_ret {S A} (a : A) : finishes (S := S) (ret a).
Proof. by intros s. Qed.
Lemma finishes_raise {S A} e : finishes (S := S) (raise (A := A) e).
Proof. by intros s. Qed.
Lemma finishes_get {S} : finishes (S := S) get.
Proof. by intros s. Qed.
Lemma finishes_gets {S A} (f : S → A) : finishes (gets f).
Proof. by intros s. Qed.
Lemma finishes_modify {S} (f : S → S) : finishes (modify f).
Proof. by intros s. Qed.
Lemma finishes_lift {S A} (o : outcome A) : o ≠ OutOfFuel → finishes (S := S) (lift o).
Proof. by intros H s. Qed.

Lemma finishes_bind {S A B} (m : M S A) (k : A → M S B) :
  finishes m → (∀ a, finishes (k a)) → finishes (bind m k).
Proof.
  intros Hm Hk s. unfold bind. specialize (Hm s).
  destruct (m s) as [[a|e|] s1]; simpl in *; try done. apply Hk.
Qed.

Lemma finishes_try_except {S A} (m : M S A) h :
  finishes m → (∀ e, finishes (h e)) → finishes (try_except m h).
Proof.
  intros Hm Hh s. unfold try_except. specialize (Hm s).
  destruct (m s) as [[a|e|] s1]; simpl in *; try done. apply Hh.
Qed.

Lemma finishes_try_except_only {S A} c (m : M S A) h :
  finishes m → (∀ e, finishes (h e)) → finishes (try_except_only c m h).
Proof.
  intros Hm Hh s. unfold try_except_only. specialize (Hm s).
  destruct (m s) as [[a|e|] s1]; simpl in *; try done.
  destruct (c e); [apply Hh | done].
Qed.

Lemma finishes_zoom {S T A} (proj : S → T) upd (m : M T A) :
  finishes m → finishes (zoom proj upd m).
Proof. intros H s. unfold zoom. specialize (H (proj s)). by destruct (m (proj s)). Qed.

(** A [try ... except Exception] whose handler returns always returns. *)
Lemma try_except_returns {S A} (m : M S A) (a : A) :
  finishes m → ∀ s, ∃ r s', try_except m (λ _, ret a) s = (Done r, s').
Proof.
  intros Hm s. unfold try_except. specialize (Hm s).
  destruct (m s) as [[x|e|] s1]; simpl in *; try done; eauto.
Qed.

Create HintDb finishes discriminated.
#[local] Hint Resolve finishes_ret finishes_raise finishes_get finishes_gets
  finishes_modify finishes_zoom : finishes.

Ltac finishes_step :=
  first
    [ solve [auto 3 with finishes nocore]
    | apply finishes_bind; [| intros ?]
    | apply finishes_try_except; [| intros ?]
    | apply finishes_try_except_only; [| intros ?]
    | match goal with
      | |- finishes (let _ := _ in _) => cbv zeta
      | |- finishes (match ?x with _ => _ end) => destruct x
      | |- finishes (if ?b then _ else _) => destruct b
      end ].
Ltac finishes_auto := repeat finishes_step.

Lemma setitem_finishes p i x : setitem p i x ≠ OutOfFuel.
Proof. destruct p; simpl; try done. by case_decide. Qed.

Lemma update_status_finishes data : finishes (update_status data).
Proof.
  unfold update_status, copy_key, set_pump.
  finishes_auto; apply finishes_lift, setitem_finishes.
Qed.
Lemma with_status_finishes {A} (m : M (gmap string val) A) :
  finishes m → finishes (with_status m).
Proof. apply finishes_zoom. Qed.
#[local] Hint Resolve update_status_finishes with_status_finishes : finishes.

(** ** The serial port and the wait for a response *)

Lemma in_waiting_run (w : World) :
  in_waiting w = (Done (Z.of_nat (length (rx (ser w)))), w) ∨
  in_waiting w = (Raised SerialException, w).
Proof.
  unfold in_waiting, port_io, bind, get, gets. simpl.
  destruct (serial_fault w (clock w)); auto.
Qed.

Lemma in_waiting_healthy (w : World) :
  serial_fault w (clock w) = false →
  in_waiting w = (Done (Z.of_nat (length (rx (ser w)))), w).
Proof. intros H. unfold in_waiting, port_io, bind, get, gets. simpl. by rewrite H. Qed.

Lemma read_waiting_healthy (w : World) :
  serial_fault w (clock w) = false →
  read_waiting w
  = (Done (rx (ser w)), set_ser (mkSerial (is_open (ser w)) [] (tx (ser w))) w).
Proof.
  intros H. unfold read_waiting. erewrite bind_done by by apply in_waiting_healthy.
  unfold port_io, bind, get, modify. simpl. by rewrite H.
Qed.

Lemma ser_write_healthy (w : World) data :
  serial_fault w (clock w) = false →
  ser_write data w
  = (Done tt, set_ser (mkSerial (is_open (ser w)) (rx (ser w)) (tx (ser w) ++ data)) w).
Proof. intros H. unfold ser_write, port_io, bind, get, modify. simpl. by rewrite H. Qed.

Lemma port_io_finishes : finishes port_io.
Proof. unfold port_io. finishes_auto. Qed.
Lemma in_waiting_finishes : finishes in_waiting.
Proof. unfold in_waiting. finishes_auto. Qed.
Lemma read_waiting_finishes : finishes read_waiting.
Proof. unfold read_waiting. finishes_auto. Qed.
Lemma ser_write_finishes data : finishes (ser_write data).
Proof. unfold ser_write. finishes_auto. Qed.
Lemma sleep_finishes d : finishes (sleep d).
Proof. unfold sleep. finishes_auto. Qed.
#[local] Hint Resolve port_io_finishes in_waiting_finishes read_waiting_finishes
  ser_write_finishes sleep_finishes : finishes.

Lemma port_io_keeps {B} (f : World → B) : keeps (same f) port_io.
Proof. unfold port_io. same_auto. Qed.
Lemma in_waiting_keeps {B} (f : World → B) : keeps (same f) in_waiting.
Proof. unfold in_waiting. same_auto. Qed.
#[local] Hint Resolve port_io_keeps in_waiting_keeps : keeps.

Lemma sleep_clock d (w : World) : ∃ w', sleep d w = (Done tt, w') ∧ clock w' = clock w + d.
Proof.
  eexists. split; [reflexivity|]. by rewrite (proj1 (deliver_fields _)).
Qed.

Section ResponseWait.
Variable json_loads : list ascii → option (gmap string val).

Lemma read_response_clock : keeps (same clock) (read_response json_loads).
Proof. unfold read_response, read_waiting. same_auto. Qed.

Lemma read_response_finishes : finishes (read_response json_loads).
Proof. unfold read_response. finishes_auto. Qed.

Lemma read_response_returns (w : World) :
  ∃ b w', read_response json_loads w = (Done b, w') ∧ clock w' = clock w.
Proof.
  pose proof (read_response_clock w) as Hc.
  assert (∃ b w', read_response json_loads w = (Done b, w')) as (b & w' & E).
  { unfold read_response. apply try_except_returns. finishes_auto. }
  rewrite E in Hc. eauto.
Qed.

(** The loop that waits for the response ends: each turn costs 100 ms of the
    2000 ms allowance. *)
Lemma await_response_enough (fuel : nat) (start_time : Z) :
  ∀ w : World, (1 ≤ fuel)%nat →
    2100 - 100 * Z.of_nat fuel ≤ clock w - start_time →
    (await_response json_loads fuel start_time w).1 ≠ OutOfFuel.
Proof.
  induction fuel as [|fuel IH]; intros w Hf Hc; [lia|].
  simpl. unfold bind at 1. unfold gets. simpl.
  destruct (clock w - start_time <? 2000) eqn:G; [|done].
  apply Z.ltb_lt in G.
  destruct (in_waiting_run w) as [E|E]; [|by rewrite (bind_raised _ _ _ _ _ E)].
  rewrite (bind_done _ _ _ _ _ E).
  assert (∃ b w', (if Z.of_nat (length (rx (ser w))) =? 0 then ret false
                   else read_response json_loads) w = (Done b, w')
                  ∧ clock w' = clock w) as (b & w' & Es & Hw').
  { destruct (_ =? 0); [by exists false, w | apply read_response_returns]. }
  rewrite (bind_done _ _ _ _ _ Es). destruct b; [done|].
  destruct (sleep_clock 100 w') as (w2 & E2 & Hw2).
  rewrite (bind_done _ _ _ _ _ E2). apply IH; lia.
Qed.

Lemma await_response_finishes (w : World) :
  (await_response json_loads response_polls (clock w) w).1 ≠ OutOfFuel.
Proof. apply await_response_enough; unfold response_polls; simpl; lia. Qed.

Lemma await_response_keeps {B} (f : World → B) fuel start_time :
  (∀ w st, f (set_status st w) = f w) →
  (∀ w, f (set_ser (mkSerial (is_open (ser w)) [] (tx (ser w))) w) = f w) →
  (∀ w, f (deliver w) = f w) →
  (∀ w t, f (set_clock t w) = f w) →
  keeps (same f) (await_response json_loads fuel start_time).
Proof.
  intros H1 H2 H3 H4.
  assert (keeps (same f) (read_response json_loads)) as Hr.
  { unfold read_response, read_waiting.
    repeat first [ keeps_step
                 | apply keeps_with_status; by intros
                 | apply keeps_modify; intros ?; unfold same; by rewrite ?H2 ]. }
  induction fuel as [|fuel IH]; simpl.
  - apply keeps_out_of_fuel; apply _.
  - repeat first [ keeps_step | exact Hr | exact IH
                 | apply keeps_modify; intros ?; unfold same; by rewrite H3, H4 ].
Qed.

End ResponseWait.

Section SendCommand.
Variable json_loads : list ascii → option (gmap string val).
Variable json_dumps : gmap string Z → list ascii.

Lemma await_tail_finishes :
  finishes (let* start_time := gets clock in
            await_response json_loads response_polls start_time >> ret true).
Proof.
  intros w. pose proof (await_response_finishes json_loads w) as H.
  unfold bind, gets. cbv beta iota.
  by destruct (await_response json_loads response_polls (clock w) w)
    as [[[]|e|] w'].
Qed.

(** [send_command_to_arduino] always returns [True] or [False]. *)
Lemma send_returns (command : gmap string val) (w : World) :
  ∃ result w', send_command_to_arduino json_loads json_dumps command w
               = (Done result, w').
Proof.
  unfold send_command_to_arduino. apply try_except_returns.
  pose proof await_tail_finishes. finishes_auto.
Qed.

Lemma send_keeps {B} (f : World → B) command :
  (∀ w st, f (set_status st w) = f w) →
  (∀ w s, f (set_ser s w) = f w) →
  (∀ w, f (deliver w) = f w) →
  (∀ w t, f (set_clock t w) = f w) →
  keeps (same f) (send_command_to_arduino json_loads json_dumps command).
Proof.
  intros H1 H2 H3 H4. unfold send_command_to_arduino, read_waiting, ser_write, ser_flush.
  pose proof (await_response_keeps json_loads f) as Ha.
  repeat first [ apply Ha; by auto
               | keeps_step
               | apply keeps_modify; intros ?; unfold same, sleep;
                 by rewrite ?H3, ?H4, ?H2 ].
Qed.

(** What reaches the wire: on an open, working port the formatted command
    is written once, as one line, and nothing else is written. *)
Lemma send_writes (command : gmap string val) (w : World) :
  is_open (ser w) = true → serial_fault w (clock w) = false →
  format_command command ≠ ∅ →
  tx (ser (send_command_to_arduino json_loads json_dumps command w).2)
  = tx (ser w) ++ json_dumps (format_command command) ++ ["010"%char].
Proof.
  intros Ho Hf Hc. unfold send_command_to_arduino.
  set (rest := (ser_flush >> sleep 500 >>
                let* start_time := gets clock in
                await_response json_loads response_polls start_time >> ret true)).
  assert (keeps (same (λ w, tx (ser w))) rest) as Hrest.
  { unfold rest, ser_flush.
    pose proof (await_response_keeps json_loads (λ w, tx (ser w))) as Ha.
    repeat first [ apply Ha; first [ by intros | intros; apply deliver_fields ]
                 | keeps_step
                 | apply keeps_modify; intros ?; unfold same, sleep;
                   by rewrite (proj1 (proj2 (deliver_fields _))) ]. }
  unfold try_except, bind at 1, get. simpl. rewrite Ho. simpl.
  rewrite bool_decide_eq_false_2 by done.
  rewrite (bind_done _ _ _ _ _ (in_waiting_healthy w Hf)).
  set (w1 := if Z.of_nat (length (rx (ser w))) =? 0 then w
             else set_ser (mkSerial (is_open (ser w)) [] (tx (ser w))) w).
  assert ((if Z.of_nat (length (rx (ser w))) =? 0 then ret tt
           else read_waiting >> ret tt) w = (Done tt, w1)) as Ed.
  { unfold w1. destruct (_ =? 0); [done|].
    by rewrite (bind_done _ _ _ _ _ (read_waiting_healthy w Hf)). }
  rewrite (bind_done _ _ _ _ _ Ed).
  assert (serial_fault w1 (clock w1) = false ∧ tx (ser w1) = tx (ser w)) as [Hf1 Ht1].
  { unfold w1. by destruct (_ =? 0). }
  rewrite (bind_done _ _ _ _ _
             (ser_write_healthy w1 (json_dumps (format_command command) ++ ["010"%char]) Hf1)).
  set (w2 := set_ser _ w1). fold rest. specialize (Hrest w2). unfold same in Hrest.
  destruct (rest w2) as [[r|e|] w3]; simpl in *; by rewrite Hrest, Ht1.
Qed.

End SendCommand.

(** ** The reconciler *)

Lemma set_previous_control_id (w : World) : set_previous_control (previous_control w) w = w.
Proof. by destruct w. Qed.

Section Reconciler.
Variable json_loads : list ascii → option (gmap string val).
Variable json_dumps : gmap string Z → list ascii.
Variable int_of_str : string → option Z.
Variable strftime : Z → string.

(** One turn of the loop over the keys, when it ends normally. *)
Lemma check_key_done cv key acc (w : World) acc' w' :
  check_key int_of_str cv key acc w = (Done acc', w') →
  acc' = match key_delta int_of_str cv (previous_control w) key with
         | Some z => (<[key := PyInt z]> acc.1, true)
         | None => acc
         end ∧
  (∀ k, k ≠ key → previous_control w' !! k = previous_control w !! k) ∧
  (∀ z, key_delta int_of_str cv (previous_control w) key = Some z →
        previous_control w' !! key = Some (Some z)) ∧
  w' = set_previous_control (previous_control w') w.
Proof.
  unfold check_key, key_delta. destruct (cv !! key) as [c|].
  2:{ intros [= <- <-]. by rewrite set_previous_control_id. }
  unfold previous, set_previous.
  unfold try_except_only, bind, lift, get, modify, ret, raise.
  destruct (control_value int_of_str c) as [z|e|]; simpl.
  - destruct (previous_control w !! key) as [prev|] eqn:Ep; simpl; [|done].
    case_bool_decide; simpl; intros [= <- <-]; simpl.
    + split; [done|]. split; [by intros; rewrite lookup_insert_ne|].
      split; [|done]. intros z' [= <-]. by rewrite lookup_insert_eq.
    + by rewrite set_previous_control_id.
  - destruct (value_or_type_error e); [|done].
    destruct (previous_control w !! key) as [[p|]|] eqn:Ep; simpl; [| |done];
      intros [= <- <-]; simpl.
    + by rewrite set_previous_control_id.
    + split; [done|]. split; [by intros; rewrite lookup_insert_ne|]. done.
  - done.
Qed.

Lemma key_delta_ext cv (pc pc' : gmap string (option Z)) k :
  pc' !! k = pc !! k → key_delta int_of_str cv pc' k = key_delta int_of_str cv pc k.
Proof. unfold key_delta. by intros ->. Qed.

(** The whole loop, when it ends normally: [command] receives exactly the
    keys that have a delta, [changed] tells whether there is one, and the
    cache now holds what was forwarded. *)
Lemma check_keys_done cv keys :
  NoDup keys → ∀ acc (w : World) acc' w',
  check_keys int_of_str cv keys acc w = (Done acc', w') →
  (∀ k, acc'.1 !! k
        = match (if bool_decide (k ∈ keys)
                 then key_delta int_of_str cv (previous_control w) k else None) with
          | Some z => Some (PyInt z)
          | None => acc.1 !! k
          end) ∧
  (acc'.2 = true ↔
     acc.2 = true ∨
     ∃ k, k ∈ keys ∧ is_Some (key_delta int_of_str cv (previous_control w) k)) ∧
  (∀ k, k ∉ keys → previous_control w' !! k = previous_control w !! k) ∧
  (∀ k z, k ∈ keys → key_delta int_of_str cv (previous_control w) k = Some z →
          previous_control w' !! k = Some (Some z)) ∧
  w' = set_previous_control (previous_control w') w.
Proof.
  induction 1 as [|k0 ks Hk0 Hks IH]; intros acc w acc' w' Hrun.
  { injection Hrun as <- <-. rewrite set_previous_control_id.
    repeat split; try done.
    - by left.
    - intros [?|(k & Hk & _)]; [done | by apply elem_of_nil in Hk].
    - intros k z Hk. by apply elem_of_nil in Hk. }
  simpl in Hrun. apply bind_done_inv in Hrun as (acc1 & w1 & H1 & Hrest).
  apply check_key_done in H1 as (Hacc1 & Hother & Hself & Hw1).
  apply IH in Hrest as (Hl & Hc & Hpc & Hpcs & Hw'). clear IH.
  assert (∀ k, k ≠ k0 →
            key_delta int_of_str cv (previous_control w1) k
            = key_delta int_of_str cv (previous_control w) k) as Hd
    by (intros; by apply key_delta_ext, Hother).
  split; [|split; [|split; [|split]]].
  - intros k. rewrite Hl. destruct (decide (k = k0)) as [->|Hne].
    + rewrite (bool_decide_eq_false_2 _ Hk0).
      rewrite bool_decide_eq_true_2 by (apply elem_of_cons; auto).
      rewrite Hacc1. destruct (key_delta _ _ _ k0); simpl; [|done].
      by rewrite lookup_insert_eq.
    + rewrite (bool_decide_ext (k ∈ k0 :: ks) (k ∈ ks))
        by (rewrite elem_of_cons; split; [by intros [?|?] | auto]).
      rewrite (Hd k Hne).
      destruct (if bool_decide (k ∈ ks) then _ else _); [done|].
      rewrite Hacc1. destruct (key_delta _ _ _ k0); simpl; [|done].
      by rewrite lookup_insert_ne.
  - rewrite Hc, Hacc1. split.
    + intros [Ha|(k & Hk & Hs)].
      * destruct (key_delta _ _ _ k0) eqn:E; simpl in Ha; [|by left].
        right. exists k0. split; [apply elem_of_cons; auto | by rewrite E].
      * right. exists k. split; [apply elem_of_cons; auto|].
        rewrite <- Hd; [done|]. intros ->. done.
    + intros [Ha|(k & Hk & Hs)].
      * left. by destruct (key_delta _ _ _ k0).
      * apply elem_of_cons in Hk as [->|Hk].
        -- left. destruct Hs as [z ->]. done.
        -- right. exists k. split; [done|]. rewrite Hd; [done|]. intros ->. done.
  - intros k Hk. apply not_elem_of_cons in Hk as [Hne Hk].
    rewrite Hpc by done. by apply Hother.
  - intros k z Hk Hz. apply elem_of_cons in Hk as [->|Hk].
    + rewrite Hpc by done. by apply Hself.
    + apply Hpcs; [done|]. rewrite Hd; [done|]. intros ->. done.
  - rewrite Hw', Hw1. by destruct w.
Qed.

Lemma report_keys_keeps {B} (f : World → B) keys : keeps (same f) (report_keys keys).
Proof.
  induction keys as [|k keys IH]; simpl.
  - apply keeps_ret; apply _.
  - unfold report_key, actual_value. repeat first [exact IH | keeps_step].
Qed.

Lemma report_keys_list keys (w : World) l :
  current_status w !! "pumps" = Some (PyList l) → report_keys keys w = (Done tt, w).
Proof.
  intros Hp. induction keys as [|k keys IH]; simpl; [done|].
  assert (∀ i, ∃ v, actual_value i w = (Done v, w)) as Ha.
  { intros i. unfold actual_value, bind, get, lift. simpl. rewrite Hp. simpl.
    destruct (Z.of_nat i <? Z.of_nat (length l)) eqn:E; simpl; [|eauto].
    apply Z.ltb_lt in E. destruct (lookup_lt_is_Some_2 l i ltac:(lia)) as [x Hx].
    rewrite Hx. eauto. }
  unfold report_key.
  destruct (String.eqb k "pump1"); [|destruct (String.eqb k "pump2")].
  - destruct (Ha 0%nat) as [v E]. unfold bind at 1 2. by rewrite E.
  - destruct (Ha 1%nat) as [v E]. unfold bind at 1 2. by rewrite E.
  - unfold bind at 1. simpl. exact IH.
Qed.

(** What follows the send in [forward_command] (lines 635-667). *)
Lemma forward_command_run command (w : World) :
  ∃ result w1,
    send_command_to_arduino json_loads json_dumps command w = (Done result, w1) ∧
    forward_command json_loads json_dumps strftime command w
    = (sleep 500 >>
       report_keys (command_keys command) >>
       let* now := gets (λ w, strftime (clock w)) in
       control_ref_update (confirmation now command)) w1.
Proof.
  destruct (send_returns json_loads json_dumps command w) as (result & w1 & E).
  exists result, w1. split; [done|]. unfold forward_command.
  by rewrite (bind_done _ _ _ _ _ E).
Qed.

Lemma forward_command_cache command :
  keeps (same previous_control)
        (forward_command json_loads json_dumps strftime command).
Proof.
  unfold forward_command, control_ref_update, remote_io.
  pose proof (send_keeps json_loads json_dumps previous_control command) as Hs.
  pose proof (report_keys_keeps previous_control) as Hr.
  repeat first [ apply Hs; first [ by intros | intros; apply deliver_fields ]
               | apply Hr
               | keeps_step | same_leaf ].
Qed.

Lemma forward_command_tx command (w : World) :
  tx (ser (forward_command json_loads json_dumps strftime command w).2)
  = tx (ser (send_command_to_arduino json_loads json_dumps command w).2).
Proof.
  destruct (forward_command_run command w) as (result & w1 & E & ->). rewrite E.
  assert (keeps (same (λ w, tx (ser w)))
            (sleep 500 >>
             report_keys (command_keys command) >>
             let* now := gets (λ w, strftime (clock w)) in
             control_ref_update (confirmation now command))) as H.
  { unfold control_ref_update, remote_io.
    pose proof (report_keys_keeps (λ w, tx (ser w))) as Hr.
    repeat first [ apply Hr | keeps_step | same_leaf ]. }
  apply H.
Qed.

End Reconciler.

(** ** The frame decoder *)

Lemma rfind_at_last c s i :
  0 ≤ i → rfind_at c (s ++ [c]) i = i + Z.of_nat (length s).
Proof.
  revert i. induction s as [|x s IH]; intros i Hi; simpl.
  - rewrite Ascii.eqb_refl. lia.
  - rewrite IH by lia.
    destruct (i + 1 + Z.of_nat (length s) =? -1) eqn:E; [apply Z.eqb_eq in E|]; lia.
Qed.

Lemma has_char_app c s t : has_char c (s ++ t) = has_char c s || has_char c t.
Proof. apply existsb_app. Qed.

Lemma has_char_replicate c d n :
  has_char c (replicate n d) = match n with O => false | S _ => Ascii.eqb c d end.
Proof.
  induction n as [|n IH]; [done|]. unfold has_char in *. simpl. rewrite IH.
  destruct n; [apply orb_false_r | apply orb_diag].
Qed.

Lemma slice_from_last (s : list ascii) c :
  slice_from (s ++ [c]) (Z.of_nat (length s)) = [c].
Proof.
  unfold slice_from, slice_index. rewrite length_app. simpl.
  destruct (Z.of_nat (length s) <? 0) eqn:E; [apply Z.ltb_lt in E; lia|].
  rewrite Z.min_l by lia. rewrite Nat2Z.id. by rewrite drop_app_length.
Qed.

Section Decoder.
Variable json_loads : list ascii → option (gmap string val).

(** Where the bound of C6 does hold: if the buffer holds no closing brace,
    a read that brings only opening braces, more than a hundred of them,
    leaves the buffer with the last opening brace alone. *)
Lemma decoder_recovers_without_close fuel (w : World) n :
  is_open (ser w) = true → serial_fault w (clock w) = false →
  rx (ser w) = replicate (S n) "{"%char → (100 ≤ n)%nat →
  has_char "}" (buffer (decoder w)) = false →
  ∃ w', read_and_upload_data json_loads fuel w = (Done tt, w') ∧
        buffer (decoder w') = ["{"%char].
Proof.
  intros Ho Hf Hrx Hn Hold.
  set (old := buffer (decoder w)) in *.
  set (body := replicate n "{"%char).
  assert (old ++ rx (ser w) = (old ++ body) ++ ["{"%char]) as Hbuf.
  { rewrite Hrx. unfold body. rewrite <- (assoc_L (++)). f_equal.
    change (replicate (S n) "{"%char) with ("{"%char :: replicate n "{"%char).
    clear. induction n as [|m IH]; [done|]. simpl in *. by f_equal. }
  eexists. unfold read_and_upload_data, try_except.
  unfold bind at 1. unfold get at 1. cbv beta iota. rewrite Ho. cbn [negb].
  rewrite (bind_done _ _ _ _ _ (in_waiting_healthy w Hf)).
  replace (Z.of_nat (length (rx (ser w))) =? 0) with false
    by (rewrite Hrx, length_replicate; symmetry; apply Z.eqb_neq; lia).
  rewrite (bind_done _ _ _ _ _ (read_waiting_healthy w Hf)).
  unfold bind at 1. unfold gets at 1. cbv beta iota zeta.
  change (buffer (decoder (set_ser _ w))) with old. rewrite Hbuf.
  unfold bind at 1. unfold set_buffer at 1, modify at 1. cbv beta iota.
  replace (has_char "{" ((old ++ body) ++ ["{"%char])
           && negb (has_char "}" ((old ++ body) ++ ["{"%char]))
           && (100 <? text_len ((old ++ body) ++ ["{"%char]))) with true.
  2:{ symmetry. rewrite !has_char_app, Hold. unfold body.
      rewrite !has_char_replicate. unfold text_len. rewrite !length_app, length_replicate.
      replace (100 <? _) with true by (symmetry; apply Z.ltb_lt; simpl; lia).
      destruct n; by rewrite ?orb_true_r. }
  unfold drop_stalled_frame, rfind. rewrite rfind_at_last by lia.
  rewrite Z.add_0_l, slice_from_last.
  unfold bind, set_buffer, modify. simpl. split; reflexivity.
Qed.

End Decoder.

(** ** The main loop *)

Lemma quiet_ret {S A} (a : A) : quiet (S := S) (ret a).
Proof. by intros s e. Qed.
Lemma quiet_gets {S A} (f : S → A) : quiet (gets f).
Proof. by intros s e. Qed.
Lemma quiet_modify {S} (f : S → S) : quiet (modify f).
Proof. by intros s e. Qed.

Lemma quiet_bind {S A B} (m : M S A) (k : A → M S B) :
  quiet m → (∀ a, quiet (k a)) → quiet (bind m k).
Proof.
  intros Hm Hk s e. unfold bind. specialize (Hm s).
  destruct (m s) as [[a|e'|] s1]; simpl in *;
    [apply Hk | by destruct (Hm e') | done].
Qed.

Lemma quiet_try_except {S A} (m : M S A) h :
  (∀ e, quiet (h e)) → quiet (try_except m h).
Proof.
  intros Hh s e. unfold try_except.
  destruct (m s) as [[a|e'|] s1]; simpl; [done | apply Hh | done].
Qed.

Lemma yields_ret {S A} (Q : A → Prop) (a : A) : Q a → yields (S := S) Q (ret a).
Proof. intros H s a' s' [= <- _]. exact H. Qed.

Lemma yields_bind {S A B} (Q : B → Prop) (m : M S A) (k : A → M S B) :
  (∀ a, yields Q (k a)) → yields Q (bind m k).
Proof.
  intros Hk s b s' E. apply bind_done_inv in E as (a & s1 & _ & E).
  by apply (Hk a s1 b s').
Qed.

Lemma yields_try_except {S A} (Q : A → Prop) (m : M S A) h :
  yields Q m → (∀ e, yields Q (h e)) → yields Q (try_except m h).
Proof.
  intros Hm Hh s a s'. unfold try_except. specialize (Hm s).
  destruct (m s) as [[x|e|] s1]; [|apply Hh|done].
  intros [= <- <-]. by apply (Hm x s1).
Qed.

Ltac yields_auto :=
  repeat first
    [ apply yields_ret
    | apply yields_try_except; [| intros ?]
    | apply yields_bind; intros ?
    | match goal with
      | |- yields _ (if ?b then _ else _) => destruct b
      | |- yields _ (match ?x with _ => _ end) => destruct x
      end ].

Section MainLoop.
Variable json_loads : list ascii → option (gmap string val).
Variable json_dumps : gmap string Z → list ascii.
Variable int_of_str : string → option Z.
Variable strftime : Z → string.
Variable strftime_key : Z → string.

Local Abbreviation turn :=
  (main_iteration json_loads json_dumps int_of_str strftime strftime_key).

(** No exception leaves a turn of the loop, which is why the handler of
    lines 573-575 has no counterpart in the model. *)
Lemma main_iteration_no_raise fuel lp : quiet (turn fuel lp).
Proof.
  unfold main_iteration, check_reset, reset_serial_port, process_serial,
    check_firebase, sleep.
  repeat first
    [ apply quiet_ret | apply quiet_gets | apply quiet_modify
    | apply quiet_try_except; intros ?
    | apply quiet_bind; [| intros ?]
    | match goal with
      | |- quiet (if ?b then _ else _) => destruct b
      | |- quiet (match ?x with _ => _ end) => destruct x
      end ].
Qed.

Lemma process_serial_reset_time fuel t lp :
  yields (λ lp', last_reset_time lp' = last_reset_time lp)
         (process_serial json_loads strftime strftime_key fuel t lp).
Proof.
  unfold process_serial, upload_block, sync_control_values.
  yields_auto; reflexivity.
Qed.

Lemma check_firebase_reset_time t lp :
  yields (λ lp', last_reset_time lp' = last_reset_time lp)
         (check_firebase json_loads json_dumps int_of_str strftime t lp).
Proof. unfold check_firebase. yields_auto; reflexivity. Qed.

Lemma check_reset_result t lp :
  yields (λ lp', lp' = lp ∨ (reset_due t lp = true ∧ last_reset_time lp' = t))
         (check_reset t lp).
Proof.
  unfold check_reset. destruct (reset_due t lp) eqn:E; yields_auto; auto.
Qed.

Lemma reset_due_spec t lp :
  reset_due t lp = true ↔ 100 < serial_errors lp ∧ 60 * 1000 < t - last_reset_time lp.
Proof. unfold reset_due. rewrite andb_true_iff, !Z.ltb_lt. done. Qed.

(** Over one turn the time of the last reset stays, or moves forward by
    more than the cool-down. *)
Lemma main_iteration_reset_time fuel lp :
  yields (λ lp', last_reset_time lp' = last_reset_time lp ∨
                 last_reset_time lp + 60 * 1000 < last_reset_time lp')
         (turn fuel lp).
Proof.
  intros w lp' w' E. unfold main_iteration in E.
  apply bind_done_inv in E as (t & w0 & _ & E).
  apply bind_done_inv in E as (lp1 & w1 & E1 & E).
  apply bind_done_inv in E as (lp2 & w2 & E2 & E).
  apply bind_done_inv in E as (lp3 & w3 & E3 & E).
  apply bind_done_inv in E as ([] & w4 & _ & [= <- _]).
  apply process_serial_reset_time in E2. apply check_firebase_reset_time in E3.
  apply check_reset_result in E1 as [->|[Hdue Ht]]; [left; congruence|].
  right. apply reset_due_spec in Hdue as [_ Hdue]. lia.
Qed.

(** What the reset block does, case by case. *)
Lemma check_reset_run t lp (w : World) :
  (reset_due t lp = false → check_reset t lp w = (Done lp, w)) ∧
  (∀ w', reset_due t lp = true → reset_serial_port w = (Done true, w') →
         check_reset t lp w = (Done (after_reset t lp), w')) ∧
  (∀ w', reset_due t lp = true → reset_serial_port w = (Done false, w') →
         check_reset t lp w = (Done lp, w')).
Proof.
  unfold check_reset. split; [by intros ->|].
  split; intros w' -> E; by rewrite (bind_done _ _ _ _ _ E).
Qed.

(** A turn that resets the port records the time of the turn and starts
    the count of errors anew; a turn that does not leaves the recorded time
    alone. *)
Lemma main_iteration_bookkeeping fuel lp (w : World) lp' w' :
  turn fuel lp w = (Done lp', w') →
  if resets_port lp w
  then last_reset_time lp' = clock w ∧ 0 ≤ serial_errors lp' ≤ 1
  else last_reset_time lp' = last_reset_time lp ∧
       serial_errors lp ≤ serial_errors lp' ≤ serial_errors lp + 1.
Proof.
  intros E. unfold main_iteration in E.
  apply bind_done_inv in E as (t & w0 & [= <- <-] & E).
  apply bind_done_inv in E as (lp1 & w1 & E1 & E).
  apply bind_done_inv in E as (lp2 & w2 & E2 & E).
  apply bind_done_inv in E as (lp3 & w3 & E3 & E).
  apply bind_done_inv in E as ([] & w4 & _ & [= <- _]).
  assert (last_reset_time lp2 = last_reset_time lp1 ∧
          serial_errors lp1 ≤ serial_errors lp2 ≤ serial_errors lp1 + 1) as [Ht2 Hs2].
  { clear E1 E3. revert E2. unfold process_serial, upload_block, sync_control_values.
    generalize lp2 w2. generalize w1.
    match goal with
    | |- ∀ s a s', ?m s = (Done a, s') → ?Q =>
        change (yields (λ a, last_reset_time a = last_reset_time lp1 ∧
                             serial_errors lp1 ≤ serial_errors a
                             ≤ serial_errors lp1 + 1) m)
    end.
    yields_auto; simpl; lia. }
  assert (last_reset_time lp3 = last_reset_time lp2 ∧
          serial_errors lp3 = serial_errors lp2) as [Ht3 Hs3].
  { clear E1 E2. revert E3. unfold check_firebase.
    generalize lp3 w3. generalize w2.
    match goal with
    | |- ∀ s a s', ?m s = (Done a, s') → ?Q =>
        change (yields (λ a, last_reset_time a = last_reset_time lp2 ∧
                             serial_errors a = serial_errors lp2) m)
    end.
    yields_auto; done. }
  unfold resets_port.
  destruct (check_reset_run (clock w) lp w) as (Hno & Hyes & Hfail).
  destruct (reset_due (clock w) lp) eqn:Hdue; cbn [andb].
  - destruct (reset_serial_port w) as [[[|]|e|] wr] eqn:Er; simpl.
    + rewrite (Hyes wr eq_refl eq_refl) in E1. injection E1 as <- <-.
      simpl in *. lia.
    + rewrite (Hfail wr eq_refl eq_refl) in E1. injection E1 as <- <-. lia.
    + unfold check_reset in E1. rewrite Hdue in E1.
      by rewrite (bind_raised _ _ _ _ _ Er) in E1.
    + unfold check_reset, bind in E1. rewrite Hdue, Er in E1. done.
  - rewrite (Hno eq_refl) in E1. injection E1 as <- <-. lia.
Qed.

Lemma reset_log_S fuel n lp (w : World) :
  reset_log json_loads json_dumps int_of_str strftime strftime_key fuel (S n) lp w
  = (if resets_port lp w then [clock w] else []) ++
    match turn fuel lp w with
    | (Done lp', w') =>
        reset_log json_loads json_dumps int_of_str strftime strftime_key fuel n lp' w'
    | _ => []
    end.
Proof. reflexivity. Qed.

Lemma spaced_cons gap t (l : list Z) :
  Forall (λ t', t + gap < t') l → spaced gap l → spaced gap (t :: l).
Proof. destruct l as [|t2 l]; [done|]. intros H Hs. split; [by inversion H | done]. Qed.

(** The resets of a run are more than a minute apart, and the first of them
    comes more than a minute after the time recorded at the start. *)
Lemma reset_log_spaced fuel n :
  ∀ lp (w : World),
  Forall (λ t, last_reset_time lp + 60 * 1000 < t)
         (reset_log json_loads json_dumps int_of_str strftime strftime_key fuel n lp w) ∧
  spaced (60 * 1000)
         (reset_log json_loads json_dumps int_of_str strftime strftime_key fuel n lp w).
Proof.
  induction n as [|n IH]; intros lp w; [split; [constructor | done]|].
  rewrite reset_log_S.
  destruct (turn fuel lp w) as [[lp'|e|] w'] eqn:E.
  2,3: rewrite app_nil_r; destruct (resets_port lp w) eqn:Hr;
       [ unfold resets_port in Hr; apply andb_true_iff in Hr as [Hdue _];
         apply reset_due_spec in Hdue; split; [repeat constructor; lia | done]
       | by split; [constructor|] ].
  pose proof (main_iteration_bookkeeping fuel lp w lp' w' E) as Hb.
  destruct (IH lp' w') as [Hall Hsp].
  destruct (resets_port lp w) eqn:Hr.
  - destruct Hb as [Hb _]. rewrite Hb in Hall.
    unfold resets_port in Hr. apply andb_true_iff in Hr as [Hdue _].
    apply reset_due_spec in Hdue. simpl. split.
    + constructor; [lia|]. eapply Forall_impl; [exact Hall|].
      intros t Ht. simpl in Ht. lia.
    + by apply spaced_cons.
  - destruct Hb as [Hb _]. rewrite Hb in Hall. simpl. by split.
Qed.

End MainLoop.

(** ** Two runs on sample data *)

(** Two frames arriving in one read are both merged, and the buffer is
    empty afterwards. *)
Example decoder_two_frames :
  let w := set_ser (mkSerial true (frame_text "ph" "7" ++ frame_text "servo" "1") [])
                   fresh_world in
  let w' := (read_and_upload_data sample_json_loads 3 w).2 in
  (read_and_upload_data sample_json_loads 3 w).1 = Done tt ∧
  current_status w' = <["ph" := PyInt 7]> (<["servo" := PyInt 1]> initial_status) ∧
  buffer (decoder w') = [].
Proof. repeat split; vm_compute; reflexivity. Qed.

(** A command sent to a silent device: the line is written, the wait for a
    response lasts its two seconds and the call reports success. *)
Example send_to_silent_device :
  let r := send_command_to_arduino sample_json_loads sample_json_dumps
             {["pump1" := PyInt 1]} fresh_world in
  r.1 = Done true ∧
  tx (ser r.2) = sample_json_dumps {["pump1" := 1]} ++ ["010"%char] ∧
  clock r.2 = 2500.
Proof. repeat split; vm_compute; reflexivity. Qed.

(** ** Claims about the command channel *)

Section Channel.
Variable json_loads : list ascii → option (gmap string val).
Variable json_dumps : gmap string Z → list ascii.

(** C4.  A command that holds none of [pump1], [pump2], [servo], [system]
    (the empty command included) is refused: the call returns [False] and
    leaves the serial port, the status and everything else untouched. *)
Theorem send_rejects_unrecognised (command : gmap string val) (w : World) :
  (∀ k, k ∈ actuator_keys → command !! k = None) →
  send_command_to_arduino json_loads json_dumps command w = (Done false, w).
Proof.
  intros H. unfold send_command_to_arduino, try_except, bind, get. simpl.
  destruct (is_open (ser w)); simpl; [|done].
  by rewrite (format_command_empty command H), bool_decide_eq_true_2.
Qed.

End Channel.

Lemma send_rejects_unrecognised_witness :
  send_command_to_arduino sample_json_loads sample_json_dumps
    {["foo" := PyInt 1]} fresh_world = (Done false, fresh_world)
  ∧ send_command_to_arduino sample_json_loads sample_json_dumps ∅ fresh_world
    = (Done false, fresh_world).
Proof.
  split; apply send_rejects_unrecognised; intros k; rewrite list_elem_of_In;
    vm_compute; intros [<-|[<-|[<-|[<-|[]]]]]; reflexivity.
Defined.

(** ** Claims about coercion *)

Section Coercion.
Variable int_of_str : string → option Z.

(** C7 (as amended).  The command channel forces a value to 1 when it is
    truthy and to 0 otherwise.  The reconciler maps [None] to 0 and any other
    value through [int]: 1 when [int(v)] is non-zero, 0 when it is zero, and
    nothing when [int(v)] raises.  The two agree on [None], booleans and
    integers.  Both produce 0 or 1 and are idempotent.  When [int(v)]
    raises, as it does on a list or on a string that is no number, the
    reconciler has no value for [v]; for [ValueError] and [TypeError] the
    key is then skipped: its turn of the loop ends normally with the command
    and the change flag as they were, and the command built by the whole
    loop has no entry for the key. *)
Theorem coercion_laws (v : val) :
  coerce01 v = (if truthy v then 1 else 0) ∧
  (∀ z : Z, coerce01 (PyInt z) = (if decide (z = 0) then 0 else 1)) ∧
  coerce01 (PyInt (coerce01 v)) = coerce01 v ∧
  (∀ z, control_value int_of_str v = Done z →
     (z = 0 ∨ z = 1) ∧
     control_value int_of_str (PyInt z) = Done z ∧
     coerce01 (PyInt z) = z) ∧
  (∀ z, v ≠ PyNone → py_int int_of_str v = Done z →
     control_value int_of_str v = Done (if decide (z = 0) then 0 else 1)) ∧
  (integral v → control_value int_of_str v = Done (coerce01 v)) ∧
  (∀ e, v ≠ PyNone → py_int int_of_str v = Raised e →
     control_value int_of_str v = Raised e) ∧
  (∀ l, control_value int_of_str (PyList l) = Raised TypeError) ∧
  (∀ s, int_of_str s = None →
     control_value int_of_str (PyStr s) = Raised ValueError) ∧
  (∀ e, control_value int_of_str v = Raised e → value_or_type_error e = true →
     ∀ (cv : gmap string val) key, cv !! key = Some v →
       (∀ acc (w : World), is_Some (previous_control w !! key) →
          ∃ w', check_key int_of_str cv key acc w = (Done acc, w') ∧
                tx (ser w') = tx (ser w)) ∧
       (∀ (w : World) command changed w',
          check_keys int_of_str cv actuator_keys (∅, false) w
          = (Done (command, changed), w') →
          command !! key = None)).
Proof.
  split; [reflexivity|]. split.
  { intros z. unfold coerce01. simpl. case_decide; subst; simpl; [done|].
    by rewrite (proj2 (Z.eqb_neq z 0)). }
  split.
  { unfold coerce01. by destruct (truthy v). }
  split.
  { intros z Hz.
    assert (z = 0 ∨ z = 1) as Hz01.
    { unfold control_value in Hz. destruct v; simpl in Hz;
        try (destruct (py_int _ _) as [n| |] eqn:E); simplify_eq;
        try (destruct (_ =? 0); by auto);
        try (destruct b; by auto);
        try (by left).
      - destruct (int_of_float f); simplify_eq. destruct (_ =? 0); auto.
      - destruct (int_of_str s); simplify_eq. destruct (_ =? 0); auto. }
    split; [done|]. by destruct Hz01 as [-> | ->]. }
  split.
  { intros z Hn Hz. unfold control_value. destruct v; try done; rewrite Hz;
      (case_decide; subst; simpl; [done | by rewrite (proj2 (Z.eqb_neq z 0))]). }
  split.
  { destruct v as [| b | z | | |]; simpl; try done; intros _.
    - by destruct b.
    - unfold coerce01. simpl. by destruct (z =? 0). }
  split.
  { intros e Hn He. unfold control_value. destruct v; try done; by rewrite He. }
  split; [done|]. split.
  { intros s Hs. unfold control_value. simpl. by rewrite Hs. }
  intros e He Hve cv key Hcv. split.
  - intros acc w [prev Hprev]. unfold check_key. rewrite Hcv.
    unfold previous, set_previous, try_except_only, bind, lift, get, modify, ret, raise.
    rewrite He. simpl. rewrite Hve, Hprev.
    destruct prev as [p|]; eexists; (split; [reflexivity | done]).
  - intros w command changed w' Hrun.
    pose proof (check_keys_done int_of_str cv actuator_keys
                  ltac:(by apply (bool_decide_unpack _)) _ _ _ _ Hrun)
      as (Hl & _). simpl in Hl. rewrite Hl, lookup_empty.
    replace (key_delta int_of_str cv (previous_control w) key) with (@None Z)
      by (unfold key_delta; by rewrite Hcv, He).
    by destruct (bool_decide _).
Qed.

End Coercion.

Lemma coercion_laws_witness :
  control_value sample_int_of_str (PyStr "7") = Done 1 ∧
  control_value sample_int_of_str (PyBool true) = Done (coerce01 (PyBool true)) ∧
  control_value sample_int_of_str (PyStr "on") = Raised ValueError ∧
  (∃ w', check_key sample_int_of_str {["pump1" := PyStr "on"]} "pump1" (∅, false)
           fresh_world = (Done (∅, false), w') ∧ tx (ser w') = []).
Proof.
  pose proof (coercion_laws sample_int_of_str (PyStr "7")) as (_ & _ & _ & _ & H5 & _).
  pose proof (coercion_laws sample_int_of_str (PyBool true))
    as (_ & _ & _ & _ & _ & H6 & _).
  pose proof (coercion_laws sample_int_of_str (PyStr "on"))
    as (_ & _ & _ & _ & _ & _ & H7 & _ & _ & H10).
  split; [|split; [|split]].
  - apply (H5 7); [discriminate | reflexivity].
  - apply H6. exact I.
  - apply (H7 ValueError); [discriminate | reflexivity].
  - destruct (H10 ValueError eq_refl eq_refl
                ({["pump1" := PyStr "on"]} : gmap string val) "pump1") as [Hk _];
      [reflexivity|].
    apply Hk. by eexists.
Defined.

(** C7 as stated fails for the reconciler: 0.5 is truthy and non-zero, and
    the reconciler turns it into 0; a non-numeric string is truthy and gets
    no value at all.  So the reconciler's coercion is not "1 if truthy, else
    0" on every value. *)
Lemma reconciler_coercion_is_not_truthiness :
  (truthy (PyFloat float_0_5) = true ∧
   coerce01 (PyFloat float_0_5) = 1 ∧
   control_value sample_int_of_str (PyFloat float_0_5) = Done 0 ∧
   truthy (PyStr "on") = true ∧
   control_value sample_int_of_str (PyStr "on") = Raised ValueError) ∧
  ¬ (∀ v, control_value sample_int_of_str v = Done (if truthy v then 1 else 0)).
Proof.
  split; [repeat split; reflexivity|].
  intros H. specialize (H (PyFloat float_0_5)). discriminate H.
Qed.

(** ** Claims about the frame decoder *)

Section DecoderClaims.
Variable json_loads : list ascii → option (gmap string val).

(** C6, at the input where it fails.  A lone closing brace read earlier
    stays in the buffer; when 10,000 opening braces follow, the search for a
    closing brace after the first opening one finds nothing, the frame cut
    out is empty, the buffer is left whole and the loop of line 337 starts
    over on the same buffer: the call never returns, and the buffer keeps
    its 10,001 characters. *)
Theorem decoder_stalls_after_stray_close :
  (∀ fuel, read_and_upload_data json_loads (S fuel) stray_close_world
           = (Done tt, after_stray_close)) ∧
  decode_step json_loads stalled_world = (Done false, stalled_world) ∧
  (∀ fuel, read_and_upload_data json_loads fuel (flood_world after_stray_close)
           = (OutOfFuel, stalled_world)) ∧
  length (buffer (decoder stalled_world)) = S flood_size.
Proof.
  assert (decode_step json_loads stalled_world = (Done false, stalled_world)) as Hstep
    by (vm_compute; reflexivity).
  split; [|split; [exact Hstep|split]].
  - intros fuel. vm_compute. reflexivity.
  - intros fuel.
    assert (∀ n, decode_loop json_loads n stalled_world = (OutOfFuel, stalled_world))
      as Hloop.
    { induction n as [|n IH]; [reflexivity|].
      simpl. unfold bind at 1. unfold gets.
      replace (has_char "{" (buffer (decoder stalled_world))
               && has_char "}" (buffer (decoder stalled_world)))
        with true by (vm_compute; reflexivity).
      by rewrite (bind_done _ _ _ _ _ Hstep). }
    unfold read_and_upload_data, try_except.
    assert (∀ k : M World unit,
              (let* w := get in
               if negb (is_open (ser w)) then raise PortNotOpen
               else
                 let* n := in_waiting in
                 if n =? 0 then ret tt
                 else
                   let* raw_data := read_waiting in
                   let* old := gets (λ w, buffer (decoder w)) in
                   let buf := old ++ raw_data in
                   set_buffer buf >>
                   if has_char "{" buf && negb (has_char "}" buf) && (100 <? text_len buf)
                   then drop_stalled_frame buf
                   else k) (flood_world after_stray_close)
              = k stalled_world) as Hprefix by (intros k; vm_compute; reflexivity).
    rewrite Hprefix. unfold bind at 1. by rewrite Hloop.
  - vm_compute. reflexivity.
Qed.

End DecoderClaims.

(** ** Claims about the main loop *)

Section MainLoopClaims.
Variable json_loads : list ascii → option (gmap string val).
Variable json_dumps : gmap string Z → list ascii.
Variable int_of_str : string → option Z.
Variable strftime : Z → string.
Variable strftime_key : Z → string.

(** C8.  The serial port is reset in a turn of the main loop only if the
    error counter is above 100 and more than 60 s (so at least 60 s) have
    passed since the last reset; otherwise the turn goes straight to the
    serial data and the reset block leaves everything alone.  Whatever the
    counter says (150 errors, say), within 60 s of a reset nothing is due,
    and over any number of turns the recorded time of the last reset either
    stays or advances by more than 60 s.  The recorded time is that of the
    last reset: a turn that resets the port sets it to the time of the turn
    and the counter to 0, a turn that does not (nothing due, or a reset
    that failed) leaves it alone.  So the resets of any run are more than
    60 s apart, and the first comes more than 60 s after the time recorded
    at the start. *)
Theorem reset_cooldown :
  (∀ t lp, reset_due t lp = true →
     100 < serial_errors lp ∧ 60 * 1000 ≤ t - last_reset_time lp) ∧
  (∀ t lp, reset_due t lp = true ↔
     100 < serial_errors lp ∧ 60 * 1000 < t - last_reset_time lp) ∧
  (∀ fuel lp (w : World), reset_due (clock w) lp = false →
     main_iteration json_loads json_dumps int_of_str strftime strftime_key fuel lp w
     = (let* lp2 := process_serial json_loads strftime strftime_key fuel (clock w) lp in
        let* lp3 := check_firebase json_loads json_dumps int_of_str strftime
                      (clock w) lp2 in
        sleep 50 >> ret lp3) w) ∧
  (∀ t lp, t - last_reset_time lp ≤ 60 * 1000 → reset_due t lp = false) ∧
  (∀ t0 t f u c, t - t0 ≤ 10 * 1000 → reset_due t (mkLoop 150 t0 f u c) = false) ∧
  (∀ fuel n lp (w : World) lp' w',
     main_loop json_loads json_dumps int_of_str strftime strftime_key fuel n lp w
     = (Done lp', w') →
     last_reset_time lp' = last_reset_time lp ∨
     last_reset_time lp + 60 * 1000 < last_reset_time lp') ∧
  (∀ t lp (w : World),
     (reset_due t lp = false → check_reset t lp w = (Done lp, w)) ∧
     (∀ w', reset_due t lp = true → reset_serial_port w = (Done true, w') →
            check_reset t lp w = (Done (after_reset t lp), w')) ∧
     (∀ w', reset_due t lp = true → reset_serial_port w = (Done false, w') →
            check_reset t lp w = (Done lp, w'))) ∧
  (∀ fuel lp (w : World) lp' w',
     main_iteration json_loads json_dumps int_of_str strftime strftime_key fuel lp w
     = (Done lp', w') →
     if resets_port lp w
     then last_reset_time lp' = clock w ∧ 0 ≤ serial_errors lp' ≤ 1
     else last_reset_time lp' = last_reset_time lp ∧
          serial_errors lp ≤ serial_errors lp' ≤ serial_errors lp + 1) ∧
  (∀ fuel n lp (w : World),
     let log := reset_log json_loads json_dumps int_of_str strftime strftime_key
                  fuel n lp w in
     Forall (λ t, last_reset_time lp + 60 * 1000 < t) log ∧
     spaced (60 * 1000) log).
Proof.
  assert (∀ t lp, t - last_reset_time lp ≤ 60 * 1000 → reset_due t lp = false) as Hcool.
  { intros t lp H. unfold reset_due.
    replace (60 * 1000 <? t - last_reset_time lp) with false
      by (symmetry; apply Z.ltb_ge; lia).
    apply andb_false_r. }
  split; [|split; [exact reset_due_spec|split; [|split; [exact Hcool|split;
    [|split; [|split; [|split]]]]]]].
  - intros t lp H. apply reset_due_spec in H. lia.
  - intros fuel lp w H. unfold main_iteration, check_reset.
    unfold bind at 1. unfold gets at 1. cbv beta iota. by rewrite H.
  - intros t0 t f u c H. apply Hcool. simpl. lia.
  - intros fuel n. induction n as [|n IH]; intros lp w lp' w' E.
    + injection E as <- _. by left.
    + simpl in E. apply bind_done_inv in E as (lp1 & w1 & E1 & E).
      apply main_iteration_reset_time in E1. apply IH in E. lia.
  - intros t lp w. apply check_reset_run.
  - intros fuel lp w lp' w' E.
    by apply (main_iteration_bookkeeping json_loads json_dumps int_of_str strftime
                strftime_key fuel lp w lp' w').
  - intros fuel n lp w. apply reset_log_spaced.
Qed.

End MainLoopClaims.

Lemma reset_cooldown_witness :
  reset_due 70000 (mkLoop 150 60000 0 0 0) = false ∧
  (100 < serial_errors (mkLoop 101 0 0 0 0) ∧
   60 * 1000 ≤ 60001 - last_reset_time (mkLoop 101 0 0 0 0)) ∧
  (∃ w', check_reset 60001 (mkLoop 101 0 0 0 0) fresh_world
         = (Done (mkLoop 0 60001 0 0 0), w') ∧ clock w' = 3000).
Proof.
  pose proof (reset_cooldown sample_json_loads sample_json_dumps sample_int_of_str
                sample_strftime sample_strftime_key)
    as (H1 & _ & _ & _ & H4 & _ & H7 & _).
  split; [|split].
  - apply H4. lia.
  - apply H1. reflexivity.
  - destruct (H7 60001 (mkLoop 101 0 0 0 0) fresh_world) as (_ & Hyes & _).
    eexists. split; [apply Hyes; reflexivity | reflexivity].
Defined.

(** ** Claims about the reconciler *)

Section ReconcilerClaims.
Variable json_loads : list ascii → option (gmap string val).
Variable json_dumps : gmap string Z → list ascii.
Variable int_of_str : string → option Z.
Variable strftime : Z → string.

(** C2.  With every actuator last forwarded as 0 and a control document
    [{pump1: 1, pump2: 0, servo: 0, system: 0}], the command handed to the
    command channel is [{pump1: 1}] and nothing else, and on a working port
    that one command is what is written.  In general the command built by
    the loop holds exactly the keys whose coerced value is not the cached
    one, and the command channel is called only if there is such a key. *)
Theorem delta_only_forwarding :
  (∀ w : World, previous_control w = all_off →
     let cv : gmap string val :=
       <["pump1" := PyInt 1]> (<["pump2" := PyInt 0]> (<["servo" := PyInt 0]>
       (<["system" := PyInt 0]> ∅))) in
     let w' := set_previous_control (<["pump1" := Some 1]> all_off) w in
     process_control_values json_loads json_dumps int_of_str strftime cv w
     = forward_command json_loads json_dumps strftime {["pump1" := PyInt 1]} w' ∧
     (is_open (ser w) = true → serial_fault w (clock w) = false →
      tx (ser (process_control_values json_loads json_dumps int_of_str strftime cv w).2)
      = tx (ser w) ++ json_dumps {["pump1" := 1]} ++ ["010"%char])) ∧
  (∀ (cv : gmap string val) (w : World) command changed w',
     check_keys int_of_str cv actuator_keys (∅, false) w = (Done (command, changed), w') →
     (∀ k, command !! k
           = PyInt <$> (if bool_decide (k ∈ actuator_keys)
                        then key_delta int_of_str cv (previous_control w) k
                        else None)) ∧
     (changed = true ↔ command ≠ ∅) ∧
     process_control_values json_loads json_dumps int_of_str strftime cv w
     = if changed
       then forward_command json_loads json_dumps strftime command w'
       else (Done tt, w')).
Proof.
  split.
  - intros w Hpc cv w'.
    assert (check_keys int_of_str cv actuator_keys (∅, false) w
            = (Done ({["pump1" := PyInt 1]}, true), w')) as E.
    { unfold w'. destruct w; simpl in Hpc; subst. reflexivity. }
    assert (process_control_values json_loads json_dumps int_of_str strftime cv w
            = forward_command json_loads json_dumps strftime {["pump1" := PyInt 1]} w')
      as Ep.
    { unfold process_control_values. by rewrite (bind_done _ _ _ _ _ E). }
    split; [exact Ep|]. intros Ho Hf. rewrite Ep, forward_command_tx.
    rewrite send_writes; [reflexivity | done | done |].
    by apply (format_command_nonempty _ "pump1" (PyInt 1));
      [rewrite list_elem_of_In; vm_compute; tauto|].
  - intros cv w command changed w' E.
    pose proof (check_keys_done int_of_str cv actuator_keys
                  ltac:(by apply (bool_decide_unpack _)) _ _ _ _ E)
      as (Hl & Hc & _ & _ & _). simpl in Hl, Hc.
    assert (∀ k, command !! k
                 = PyInt <$> (if bool_decide (k ∈ actuator_keys)
                              then key_delta int_of_str cv (previous_control w) k
                              else None)) as Hl'.
    { intros k. rewrite Hl, lookup_empty. by destruct (if bool_decide _ then _ else _). }
    split; [exact Hl'|]. split.
    + rewrite Hc. split.
      * intros [?|(k & Hk & z & Hz)]; [done|]. intros ->.
        specialize (Hl' k). rewrite lookup_empty, bool_decide_eq_true_2, Hz in Hl'; done.
      * intros Hne. right. destruct (map_choose _ Hne) as (k & v & Hkv).
        rewrite Hl' in Hkv. exists k. case_bool_decide; [|done].
        split; [done|]. by destruct (key_delta _ _ _ k).
    + unfold process_control_values. rewrite (bind_done _ _ _ _ _ E).
      by destruct changed.
Qed.

(** C3.  On the first cycle, with the cache unset for every key, a control
    document [{pump1: 0}] makes the reconciler forward [{pump1: 0}]; the
    cache then holds 0 for [pump1], and the same document processed again
    forwards nothing and changes nothing.  More generally an unset entry
    differs from every coerced value, so the first value seen for a key is
    always forwarded. *)
Theorem unset_triggers_first_send (w : World) :
  previous_control w = unset_control →
  let cv : gmap string val := {["pump1" := PyInt 0]} in
  let run := process_control_values json_loads json_dumps int_of_str strftime cv in
  run w = forward_command json_loads json_dumps strftime {["pump1" := PyInt 0]}
            (set_previous_control (<["pump1" := Some 0]> unset_control) w) ∧
  (is_open (ser w) = true → serial_fault w (clock w) = false →
   tx (ser (run w).2) = tx (ser w) ++ json_dumps {["pump1" := 0]} ++ ["010"%char]) ∧
  previous_control (run w).2 !! "pump1" = Some (Some 0) ∧
  run (run w).2 = (Done tt, (run w).2) ∧
  (∀ (doc : gmap string val) k v z,
     k ∈ actuator_keys → doc !! k = Some v → control_value int_of_str v = Done z →
     key_delta int_of_str doc unset_control k = Some z).
Proof.
  intros Hpc cv run.
  set (w' := set_previous_control (<["pump1" := Some 0]> unset_control) w).
  assert (run w = forward_command json_loads json_dumps strftime
                    {["pump1" := PyInt 0]} w') as Ep.
  { assert (check_keys int_of_str cv actuator_keys (∅, false) w
            = (Done ({["pump1" := PyInt 0]}, true), w')) as E.
    { unfold w'. destruct w; simpl in Hpc; subst. reflexivity. }
    unfold run, process_control_values. by rewrite (bind_done _ _ _ _ _ E). }
  assert (previous_control (run w).2 = <["pump1" := Some 0]> unset_control) as Hc.
  { rewrite Ep. apply (forward_command_cache json_loads json_dumps strftime _ w'). }
  split; [exact Ep|]. split; [|split; [|split]].
  - intros Ho Hf. rewrite Ep, forward_command_tx.
    rewrite send_writes; [reflexivity | done | done |].
    by apply (format_command_nonempty _ "pump1" (PyInt 0));
      [rewrite list_elem_of_In; vm_compute; tauto|].
  - by rewrite Hc.
  - assert (check_keys int_of_str cv actuator_keys (∅, false) (run w).2
            = (Done (∅, false), (run w).2)) as E.
    { destruct (run w).2; simpl in Hc; subst. reflexivity. }
    unfold run at 1, process_control_values. by rewrite (bind_done _ _ _ _ _ E).
  - intros doc k v z Hk Hv Hz. unfold key_delta. rewrite Hv, Hz.
    rewrite list_elem_of_In in Hk. simpl in Hk.
    destruct Hk as [<-|[<-|[<-|[<-|[]]]]]; reflexivity.
Qed.

(** C1 (as amended).  The call to the command channel always returns, with
    [True] or with [False], and its result is not consulted: once the pause
    is over and the status report has been built, the control document
    receives [last_updated] and the commanded values in either case, as long
    as the database accepts the update. *)
Theorem write_back_after_any_send (command : gmap string val) (w : World) :
  ∃ result w1,
    send_command_to_arduino json_loads json_dumps command w = (Done result, w1) ∧
    let w2 := deliver (set_clock (clock w1 + 500) w1) in
    (report_keys (command_keys command) w2 = (Done tt, w2) →
     remote_fault w2 (clock w2) = false →
     forward_command json_loads json_dumps strftime command w
     = (Done tt,
        set_remote (mkRemote (confirmation (strftime (clock w2)) command
                                ∪ control_doc (remote w2))
                             (sensor_data (remote w2))) w2)).
Proof.
  destruct (forward_command_run json_loads json_dumps strftime command w)
    as (result & w1 & E & Ef).
  exists result, w1. split; [exact E|]. cbv zeta. rewrite Ef.
  assert (sleep 500 w1 = (Done tt, deliver (set_clock (clock w1 + 500) w1))) as Es
    by reflexivity.
  rewrite (bind_done _ _ _ _ _ Es).
  generalize (deliver (set_clock (clock w1 + 500) w1)). intros w2 Hr Hf.
  rewrite (bind_done _ _ _ _ _ Hr).
  unfold control_ref_update, remote_io, bind, gets, get, modify. simpl.
  by rewrite Hf.
Qed.

End ReconcilerClaims.

Lemma delta_only_forwarding_witness :
  let w := set_previous_control all_off fresh_world in
  tx (ser (process_control_values sample_json_loads sample_json_dumps
             sample_int_of_str sample_strftime
             (<["pump1" := PyInt 1]> (<["pump2" := PyInt 0]> (<["servo" := PyInt 0]>
              (<["system" := PyInt 0]> ∅)))) w).2)
  = tx (ser w) ++ sample_json_dumps {["pump1" := 1]} ++ ["010"%char].
Proof.
  intros w.
  apply (proj1 (delta_only_forwarding sample_json_loads sample_json_dumps
                  sample_int_of_str sample_strftime) w); reflexivity.
Defined.

Lemma unset_triggers_first_send_witness :
  previous_control
    (process_control_values sample_json_loads sample_json_dumps sample_int_of_str
       sample_strftime {["pump1" := PyInt 0]} fresh_world).2 !! "pump1"
  = Some (Some 0).
Proof.
  apply (unset_triggers_first_send sample_json_loads sample_json_dumps
           sample_int_of_str sample_strftime fresh_world).
  reflexivity.
Defined.

Lemma write_back_after_any_send_witness :
  ∃ result w1,
    send_command_to_arduino sample_json_loads sample_json_dumps
      {["pump1" := PyInt 1]} closed_port_world = (Done result, w1) ∧
    forward_command sample_json_loads sample_json_dumps sample_strftime
      {["pump1" := PyInt 1]} closed_port_world
    = (Done tt,
       set_remote
         (mkRemote (confirmation (sample_strftime (clock w1 + 500)) {["pump1" := PyInt 1]}
                      ∪ control_doc (remote w1))
                   (sensor_data (remote w1)))
         (deliver (set_clock (clock w1 + 500) w1))).
Proof.
  destruct (write_back_after_any_send sample_json_loads sample_json_dumps
              sample_strftime {["pump1" := PyInt 1]} closed_port_world)
    as (result & w1 & E & H).
  exists result, w1. split; [exact E|].
  assert (send_command_to_arduino sample_json_loads sample_json_dumps
            {["pump1" := PyInt 1]} closed_port_world
          = (Done false, closed_port_world)) as E' by reflexivity.
  assert (w1 = closed_port_world) as -> by congruence.
  apply H; reflexivity.
Defined.

(** C1 as stated fails: with the port closed the send returns [False], and
    the cycle still writes [last_updated] and [pump1] to the control
    document.  So it is not true that a failed send leaves the control
    document as it was. *)
Lemma write_back_despite_failed_send :
  let cv : gmap string val := {["pump1" := PyInt 1]} in
  let w' := set_previous_control (<["pump1" := Some 1]> unset_control) closed_port_world in
  let run := process_control_values sample_json_loads sample_json_dumps
               sample_int_of_str sample_strftime in
  (check_keys sample_int_of_str cv actuator_keys (∅, false) closed_port_world
   = (Done ({["pump1" := PyInt 1]}, true), w') ∧
   send_command_to_arduino sample_json_loads sample_json_dumps {["pump1" := PyInt 1]} w'
   = (Done false, w') ∧
   control_doc (remote closed_port_world) = ∅ ∧
   control_doc (remote (run cv closed_port_world).2)
   = <["pump1" := PyInt 1]> {["last_updated" := PyStr (sample_strftime 500)]}) ∧
  ¬ (∀ (doc : gmap string val) (w w1 : World) command,
       check_keys sample_int_of_str doc actuator_keys (∅, false) w
       = (Done (command, true), w1) →
       (send_command_to_arduino sample_json_loads sample_json_dumps command w1).1
       = Done false →
       control_doc (remote (run doc w).2) = control_doc (remote w)).
Proof.
  intros cv w' run.
  assert (check_keys sample_int_of_str cv actuator_keys (∅, false) closed_port_world
          = (Done ({["pump1" := PyInt 1]}, true), w')) as Hk by reflexivity.
  assert (send_command_to_arduino sample_json_loads sample_json_dumps
            {["pump1" := PyInt 1]} w' = (Done false, w')) as Hs by reflexivity.
  assert (control_doc (remote (run cv closed_port_world).2)
          = <["pump1" := PyInt 1]> {["last_updated" := PyStr (sample_strftime 500)]})
    as Hd by (vm_compute; reflexivity).
  split; [by repeat split|].
  intros H. specialize (H cv closed_port_world w' _ Hk).
  rewrite Hs in H. specialize (H eq_refl). rewrite Hd in H.
  apply (f_equal (λ m, m !! "pump1")) in H. simpl in H.
  rewrite lookup_insert_eq in H. discriminate H.
Qed.

(** ** Claims about the status store *)

(** C5.  A frame holding only [ph] sets the [ph] field and leaves every other
    field of the status as it was; in general a status field changes only if
    one of the frame keys that feed it is present, and two frames that agree
    on the recognised keys have the same effect (other keys are ignored). *)
Theorem update_status_partial :
  (∀ (st : gmap string val) (v : val),
     update_status {["ph" := v]} st = (Done tt, <["ph" := v]> st)) ∧
  (∀ (st : gmap string val) (v : val) (k : string),
     k ≠ "ph" → (update_status {["ph" := v]} st).2 !! k = st !! k) ∧
  (∀ (data st : gmap string val) (k : string),
     (∀ k', k' ∈ field_sources k → data !! k' = None) →
     (update_status data st).2 !! k = st !! k) ∧
  (∀ (data data' st : gmap string val),
     (∀ k, k ∈ frame_keys → data !! k = data' !! k) →
     update_status data st = update_status data' st).
Proof.
  split; [|split; [|split]].
  - reflexivity.
  - intros st v k Hk. change (update_status _ st) with (Done tt, <["ph" := v]> st).
    simpl. by rewrite lookup_insert_ne.
  - intros data st k H. exact (update_status_same k data H st).
  - intros data data' st H. unfold update_status, copy_key, set_pump.
    rewrite !H by (rewrite list_elem_of_In; vm_compute; tauto). reflexivity.
Qed.

Lemma update_status_partial_witness :
  (update_status {["ph" := PyFloat float_7_1]} initial_status).2 !! "tds"
  = initial_status !! "tds"
  ∧ (update_status (<["foo" := PyInt 1]> {["servo" := PyInt 1]}) initial_status).2 !! "pumps"
    = initial_status !! "pumps".
Proof.
  split.
  - apply (proj1 (proj2 update_status_partial)). done.
  - apply (proj1 (proj2 (proj2 update_status_partial))).
    intros k'. rewrite list_elem_of_In. vm_compute.
    intros [<-|[<-|[<-|[]]]]; reflexivity.
Defined.

(** C9.  When a frame carries a [pumps] array, the array is stored first and
    the individual [pump1] / [pump2] fields are written over its slots 0 and
    1 afterwards, forced to 0 or 1; so the individual fields win, and an
    array that comes alone is stored as given.  (The array has to have the
    slot that an individual field writes.) *)
Theorem pumps_array_then_individual (data st : gmap string val) (l : list val) :
  data !! "pumps" = Some (PyList l) →
  (is_Some (data !! "pump1") → (1 ≤ length l)%nat) →
  (is_Some (data !! "pump2") → (2 ≤ length l)%nat) →
  (update_status data st).1 = Done tt ∧
  (update_status data st).2 !! "pumps" = Some (PyList (override_slots data l)) ∧
  (∀ v1 v2, data !! "pump1" = Some v1 → data !! "pump2" = Some v2 →
     (update_status data st).2 !! "pumps"
     = Some (PyList (PyInt (coerce01 v1) :: PyInt (coerce01 v2) :: drop 2 l))) ∧
  (data !! "pump1" = None → data !! "pump2" = None →
     (update_status data st).2 !! "pumps" = Some (PyList l)).
Proof.
  intros Hp Hl1 Hl2.
  destruct (update_status_pumps_array data st l Hp Hl1 Hl2) as [H1 H2].
  split; [done|]. split; [done|]. split.
  - intros v1 v2 E1 E2. rewrite H2. unfold override_slots. rewrite E1, E2.
    specialize (Hl2 ltac:(eauto)).
    destruct l as [|a [|b l']]; simpl in *; try lia. reflexivity.
  - intros E1 E2. rewrite H2. unfold override_slots. by rewrite E1, E2.
Qed.

Lemma pumps_array_then_individual_witness :
  (update_status (<["pumps" := PyList [PyInt 1; PyInt 1]]>
                    (<["pump1" := PyInt 0]> {["pump2" := PyInt 7]}))
                 initial_status).2 !! "pumps"
  = Some (PyList [PyInt 0; PyInt 1]).
Proof.
  refine (proj1 (proj2 (proj2
    (pumps_array_then_individual _ initial_status [PyInt 1; PyInt 1] _ _ _)))
    (PyInt 0) (PyInt 7) _ _); first [reflexivity | intros _; simpl; lia].
Defined.

Section StatusReaders.
Variable strftime : Z → string.
Variable strftime_key : Z → string.

(** C10 (as amended).  [update_status] stores an incoming [pumps] value as it
    comes.  Once the stored value is neither a list nor a string with two
    elements or more, the status display of the upload block and the
    dictionary built for the mirror both raise, and the upload block ends in
    an exception without having written the control document. *)
Theorem malformed_pumps_break_readers (w : World) (v : val) :
  current_status w !! "pumps" = Some v → lacks_two_slots v →
  (∀ st : gmap string val,
     update_status {["pumps" := v]} st = (Done tt, <["pumps" := v]> st)) ∧
  (∃ e, display_states w = (Raised e, w)) ∧
  (∃ e, control_updates strftime w = (Raised e, w)) ∧
  (∀ t lp, ∃ e w',
     upload_block strftime strftime_key t lp w = (Raised e, w') ∧
     control_doc (remote w') = control_doc (remote w)).
Proof.
  intros Hv Hl. split; [reflexivity|].
  assert (∀ w', current_status w' !! "pumps" = Some v →
                ∃ e, display_states w' = (Raised e, w')) as Hd.
  { intros w' Hv'. unfold display_states.
    apply (lacks_two_slots_reader w' v (λ _ _, _ >> _ >> ret tt) Hv' Hl). }
  split; [by apply Hd|]. split.
  - unfold control_updates. apply (lacks_two_slots_reader w v _ Hv Hl).
  - intros t lp. unfold upload_block.
    destruct (upload_sensor_data_run strftime_key w) as [E|[records E]].
    + exists FirebaseError, w. split; [by apply bind_raised | done].
    + erewrite bind_done by exact E.
      set (w1 := set_remote _ w).
      assert (current_status w1 !! "pumps" = Some v) as Hv1 by done.
      destruct (Hd w1 Hv1) as [e He].
      exists e, w1. split; [by apply bind_raised | done].
Qed.

End StatusReaders.

Lemma malformed_pumps_break_readers_witness :
  ∃ e, display_states (set_status (<["pumps" := PyInt 5]> initial_status) fresh_world)
       = (Raised e, set_status (<["pumps" := PyInt 5]> initial_status) fresh_world).
Proof.
  refine (proj1 (proj2 (malformed_pumps_break_readers sample_strftime
            sample_strftime_key _ (PyInt 5) _ _))).
  - reflexivity.
  - simpl. exact I.
Defined.

(** C10 as stated fails on strings: a [pumps] value that is a string of two
    characters is not a list, and yet both readers index it without error.
    So it is not true that every value other than a list of two elements or
    more makes the display raise. *)
Lemma string_pumps_are_indexed :
  let w := set_status (update_status {["pumps" := PyStr "ab"]} initial_status).2
                      fresh_world in
  ((∀ l, PyStr "ab" ≠ PyList l) ∧
   current_status w !! "pumps" = Some (PyStr "ab") ∧
   display_states w = (Done tt, w) ∧
   ∃ u, control_updates sample_strftime w = (Done u, w) ∧
        u !! "pump1" = Some (PyStr "a") ∧ u !! "pump2" = Some (PyStr "b")) ∧
  ¬ (∀ (w : World) v,
       (∀ l, v = PyList l → (length l < 2)%nat) →
       current_status w !! "pumps" = Some v →
       ∃ e, (display_states w).1 = Raised e).
Proof.
  intros w. split.
  - split; [done|]. split; [reflexivity|]. split; [reflexivity|].
    eexists. split; [reflexivity|]. split; reflexivity.
  - intros H. destruct (H w (PyStr "ab")) as [e He]; [done | reflexivity |].
    discriminate He.
Qed.

(** * Further properties *)

(** ** Start-up *)

Section StartupProperties.
Variable strftime : Z → string.

(** X1.  When the database answers, [initialize_control_values] ends
    normally and leaves a control document in which each of the four
    actuator keys keeps the value it had, or is 0 if it was missing,
    [last_updated] is the current time, every other key is as before, and
    nothing but the control document has changed. *)
Theorem initialize_control_values_fills_missing (w : World) :
  remote_fault w (clock w) = false →
  ∃ doc',
    initialize_control_values strftime w
    = (Done tt, set_remote (mkRemote doc' (sensor_data (remote w))) w) ∧
    (∀ k, k ∈ actuator_keys →
          doc' !! k = Some (default (PyInt 0) (control_doc (remote w) !! k))) ∧
    doc' !! "last_updated" = Some (PyStr (strftime (clock w))) ∧
    (∀ k, k ∉ actuator_keys → k ≠ "last_updated" →
          doc' !! k = control_doc (remote w) !! k).
Proof.
  intros Hf. set (doc := control_doc (remote w)).
  set (now := strftime (clock w)).
  assert (∀ d (w0 : World), remote_fault w0 (clock w0) = false →
            control_ref_update d w0
            = (Done tt, set_remote (mkRemote (d ∪ control_doc (remote w0))
                                             (sensor_data (remote w0))) w0)) as Hup.
  { intros d w0 H0. unfold control_ref_update, remote_io, bind, get, modify. simpl.
    by rewrite H0. }
  assert (∀ k, k ∈ actuator_keys → default_values now !! k = Some (PyInt 0)) as Hdef.
  { intros k Hk. rewrite list_elem_of_In in Hk. simpl in Hk.
    destruct Hk as [<-|[<-|[<-|[<-|[]]]]]; reflexivity. }
  assert (∀ k, k ∉ actuator_keys → k ≠ "last_updated" → default_values now !! k = None)
    as Hdef'.
  { intros k Hk Hl. unfold default_values.
    rewrite !lookup_insert_ne, lookup_empty; [done|congruence|..];
      intros <-; apply Hk; rewrite list_elem_of_In; simpl; tauto. }
  unfold initialize_control_values.
  unfold bind at 1. unfold gets at 1. cbv beta iota zeta. fold now.
  assert (control_ref_get w = (Done doc, w)) as Eg.
  { unfold control_ref_get, remote_io, bind, get, gets. simpl. by rewrite Hf. }
  rewrite (bind_done _ _ _ _ _ Eg).
  set (mid := if bool_decide (doc = ∅) then default_values now
              else filter (λ kv, doc !! kv.1 = None) (default_values now) ∪ doc).
  assert ((if bool_decide (doc = ∅) then control_ref_set (default_values now)
           else if bool_decide (filter (λ kv, doc !! kv.1 = None) (default_values now) = ∅)
                then ret tt
                else control_ref_update
                       (filter (λ kv, doc !! kv.1 = None) (default_values now))) w
          = (Done tt, set_remote (mkRemote mid (sensor_data (remote w))) w)) as Em.
  { unfold mid. case_bool_decide as Hd.
    - unfold control_ref_set, remote_io, bind, get, modify. simpl. by rewrite Hf.
    - case_bool_decide as Hu.
      + rewrite Hu, (left_id_L ∅ (∪)). unfold ret. f_equal. unfold doc. by destruct w, remote0.
      + by rewrite Hup. }
  rewrite (bind_done _ _ _ _ _ Em).
  unfold bind at 1. unfold gets at 1. cbv beta iota.
  rewrite Hup by done. cbn [clock set_remote remote control_doc sensor_data]. fold now.
  eexists. split; [reflexivity|].
  assert (∀ k, k ≠ "last_updated" →
            mid !! k = match doc !! k with
                       | Some v => Some v
                       | None => default_values now !! k
                       end) as Hmid.
  { intros k Hk. unfold mid. case_bool_decide as Hd.
    - by rewrite Hd, lookup_empty.
    - rewrite lookup_union. destruct (doc !! k) as [v|] eqn:E.
      + rewrite map_lookup_filter_None_2; [done|]. right. intros v' _. simpl.
        by rewrite E.
      + destruct (default_values now !! k) as [d|] eqn:Ed.
        * by rewrite (map_lookup_filter_Some_2 _ _ k d Ed E).
        * by rewrite (map_lookup_filter_None_2 _ _ k (or_introl Ed)). }
  split; [|split].
  - intros k Hk.
    assert (k ≠ "last_updated") as Hne.
    { intros ->. rewrite list_elem_of_In in Hk. simpl in Hk.
      destruct Hk as [?|[?|[?|[?|[]]]]]; discriminate. }
    rewrite lookup_union, lookup_singleton_ne, Hmid by done.
    fold doc. destruct (doc !! k); simpl; [done|]. by rewrite Hdef.
  - apply lookup_union_Some_l, lookup_singleton_eq.
  - intros k Hk Hne. rewrite lookup_union, lookup_singleton_ne, Hmid by done.
    fold doc. destruct (doc !! k); simpl; [done|]. by rewrite Hdef'.
Qed.

End StartupProperties.

Lemma initialize_control_values_fills_missing_witness :
  ∃ doc',
    (initialize_control_values sample_strftime
       (set_remote (mkRemote {["servo" := PyInt 1]} ∅) fresh_world)).1 = Done tt ∧
    control_doc (remote (initialize_control_values sample_strftime
       (set_remote (mkRemote {["servo" := PyInt 1]} ∅) fresh_world)).2) = doc' ∧
    doc' !! "servo" = Some (PyInt 1) ∧ doc' !! "pump1" = Some (PyInt 0).
Proof.
  destruct (initialize_control_values_fills_missing sample_strftime
              (set_remote (mkRemote {["servo" := PyInt 1]} ∅) fresh_world) eq_refl)
    as (doc' & E & Hk & _).
  exists doc'. rewrite E. split; [done|]. split; [done|]. split.
  - apply (Hk "servo"). rewrite list_elem_of_In. simpl. tauto.
  - apply (Hk "pump1"). rewrite list_elem_of_In. simpl. tauto.
Defined.

(** ** The frame decoder, frame by frame *)

Lemma has_char_cons c x s : has_char c (x :: s) = Ascii.eqb c x || has_char c s.
Proof. reflexivity. Qed.

Lemma find_at_none c s i : has_char c s = false → find_at c s i = -1.
Proof.
  revert i. induction s as [|x s IH]; intros i H; [done|].
  rewrite has_char_cons in H. apply orb_false_iff in H as [Hx Hs].
  simpl. rewrite Ascii.eqb_sym, Hx. by apply IH.
Qed.

Lemma find_at_skip c pre s i :
  has_char c pre = false → find_at c (pre ++ s) i = find_at c s (i + Z.of_nat (length pre)).
Proof.
  revert i. induction pre as [|x pre IH]; intros i H; simpl.
  - f_equal. lia.
  - rewrite has_char_cons in H. apply orb_false_iff in H as [Hx Hs].
    rewrite Ascii.eqb_sym, Hx, IH by done. f_equal. lia.
Qed.

Lemma find_at_here c s i : find_at c (c :: s) i = i.
Proof. simpl. by rewrite Ascii.eqb_refl. Qed.

Lemma find_at_found c s i :
  0 ≤ i → has_char c s = true →
  ∃ k, find_at c s i = i + Z.of_nat k ∧ s !! k = Some c ∧ has_char c (take k s) = false.
Proof.
  revert i. induction s as [|x s IH]; intros i Hi H; [done|].
  rewrite has_char_cons in H. simpl. rewrite Ascii.eqb_sym.
  destruct (Ascii.eqb c x) eqn:E.
  - apply Ascii.eqb_eq in E as <-. exists 0%nat. split; [lia|]. by split.
  - simpl in H. destruct (IH (i + 1) ltac:(lia) H) as (k & Hk & Hl & Ht).
    exists (S k). split; [lia|]. split; [done|].
    change (take (S k) (x :: s)) with (x :: take k s).
    by rewrite has_char_cons, E, Ht.
Qed.

Lemma rfind_at_none c s i : has_char c s = false → rfind_at c s i = -1.
Proof.
  revert i. induction s as [|x s IH]; intros i H; [done|].
  rewrite has_char_cons in H. apply orb_false_iff in H as [Hx Hs].
  simpl. rewrite IH by done. simpl. by rewrite Ascii.eqb_sym, Hx.
Qed.

Lemma rfind_at_skip c pre s i :
  0 ≤ i → has_char c s = false →
  rfind_at c (pre ++ c :: s) i = i + Z.of_nat (length pre).
Proof.
  revert i. induction pre as [|x pre IH]; intros i Hi H; simpl.
  - rewrite rfind_at_none by done. simpl. rewrite Ascii.eqb_refl. lia.
  - rewrite IH by (done || lia).
    destruct (i + 1 + Z.of_nat (length pre) =? -1) eqn:E; [apply Z.eqb_eq in E|]; lia.
Qed.

Lemma slice_index_in n i : 0 ≤ i ≤ n → slice_index n i = Z.to_nat i.
Proof.
  intros H. unfold slice_index.
  destruct (i <? 0) eqn:E; [apply Z.ltb_lt in E; lia|]. by rewrite Z.min_l by lia.
Qed.

Lemma slice_middle (pre mid post : list ascii) :
  slice (pre ++ mid ++ post) (Z.of_nat (length pre))
        (Z.of_nat (length pre) + Z.of_nat (length mid)) = mid.
Proof.
  unfold slice. rewrite !slice_index_in by (rewrite !length_app; lia).
  rewrite Nat2Z.id, drop_app_length.
  replace (Z.to_nat (Z.of_nat (length pre) + Z.of_nat (length mid)) - length pre)%nat
    with (length mid) by lia.
  by rewrite take_app_length.
Qed.

Lemma slice_from_tail (pre post : list ascii) :
  slice_from (pre ++ post) (Z.of_nat (length pre)) = post.
Proof.
  unfold slice_from. rewrite slice_index_in by (rewrite length_app; lia).
  by rewrite Nat2Z.id, drop_app_length.
Qed.

(** A frame: an opening brace, a body without braces, a closing brace. *)
Lemma frame_indices (pre body post : list ascii) :
  brace_free pre → brace_free body →
  let buf := pre ++ ("{"%char :: body ++ ["}"%char]) ++ post in
  let start_idx := find_from "{" 0 buf in
  let end_idx := find_from "}" (Z.to_nat start_idx) buf + 1 in
  has_char "{" buf = true ∧ has_char "}" buf = true ∧
  slice buf start_idx end_idx = "{"%char :: body ++ ["}"%char] ∧
  slice_from buf end_idx = post.
Proof.
  intros [Hp1 Hp2] [Hb1 Hb2] buf start_idx end_idx.
  assert (start_idx = Z.of_nat (length pre)) as Hs.
  { unfold start_idx, find_from, buf. rewrite drop_0, find_at_skip by done.
    simpl. lia. }
  assert (end_idx = Z.of_nat (length pre) + Z.of_nat (length ("{"%char :: body ++ ["}"%char])))
    as He.
  { unfold end_idx, find_from. rewrite Hs, Nat2Z.id. unfold buf.
    rewrite drop_app_length. simpl.
    rewrite <- (assoc_L (++)). rewrite find_at_skip by done. simpl.
    rewrite length_app. simpl. lia. }
  split; [|split; [|split]].
  - unfold buf. rewrite !has_char_app, Hp1. reflexivity.
  - unfold buf. rewrite !has_char_app, Hp2.
    rewrite has_char_cons, has_char_app, Hb2. reflexivity.
  - rewrite Hs, He. apply slice_middle.
  - rewrite He. unfold buf.
    rewrite (assoc_L (++)), <- Nat2Z.inj_add, <- length_app. apply slice_from_tail.
Qed.

Lemma raises_only_bind {S A B} (P : exn → Prop) (m : M S A) (k : A → M S B) :
  raises_only P m → (∀ a, raises_only P (k a)) → raises_only P (bind m k).
Proof.
  intros Hm Hk s e s'. unfold bind. specialize (Hm s).
  destruct (m s) as [[a|e'|] s1]; [apply Hk | | done].
  intros [= <- <-]. by apply (Hm e' s1).
Qed.

Lemma update_status_raises data :
  raises_only (λ e, e ≠ JSONDecodeError) (update_status data).
Proof.
  assert (∀ k, raises_only (λ e, e ≠ JSONDecodeError) (copy_key k data)) as Hc.
  { intros k s e s'. unfold copy_key. by destruct (data !! k). }
  assert (∀ k i, raises_only (λ e, e ≠ JSONDecodeError) (set_pump k i data)) as Hp.
  { intros k i s e s'. unfold set_pump. destruct (data !! k) as [v|]; [|done].
    unfold bind, modify, get, lift, raise. simpl.
    destruct (match s !! "pumps" with Some _ => s | None => _ end !! "pumps") as [p|];
      [|by intros [= <- _]].
    destruct p as [| | | | |l]; simpl; try by intros [= <- _].
    case_decide; simpl; [done | by intros [= <- _]]. }
  unfold update_status.
  repeat (apply raises_only_bind; [first [apply Hc | apply Hp] | intros _]).
  apply Hc.
Qed.

Section DecoderFrames.
Variable json_loads : list ascii → option (gmap string val).

(** One pass of the loop over a buffer whose first frame is well delimited:
    the frame is cut out, the text before it is dropped, and the frame is
    skipped, counted as an error, or merged. *)
Lemma decode_step_frame (w : World) (pre body post : list ascii) :
  let frame := "{"%char :: body ++ ["}"%char] in
  buffer (decoder w) = pre ++ frame ++ post →
  brace_free pre → brace_free body →
  decode_step json_loads w
  = if (text_len frame <? 5) || (500 <? text_len frame)
    then (Done false, set_decoder (mkDecoder post (error_count (decoder w))) w)
    else match json_loads frame with
         | None => on_decode_error
                     (set_decoder (mkDecoder post (error_count (decoder w))) w)
         | Some data =>
             (Done false,
              set_status (update_status data (current_status w)).2
                         (set_decoder (mkDecoder post 0) w))
         end.
Proof.
  intros frame Hbuf Hpre Hbody.
  destruct (frame_indices pre body post Hpre Hbody) as (_ & _ & Hs & Hf).
  fold frame in Hs, Hf. rewrite <- Hbuf in Hs, Hf.
  unfold decode_step, try_except.
  unfold bind at 1. unfold gets at 1. cbv beta iota zeta.
  rewrite Hs, Hf.
  unfold bind at 1. unfold set_buffer at 1, modify at 1. cbv beta iota.
  destruct ((text_len frame <? 5) || (500 <? text_len frame)); [done|].
  destruct (json_loads frame) as [data|]; [|done].
  unfold bind at 1. unfold set_error_count at 1, modify at 1. cbv beta iota.
  unfold bind at 1. unfold with_status, zoom.
  cbn [current_status set_decoder decoder buffer error_count].
  pose proof (update_status_raises data (current_status w)) as Hr.
  pose proof (update_status_finishes data (current_status w)) as Hfin.
  destruct (update_status data (current_status w)) as [[[]|e|] st'] eqn:E; simpl in *.
  - reflexivity.
  - specialize (Hr e st' eq_refl). by destruct e.
  - done.
Qed.

(** A read that brings text and is not cut short by the stalled-frame test
    ends as the loop and the final trim end. *)
Lemma read_then_decode fuel (w : World) r w' :
  is_open (ser w) = true → serial_fault w (clock w) = false → rx (ser w) ≠ [] →
  let buf := buffer (decoder w) ++ rx (ser w) in
  has_char "{" buf && negb (has_char "}" buf) && (100 <? text_len buf) = false →
  (decode_loop json_loads fuel >> trim_buffer)
    (set_decoder (mkDecoder buf (error_count (decoder w)))
                 (set_ser (mkSerial true [] (tx (ser w))) w)) = (r, w') →
  (∀ e, r ≠ Raised e) →
  read_and_upload_data json_loads fuel w = (r, w').
Proof.
  intros Ho Hf Hrx buf Hc Hrun Hr.
  unfold read_and_upload_data, try_except.
  unfold bind at 1. unfold get at 1. cbv beta iota. rewrite Ho. cbn [negb].
  rewrite (bind_done _ _ _ _ _ (in_waiting_healthy w Hf)).
  replace (Z.of_nat (length (rx (ser w))) =? 0) with false
    by (symmetry; apply Z.eqb_neq; destruct (rx (ser w)); [done | simpl; lia]).
  rewrite (bind_done _ _ _ _ _ (read_waiting_healthy w Hf)).
  unfold bind at 1. unfold gets at 1. cbv beta iota zeta.
  cbn [decoder set_ser buffer]. fold buf.
  unfold bind at 1. unfold set_buffer at 1, modify at 1. cbv beta iota.
  rewrite Hc. cbn [decoder set_ser error_count]. rewrite Ho, Hrun.
  destruct r as [[]|e|]; [done | by destruct (Hr e) | done].
Qed.

Lemma decode_loop_exit fuel (w : World) :
  has_char "{" (buffer (decoder w)) && has_char "}" (buffer (decoder w)) = false →
  decode_loop json_loads (S fuel) w = (Done tt, w).
Proof. intros H. simpl. unfold bind, gets. by rewrite H. Qed.

Lemma trim_buffer_brace_free (w : World) :
  has_char "{" (buffer (decoder w)) = false →
  trim_buffer w
  = (Done tt, set_decoder (mkDecoder (kept (buffer (decoder w)))
                                     (error_count (decoder w))) w).
Proof.
  intros H. unfold trim_buffer, kept, text_len, bind, gets, set_buffer, modify, ret.
  rewrite H. simpl. destruct (500 <? _); [done|]. by destruct w, decoder0.
Qed.

(** The loop and the trim over a buffer that holds one well-delimited frame
    followed by text without braces. *)
Lemma decode_one_frame fuel (w : World) (pre body post : list ascii) :
  let frame := "{"%char :: body ++ ["}"%char] in
  buffer (decoder w) = pre ++ frame ++ post →
  brace_free pre → brace_free body → brace_free post →
  ∃ stop w2,
    decode_step json_loads w = (Done stop, w2) ∧
    (buffer (decoder w2) = post ∨ buffer (decoder w2) = []) ∧
    (decode_loop json_loads (S (S fuel)) >> trim_buffer) w
    = (Done tt, set_decoder (mkDecoder (kept (buffer (decoder w2)))
                                       (error_count (decoder w2))) w2).
Proof.
  intros frame Hbuf Hpre Hbody Hpost.
  destruct (frame_indices pre body post Hpre Hbody) as (H1 & H2 & _ & _).
  fold frame in H1, H2. rewrite <- Hbuf in H1, H2.
  assert (∃ stop w2, decode_step json_loads w = (Done stop, w2) ∧
                     (buffer (decoder w2) = post ∨ buffer (decoder w2) = []))
    as (stop & w2 & Es & Hb).
  { rewrite (decode_step_frame w pre body post Hbuf Hpre Hbody).
    destruct (_ || _); [by eauto|].
    destruct (json_loads _); [by eauto|].
    unfold on_decode_error, bind, gets, set_error_count, set_buffer, modify, ret.
    simpl. destruct (_ =? 0); [destruct (10000 <? _)|]; simpl; eauto. }
  exists stop, w2. split; [done|]. split; [done|].
  assert (has_char "{" (buffer (decoder w2)) = false) as Hno
    by (destruct Hb as [-> | ->]; [apply Hpost | done]).
  assert (decode_loop json_loads (S (S fuel)) w = (Done tt, w2)) as El.
  { change (decode_loop json_loads (S (S fuel)) w)
      with ((let* buf := gets (λ w, buffer (decoder w)) in
             if has_char "{" buf && has_char "}" buf then
               let* stop := decode_step json_loads in
               if stop then ret tt else decode_loop json_loads (S fuel)
             else ret tt) w).
    unfold bind at 1. unfold gets at 1. cbv beta iota. rewrite H1, H2. cbn [andb].
    rewrite (bind_done _ _ _ _ _ Es). destruct stop; [done|].
    apply decode_loop_exit. by rewrite Hno. }
  rewrite (bind_done _ _ _ _ _ El). by apply trim_buffer_brace_free.
Qed.

End DecoderFrames.

Lemma on_decode_error_run (w : World) :
  let n := error_count (decoder w) + 1 in
  on_decode_error w
  = if (n mod 1000 =? 0) && (10000 <? n)
    then (Done true, set_decoder (mkDecoder [] n) w)
    else (Done false, set_decoder (mkDecoder (buffer (decoder w)) n) w).
Proof.
  intros n. unfold on_decode_error.
  unfold bind at 1. unfold gets at 1. cbv beta iota.
  unfold bind at 1. unfold set_error_count at 1, modify at 1. cbv beta iota.
  fold n. destruct (n mod 1000 =? 0); [destruct (10000 <? n)|]; reflexivity.
Qed.

Section DecoderFrameProperties.
Variable json_loads : list ascii → option (gmap string val).

Lemma read_merges_frame fuel (w : World) (pre body post : list ascii) data :
  let frame := "{"%char :: body ++ ["}"%char] in
  is_open (ser w) = true → serial_fault w (clock w) = false → rx (ser w) ≠ [] →
  buffer (decoder w) ++ rx (ser w) = pre ++ frame ++ post →
  brace_free pre → brace_free body → brace_free post →
  5 ≤ text_len frame ≤ 500 → json_loads frame = Some data →
  read_and_upload_data json_loads (S (S fuel)) w
  = (Done tt,
     set_status (update_status data (current_status w)).2
       (set_decoder (mkDecoder (kept post) 0)
          (set_ser (mkSerial true [] (tx (ser w))) w))).
Proof.
  intros frame Ho Hf Hrx Hbuf Hpre Hbody Hpost Hlen Hj.
  set (w1 := set_decoder (mkDecoder (buffer (decoder w) ++ rx (ser w))
                                    (error_count (decoder w)))
                         (set_ser (mkSerial true [] (tx (ser w))) w)).
  destruct (frame_indices pre body post Hpre Hbody) as (_ & H2 & _ & _).
  fold frame in H2. rewrite <- Hbuf in H2.
  destruct (decode_one_frame json_loads fuel w1 pre body post Hbuf Hpre Hbody Hpost)
    as (stop & w2 & Es & _ & Erun).
  rewrite (decode_step_frame json_loads w1 pre body post Hbuf Hpre Hbody) in Es.
  fold frame in Es.
  replace ((text_len frame <? 5) || (500 <? text_len frame)) with false in Es
    by (symmetry; apply orb_false_iff; split; [apply Z.ltb_ge | apply Z.ltb_ge]; lia).
  rewrite Hj in Es. injection Es as <- <-.
  apply read_then_decode; try done.
  by rewrite H2, andb_false_r.
Qed.

(** X2.  A read after which the buffer holds text without braces, one frame
    and again text without braces, the frame being between 5 and 500
    characters long and accepted by [json.loads], merges the frame into the
    status, resets the error count and keeps only the text that follows the
    frame (nothing of it if it is longer than 500).  Nothing else changes. *)
Theorem decoder_merges_valid_frame fuel (w : World) (pre body post : list ascii) data :
  let frame := "{"%char :: body ++ ["}"%char] in
  is_open (ser w) = true → serial_fault w (clock w) = false → rx (ser w) ≠ [] →
  buffer (decoder w) ++ rx (ser w) = pre ++ frame ++ post →
  brace_free pre → brace_free body → brace_free post →
  5 ≤ text_len frame ≤ 500 → json_loads frame = Some data →
  read_and_upload_data json_loads (S (S fuel)) w
  = (Done tt,
     set_status (update_status data (current_status w)).2
       (set_decoder (mkDecoder (kept post) 0)
          (set_ser (mkSerial true [] (tx (ser w))) w))).
Proof. apply read_merges_frame. Qed.

(** X3.  The same read with a frame that [json.loads] rejects raises
    nothing: the status is untouched, the error count grows by one and the
    frame is gone; the text after it is kept, unless the count has reached
    a multiple of 1000 above 10000, in which case the buffer is emptied. *)
Theorem decoder_counts_malformed_frame fuel (w : World) (pre body post : list ascii) :
  let frame := "{"%char :: body ++ ["}"%char] in
  let n := error_count (decoder w) + 1 in
  is_open (ser w) = true → serial_fault w (clock w) = false → rx (ser w) ≠ [] →
  buffer (decoder w) ++ rx (ser w) = pre ++ frame ++ post →
  brace_free pre → brace_free body → brace_free post →
  5 ≤ text_len frame ≤ 500 → json_loads frame = None →
  read_and_upload_data json_loads (S (S fuel)) w
  = (Done tt,
     set_decoder (mkDecoder (if (n mod 1000 =? 0) && (10000 <? n) then []
                             else kept post) n)
       (set_ser (mkSerial true [] (tx (ser w))) w)).
Proof.
  intros frame n Ho Hf Hrx Hbuf Hpre Hbody Hpost Hlen Hj.
  set (w1 := set_decoder (mkDecoder (buffer (decoder w) ++ rx (ser w))
                                    (error_count (decoder w)))
                         (set_ser (mkSerial true [] (tx (ser w))) w)).
  destruct (frame_indices pre body post Hpre Hbody) as (_ & H2 & _ & _).
  fold frame in H2. rewrite <- Hbuf in H2.
  destruct (decode_one_frame json_loads fuel w1 pre body post Hbuf Hpre Hbody Hpost)
    as (stop & w2 & Es & _ & Erun).
  rewrite (decode_step_frame json_loads w1 pre body post Hbuf Hpre Hbody) in Es.
  fold frame in Es.
  replace ((text_len frame <? 5) || (500 <? text_len frame)) with false in Es
    by (symmetry; apply orb_false_iff; split; [apply Z.ltb_ge | apply Z.ltb_ge]; lia).
  rewrite Hj in Es.
  apply read_then_decode; try done; [by rewrite H2, andb_false_r|].
  fold w1. rewrite Erun. f_equal.
  rewrite on_decode_error_run in Es. unfold w1 in Es.
  cbn [decoder set_decoder error_count buffer set_ser] in Es. fold n in Es.
  destruct ((n mod 1000 =? 0) && (10000 <? n));
    injection Es as <- <-; reflexivity.
Qed.

(** X4.  The same read with a frame shorter than 5 characters or longer
    than 500 drops the frame without a word: the status and the error count
    are as before. *)
Theorem decoder_skips_short_or_long_frame fuel (w : World) (pre body post : list ascii) :
  let frame := "{"%char :: body ++ ["}"%char] in
  is_open (ser w) = true → serial_fault w (clock w) = false → rx (ser w) ≠ [] →
  buffer (decoder w) ++ rx (ser w) = pre ++ frame ++ post →
  brace_free pre → brace_free body → brace_free post →
  text_len frame < 5 ∨ 500 < text_len frame →
  read_and_upload_data json_loads (S (S fuel)) w
  = (Done tt,
     set_decoder (mkDecoder (kept post) (error_count (decoder w)))
       (set_ser (mkSerial true [] (tx (ser w))) w)).
Proof.
  intros frame Ho Hf Hrx Hbuf Hpre Hbody Hpost Hlen.
  set (w1 := set_decoder (mkDecoder (buffer (decoder w) ++ rx (ser w))
                                    (error_count (decoder w)))
                         (set_ser (mkSerial true [] (tx (ser w))) w)).
  destruct (frame_indices pre body post Hpre Hbody) as (_ & H2 & _ & _).
  fold frame in H2. rewrite <- Hbuf in H2.
  destruct (decode_one_frame json_loads fuel w1 pre body post Hbuf Hpre Hbody Hpost)
    as (stop & w2 & Es & _ & Erun).
  rewrite (decode_step_frame json_loads w1 pre body post Hbuf Hpre Hbody) in Es.
  fold frame in Es.
  replace ((text_len frame <? 5) || (500 <? text_len frame)) with true in Es
    by (symmetry; apply orb_true_iff; destruct Hlen;
        [left; apply Z.ltb_lt | right; apply Z.ltb_lt]; lia).
  injection Es as <- <-.
  apply read_then_decode; try done.
  by rewrite H2, andb_false_r.
Qed.

End DecoderFrameProperties.

(** ** The decoder loop: when it ends, and what it leaves *)

Lemma has_char_lookup c (s : list ascii) :
  has_char c s = true ↔ ∃ i, s !! i = Some c.
Proof.
  unfold has_char. rewrite existsb_exists. split.
  - intros (x & Hin & Hx). apply Ascii.eqb_eq in Hx as <-.
    apply list_elem_of_In, list_elem_of_lookup in Hin. exact Hin.
  - intros [i Hi]. exists c. split; [|apply Ascii.eqb_refl].
    apply list_elem_of_In, list_elem_of_lookup. eauto.
Qed.

Lemma closes_drop m s : closes s → closes (drop m s).
Proof.
  intros H i Hi. rewrite lookup_drop in Hi.
  destruct (H _ Hi) as (j & Hj & Hl).
  exists (j - m)%nat. split; [lia|]. rewrite lookup_drop. by replace (m + (j - m))%nat with j by lia.
Qed.

Lemma closes_nil : closes [].
Proof. intros i Hi. by rewrite lookup_nil in Hi. Qed.

(** In a buffer whose opening braces are all closed, the frame cut out by
    the loop is not empty: the buffer gets strictly shorter. *)
Lemma closes_end_idx (buf : list ascii) :
  closes buf → has_char "{" buf = true →
  let end_idx := find_from "}" (Z.to_nat (find_from "{" 0 buf)) buf + 1 in
  ∃ e, (0 < e ≤ length buf)%nat ∧ slice_from buf end_idx = drop e buf.
Proof.
  intros Hc Ho end_idx.
  destruct (find_at_found "{" buf 0 ltac:(lia) Ho) as (q & Hq & Hlq & _).
  destruct (Hc q Hlq) as (j & Hj & Hlj).
  assert (has_char "}" (drop q buf) = true) as Hcl.
  { apply has_char_lookup. exists (j - q)%nat. rewrite lookup_drop.
    by replace (q + (j - q))%nat with j by lia. }
  destruct (find_at_found "}" (drop q buf) (Z.of_nat q) ltac:(lia) Hcl)
    as (k & Hk & Hlk & _).
  assert (end_idx = Z.of_nat (q + k + 1)) as He.
  { unfold end_idx, find_from. rewrite drop_0. change (Z.of_nat 0) with 0.
    rewrite Hq, Z.add_0_l, !Nat2Z.id, Hk. lia. }
  rewrite lookup_drop in Hlk. apply lookup_lt_Some in Hlk as Hlt.
  exists (q + k + 1)%nat. split; [lia|].
  unfold slice_from. rewrite He, slice_index_in by lia. by rewrite Nat2Z.id.
Qed.

Section DecoderLoop.
Variable json_loads : list ascii → option (gmap string val).

(** One pass of the loop always ends normally; the buffer it leaves is the
    old one without its head up to the end of the frame cut out, or is
    empty, and it is empty whenever the pass asks to leave the loop. *)
Lemma decode_step_run (w : World) :
  let buf := buffer (decoder w) in
  let end_idx := find_from "}" (Z.to_nat (find_from "{" 0 buf)) buf + 1 in
  ∃ stop w2,
    decode_step json_loads w = (Done stop, w2) ∧
    (buffer (decoder w2) = slice_from buf end_idx ∨ buffer (decoder w2) = []) ∧
    (stop = true → buffer (decoder w2) = []).
Proof.
  intros buf end_idx. unfold decode_step, try_except.
  unfold bind at 1. unfold gets at 1. cbv beta iota zeta. fold buf. fold end_idx.
  unfold bind at 1. unfold set_buffer at 1, modify at 1. cbv beta iota.
  set (w1 := set_decoder _ w).
  assert (∀ w0 : World, buffer (decoder w0) = slice_from buf end_idx →
            ∃ stop w2, on_decode_error w0 = (Done stop, w2) ∧
              (buffer (decoder w2) = slice_from buf end_idx ∨ buffer (decoder w2) = []) ∧
              (stop = true → buffer (decoder w2) = [])) as Herr.
  { intros w0 H0. rewrite on_decode_error_run.
    destruct (_ && _); eexists _, _; (split; [reflexivity|]); simpl;
      (split; [auto | done]). }
  destruct (_ || _); [exists false, w1; split; [done|]; split; [by left | done]|].
  destruct (json_loads _) as [data|]; [|by apply Herr].
  unfold bind at 1. unfold set_error_count at 1, modify at 1. cbv beta iota.
  unfold bind at 1. unfold with_status, zoom.
  pose proof (update_status_raises data (current_status (set_decoder
                (mkDecoder (buffer (decoder w1)) 0) w1))) as Hr.
  pose proof (update_status_finishes data (current_status (set_decoder
                (mkDecoder (buffer (decoder w1)) 0) w1))) as Hfin.
  destruct (update_status data _) as [[[]|e|] st'] eqn:E; simpl in Hfin; [| |done].
  - eexists false, _. split; [reflexivity|]. simpl. split; [by left | done].
  - specialize (Hr e st' eq_refl).
    destruct e; try done; eexists false, _; (split; [reflexivity|]); simpl;
      (split; [by left | done]).
Qed.

(** When the loop ends normally, the buffer no longer holds both braces. *)
Lemma decode_loop_done fuel :
  ∀ w w' : World, decode_loop json_loads fuel w = (Done tt, w') →
  has_char "{" (buffer (decoder w')) && has_char "}" (buffer (decoder w')) = false.
Proof.
  induction fuel as [|fuel IH]; intros w w' E; [done|].
  simpl in E. unfold bind at 1 in E. unfold gets at 1 in E. cbv beta iota in E.
  destruct (has_char "{" (buffer (decoder w)) && has_char "}" (buffer (decoder w)))
    eqn:Hc; [|by injection E as <-].
  destruct (decode_step_run w) as (stop & w2 & Es & _ & Hstop).
  rewrite (bind_done _ _ _ _ _ Es) in E. destruct stop.
  - injection E as <-. by rewrite Hstop.
  - by apply IH in E.
Qed.

(** The loop ends, within as many passes as the buffer has characters, when
    every opening brace of the buffer is closed further on. *)
Lemma decode_loop_closes fuel :
  ∀ w : World, closes (buffer (decoder w)) →
    (length (buffer (decoder w)) < fuel)%nat →
    ∃ w', decode_loop json_loads fuel w = (Done tt, w').
Proof.
  induction fuel as [|fuel IH]; intros w Hc Hl; [lia|].
  simpl. unfold bind at 1. unfold gets at 1. cbv beta iota.
  destruct (has_char "{" (buffer (decoder w))) eqn:Ho; [|by eauto].
  destruct (has_char "}" (buffer (decoder w))) eqn:Hcl; [|by eauto]. cbn [andb].
  destruct (decode_step_run w) as (stop & w2 & Es & Hb & _).
  rewrite (bind_done _ _ _ _ _ Es). destruct stop; [by eauto|].
  destruct (closes_end_idx _ Hc Ho) as (e & He & Hsl).
  apply IH.
  - destruct Hb as [-> | ->]; [rewrite Hsl; by apply closes_drop | apply closes_nil].
  - destruct Hb as [-> | ->]; [rewrite Hsl, length_drop | simpl]; lia.
Qed.

End DecoderLoop.

Section DecoderReads.
Variable json_loads : list ascii → option (gmap string val).

Lemma decode_loop_quiet fuel : quiet (decode_loop json_loads fuel).
Proof.
  induction fuel as [|fuel IH]; intros w e; [done|].
  simpl. unfold bind at 1. unfold gets at 1. cbv beta iota.
  destruct (_ && _); [|done].
  destruct (decode_step_run json_loads w) as (stop & w2 & Es & _).
  rewrite (bind_done _ _ _ _ _ Es). destruct stop; [done | apply IH].
Qed.

Lemma trim_buffer_run (w : World) :
  ∃ b, trim_buffer w = (Done tt, set_decoder (mkDecoder b (error_count (decoder w))) w) ∧
       (has_char "{" (buffer (decoder w)) && has_char "}" (buffer (decoder w)) = false →
        b = kept (buffer (decoder w))).
Proof.
  unfold trim_buffer, kept, text_len, bind, gets, set_buffer, modify, ret.
  destruct (500 <? _).
  - destruct (has_char "{" _), (has_char "}" _); simpl; eexists; split;
      first [reflexivity | done].
  - exists (buffer (decoder w)). split; [by destruct w, decoder0 | done].
Qed.

(** The four ways a call of [read_and_upload_data] goes. *)
Lemma read_and_upload_data_cases fuel (w : World) :
  let buf := buffer (decoder w) ++ rx (ser w) in
  ((is_open (ser w) = false ∨ serial_fault w (clock w) = true) ∧
   read_and_upload_data json_loads fuel w = (Done tt, bump_error_count w)) ∨
  (is_open (ser w) = true ∧ serial_fault w (clock w) = false ∧
   ((rx (ser w) = [] ∧ read_and_upload_data json_loads fuel w = (Done tt, w)) ∨
    (rx (ser w) ≠ [] ∧ stalled buf = true ∧
     read_and_upload_data json_loads fuel w
     = (Done tt, set_decoder (mkDecoder (stalled_rest buf) (error_count (decoder w)))
                             (set_ser (mkSerial true [] (tx (ser w))) w))) ∨
    (rx (ser w) ≠ [] ∧ stalled buf = false ∧
     read_and_upload_data json_loads fuel w
     = (decode_loop json_loads fuel >> trim_buffer) (after_read w)))).
Proof.
  intros buf.
  destruct (is_open (ser w)) eqn:Ho.
  2:{ left. split; [by left|]. unfold read_and_upload_data, try_except.
      unfold bind at 1. unfold get at 1. cbv beta iota. by rewrite Ho. }
  destruct (serial_fault w (clock w)) eqn:Hf.
  { left. split; [by right|]. unfold read_and_upload_data, try_except.
    unfold bind at 1. unfold get at 1. cbv beta iota. rewrite Ho. cbn [negb].
    assert (in_waiting w = (Raised SerialException, w)) as E.
    { unfold in_waiting, port_io, bind, get. simpl. by rewrite Hf. }
    by rewrite (bind_raised _ _ _ _ _ E). }
  right. split; [done|]. split; [done|].
  destruct (decide (rx (ser w) = [])) as [Hrx|Hne].
  { left. split; [done|]. unfold read_and_upload_data, try_except.
    unfold bind at 1. unfold get at 1. cbv beta iota. rewrite Ho. cbn [negb].
    rewrite (bind_done _ _ _ _ _ (in_waiting_healthy w Hf)). by rewrite Hrx. }
  right.
  destruct (stalled buf) eqn:Hs.
  - left. split; [done|]. split; [done|].
    unfold read_and_upload_data, try_except.
    unfold bind at 1. unfold get at 1. cbv beta iota. rewrite Ho. cbn [negb].
    rewrite (bind_done _ _ _ _ _ (in_waiting_healthy w Hf)).
    replace (Z.of_nat (length (rx (ser w))) =? 0) with false
      by (symmetry; apply Z.eqb_neq; destruct (rx (ser w)); [done | simpl; lia]).
    rewrite (bind_done _ _ _ _ _ (read_waiting_healthy w Hf)).
    unfold bind at 1. unfold gets at 1. cbv beta iota zeta.
    cbn [decoder set_ser buffer]. fold buf.
    unfold bind at 1. unfold set_buffer at 1, modify at 1. cbv beta iota.
    unfold stalled in Hs. unfold text_len. rewrite Hs.
    unfold drop_stalled_frame, stalled_rest, text_len, bind, set_buffer, modify, ret.
    cbn [decoder set_ser set_decoder error_count buffer]. rewrite Ho.
    destruct (100 <? Z.of_nat (length (slice_from buf (rfind "{" buf))));
      reflexivity.
  - right. split; [done|]. split; [done|].
    destruct ((decode_loop json_loads fuel >> trim_buffer) (after_read w))
      as [r w'] eqn:Erun.
    apply read_then_decode; try done.
    intros e ->.
    assert (quiet (decode_loop json_loads fuel >> trim_buffer)) as Hq.
    { apply quiet_bind; [apply decode_loop_quiet|]. intros _ s e'.
      destruct (trim_buffer_run s) as (b & -> & _). done. }
    apply (Hq (after_read w) e). by rewrite Erun.
Qed.

End DecoderReads.

Lemma kept_length (b : list ascii) : (length (kept b) ≤ 500)%nat.
Proof.
  unfold kept. destruct (500 <? Z.of_nat (length b)) eqn:E; simpl; [lia|].
  apply Z.ltb_ge in E. lia.
Qed.

Lemma stalled_rest_length (b : list ascii) : (length (stalled_rest b) ≤ 100)%nat.
Proof.
  unfold stalled_rest. destruct (100 <? _) eqn:E; simpl; [lia|].
  apply Z.ltb_ge in E. lia.
Qed.

Section DecoderReadProperties.
Variable json_loads : list ascii → option (gmap string val).

(** X5.  A call of [read_and_upload_data] returns, after at most as many
    passes of its loop as the buffer has characters, whenever every opening
    brace of the buffer (the old text and what was just read) is followed by
    a closing one, and also whenever the buffer holds no closing brace. *)
Theorem decoder_returns_when_braces_close fuel (w : World) :
  let buf := buffer (decoder w) ++ rx (ser w) in
  closes buf ∨ has_char "}" buf = false →
  (length buf < fuel)%nat →
  ∃ w', read_and_upload_data json_loads fuel w = (Done tt, w').
Proof.
  intros buf Hb Hl.
  destruct (read_and_upload_data_cases json_loads fuel w)
    as [[_ ->]|(_ & _ & [[_ ->]|[(_ & _ & ->)|(_ & _ & ->)]])]; eauto.
  assert (∃ w1, decode_loop json_loads fuel (after_read w) = (Done tt, w1))
    as [w1 E1].
  { destruct Hb as [Hc|Hn].
    - by apply decode_loop_closes.
    - destruct fuel as [|fuel]; [lia|]. exists (after_read w).
      apply decode_loop_exit. cbn [after_read decoder set_decoder buffer].
      fold buf. by rewrite Hn, andb_false_r. }
  rewrite (bind_done _ _ _ _ _ E1).
  destruct (trim_buffer_run w1) as (b & -> & _). eauto.
Qed.

(** X6.  Whenever a call of [read_and_upload_data] returns, the buffer it
    leaves has at most 500 characters, provided it had no more before. *)
Theorem decoder_buffer_bounded_on_return fuel (w w' : World) :
  read_and_upload_data json_loads fuel w = (Done tt, w') →
  (length (buffer (decoder w)) ≤ 500)%nat →
  (length (buffer (decoder w')) ≤ 500)%nat.
Proof.
  intros E Hl.
  destruct (read_and_upload_data_cases json_loads fuel w)
    as [[_ E']|(_ & _ & [[_ E']|[(_ & _ & E')|(_ & _ & E')]])];
    rewrite E' in E.
  - by injection E as <-.
  - by injection E as <-.
  - injection E as <-. simpl. pose proof (stalled_rest_length
      (buffer (decoder w) ++ rx (ser w))). lia.
  - apply bind_done_inv in E as ([] & w1 & E1 & E2).
    apply decode_loop_done in E1.
    destruct (trim_buffer_run w1) as (b & Et & Hb). rewrite Et in E2.
    injection E2 as <-. simpl. rewrite (Hb E1). apply kept_length.
Qed.

(** X7.  A read that fails, because the port is closed or because the
    driver raises, does not leave [read_and_upload_data] as an exception:
    the call returns normally and its only effect is one more error in the
    decoder's own count. *)
Theorem read_failure_only_counts fuel (w : World) :
  is_open (ser w) = false ∨ serial_fault w (clock w) = true →
  read_and_upload_data json_loads fuel w = (Done tt, bump_error_count w).
Proof.
  intros H.
  destruct (read_and_upload_data_cases json_loads fuel w)
    as [[_ E]|(Ho & Hf & _)]; [done|].
  destruct H; congruence.
Qed.

End DecoderReadProperties.

Lemma decoder_merges_valid_frame_witness :
  let w := set_ser (mkSerial true (frame_text "ph" "7") []) fresh_world in
  current_status (read_and_upload_data sample_json_loads 2 w).2 !! "ph"
  = Some (PyInt 7).
Proof.
  intros w.
  rewrite (decoder_merges_valid_frame sample_json_loads 0 w []
             (["034"%char] ++ text "ph" ++ ["034"%char] ++ text ": " ++ text "7") []
             {["ph" := PyInt 7]});
    first [ reflexivity | done | (split; reflexivity) | (simpl; lia) ].
Defined.

Lemma decoder_counts_malformed_frame_witness :
  let w := set_ser (mkSerial true (text "{oops}") []) fresh_world in
  error_count (decoder (read_and_upload_data sample_json_loads 2 w).2) = 1.
Proof.
  intros w.
  rewrite (decoder_counts_malformed_frame sample_json_loads 0 w [] (text "oops") []);
    first [ reflexivity | done | (split; reflexivity) | (simpl; lia) ].
Defined.

Lemma decoder_skips_short_or_long_frame_witness :
  let w := set_ser (mkSerial true (text "{}") []) fresh_world in
  read_and_upload_data sample_json_loads 2 w
  = (Done tt, set_decoder (mkDecoder [] 0) (set_ser (mkSerial true [] []) fresh_world)).
Proof.
  intros w.
  rewrite (decoder_skips_short_or_long_frame sample_json_loads 0 w [] [] []);
    first [ reflexivity | done | (split; reflexivity) | (left; reflexivity) ].
Defined.

Lemma decoder_returns_when_braces_close_witness :
  ∃ w', read_and_upload_data sample_json_loads 5
          (set_ser (mkSerial true (text "{}{}") []) fresh_world) = (Done tt, w').
Proof.
  apply decoder_returns_when_braces_close; [|simpl; lia].
  left. intros i Hi. simpl in Hi.
  destruct i as [|[|[|[|i]]]]; simpl in Hi; try discriminate.
  - exists 1%nat. split; [lia | reflexivity].
  - exists 3%nat. split; [lia | reflexivity].
Defined.

Lemma decoder_buffer_bounded_on_return_witness :
  (length (buffer (decoder (read_and_upload_data sample_json_loads 2
     (set_ser (mkSerial true (text "{}") []) fresh_world)).2)) ≤ 500)%nat.
Proof.
  eapply (decoder_buffer_bounded_on_return sample_json_loads 2
            (set_ser (mkSerial true (text "{}") []) fresh_world)).
  - reflexivity.
  - simpl. lia.
Defined.

Lemma read_failure_only_counts_witness :
  read_and_upload_data sample_json_loads 0 closed_port_world
  = (Done tt, bump_error_count closed_port_world).
Proof. apply read_failure_only_counts. left. reflexivity. Defined.

(** ** Frames that arrive in pieces *)

Section SplitFrames.
Variable json_loads : list ascii → option (gmap string val).

(** A read that leaves the buffer without closing brace and not longer than
    100 characters only appends what it read. *)
Lemma read_keeps_partial_frame fuel (w : World) :
  let buf := buffer (decoder w) ++ rx (ser w) in
  is_open (ser w) = true → serial_fault w (clock w) = false → rx (ser w) ≠ [] →
  has_char "}" buf = false → (length buf ≤ 100)%nat →
  read_and_upload_data json_loads (S fuel) w = (Done tt, after_read w).
Proof.
  intros buf Ho Hf Hrx Hn Hl.
  assert (stalled buf = false) as Hs.
  { unfold stalled. replace (100 <? Z.of_nat (length buf)) with false
      by (symmetry; apply Z.ltb_ge; lia). apply andb_false_r. }
  destruct (read_and_upload_data_cases json_loads (S fuel) w)
    as [[[?|?] _]|(_ & _ & [[? _]|[(_ & ? & _)|(_ & _ & ->)]])];
    try (unfold buf in Hs; congruence).
  assert (decode_loop json_loads (S fuel) (after_read w) = (Done tt, after_read w)) as E.
  { apply decode_loop_exit. cbn [after_read decoder set_decoder buffer]. fold buf.
    by rewrite Hn, andb_false_r. }
  rewrite (bind_done _ _ _ _ _ E).
  destruct (trim_buffer_run (after_read w)) as (b & -> & Hb).
  rewrite Hb by (cbn [after_read decoder set_decoder buffer]; fold buf;
                 by rewrite Hn, andb_false_r).
  cbn [after_read decoder set_decoder buffer error_count]. fold buf.
  unfold kept. replace (500 <? Z.of_nat (length buf)) with false
    by (symmetry; apply Z.ltb_ge; lia).
  reflexivity.
Qed.

(** X8.  A frame that arrives in two reads is merged as if it had arrived
    whole, provided the buffer after the first read is not longer than 100
    characters: the first read only stores the beginning, the second one
    completes the frame and merges it. *)
Theorem decoder_reassembles_split_frame fuel (w : World)
    (pre b1 b2 post : list ascii) data :
  let frame := "{"%char :: (b1 ++ b2) ++ ["}"%char] in
  let w1 := (read_and_upload_data json_loads (S fuel) w).2 in
  let w2 := set_ser (mkSerial true (b2 ++ "}"%char :: post) (tx (ser w1))) w1 in
  is_open (ser w) = true → serial_fault w (clock w) = false →
  buffer (decoder w) = pre → rx (ser w) = "{"%char :: b1 →
  brace_free pre → brace_free b1 → brace_free b2 → brace_free post →
  (length (pre ++ "{"%char :: b1) ≤ 100)%nat →
  5 ≤ text_len frame ≤ 500 → json_loads frame = Some data →
  read_and_upload_data json_loads (S fuel) w = (Done tt, after_read w) ∧
  read_and_upload_data json_loads (S (S fuel)) w2
  = (Done tt,
     set_status (update_status data (current_status w)).2
       (set_decoder (mkDecoder (kept post) 0)
          (set_ser (mkSerial true [] (tx (ser w))) w))).
Proof.
  intros frame w1 w2 Ho Hf Hbuf Hrx Hpre Hb1 Hb2 Hpost Hl Hlen Hj.
  assert (read_and_upload_data json_loads (S fuel) w = (Done tt, after_read w)) as E1.
  { apply read_keeps_partial_frame; try done.
    - by rewrite Hrx.
    - rewrite Hbuf, Hrx, has_char_app, has_char_cons.
      destruct Hpre as [_ ->], Hb1 as [_ ->]. reflexivity.
    - by rewrite Hbuf, Hrx. }
  split; [exact E1|].
  unfold w2, w1. rewrite E1. cbn [snd].
  rewrite (read_merges_frame json_loads fuel _ pre (b1 ++ b2) post data);
    try done.
  - cbn [after_read set_ser set_decoder ser decoder buffer rx]. by destruct b2.
  - cbn [after_read set_ser set_decoder ser decoder buffer rx].
    rewrite Hbuf, Hrx. rewrite <- !(assoc_L (++)). simpl.
    by rewrite <- !(assoc_L (++)).
  - destruct Hb1 as [H1 H2], Hb2 as [H3 H4].
    split; rewrite has_char_app; [by rewrite H1, H3 | by rewrite H2, H4].
Qed.

(** X9.  A read that leaves the buffer longer than 100 characters, with an
    opening brace and no closing one, cuts the buffer back to its last
    opening brace, and empties it if what follows that brace is still
    longer than 100 characters: the beginning of a long frame is lost. *)
Theorem decoder_truncates_stalled_frame fuel (w : World) (pre body : list ascii) :
  is_open (ser w) = true → serial_fault w (clock w) = false → rx (ser w) ≠ [] →
  buffer (decoder w) ++ rx (ser w) = pre ++ "{"%char :: body →
  has_char "}" pre = false → brace_free body →
  (100 < length (pre ++ "{"%char :: body))%nat →
  read_and_upload_data json_loads fuel w
  = (Done tt,
     set_decoder (mkDecoder (if 100 <? Z.of_nat (S (length body)) then []
                             else "{"%char :: body)
                            (error_count (decoder w)))
       (set_ser (mkSerial true [] (tx (ser w))) w)).
Proof.
  intros Ho Hf Hrx Hbuf Hpre [Hb1 Hb2] Hl.
  set (buf := buffer (decoder w) ++ rx (ser w)) in *.
  assert (stalled buf = true) as Hs.
  { unfold stalled. rewrite Hbuf, !has_char_app, !has_char_cons, Hpre, Hb2.
    replace (100 <? Z.of_nat (length (pre ++ "{"%char :: body))) with true
      by (symmetry; apply Z.ltb_lt; lia).
    simpl. by rewrite orb_true_r. }
  assert (stalled_rest buf = if 100 <? Z.of_nat (S (length body)) then []
                             else "{"%char :: body) as Hr.
  { unfold stalled_rest, rfind. rewrite Hbuf, rfind_at_skip by (done || lia).
    by rewrite Z.add_0_l, slice_from_tail. }
  destruct (read_and_upload_data_cases json_loads fuel w)
    as [[[?|?] _]|(_ & _ & [[? _]|[(_ & _ & ->)|(_ & ? & _)]])];
    try (unfold buf in Hs; congruence).
  fold buf. by rewrite Hr.
Qed.

End SplitFrames.

Lemma decoder_reassembles_split_frame_witness :
  let w := set_ser (mkSerial true ("{"%char :: ["034"%char] ++ text "ph") []) fresh_world in
  let w1 := (read_and_upload_data sample_json_loads 1 w).2 in
  let w2 := set_ser (mkSerial true ((["034"%char] ++ text ": 7") ++ ["}"%char]) []) w1 in
  current_status (read_and_upload_data sample_json_loads 2 w2).2 !! "ph" = Some (PyInt 7).
Proof.
  intros w w1 w2.
  pose proof (decoder_reassembles_split_frame sample_json_loads 0 w []
                (["034"%char] ++ text "ph") (["034"%char] ++ text ": 7") []
                {["ph" := PyInt 7]}) as H.
  destruct H as [_ H];
    [ first [ reflexivity | done | (split; reflexivity) | (simpl; lia) ] .. | ].
  fold w1 in H. change (set_ser _ w1) with w2 in H. by rewrite H.
Defined.

Lemma decoder_truncates_stalled_frame_witness :
  let w := set_ser (mkSerial true ("{"%char :: replicate 100 "a"%char) []) fresh_world in
  buffer (decoder (read_and_upload_data sample_json_loads 0 w).2) = [].
Proof.
  intros w.
  rewrite (decoder_truncates_stalled_frame sample_json_loads 0 w []
             (replicate 100 "a"%char));
    first [ reflexivity | done | (split; reflexivity) | (simpl; lia) ].
Defined.

(** ** The command channel *)

Section ChannelProperties.
Variable json_loads : list ascii → option (gmap string val).
Variable json_dumps : gmap string Z → list ascii.

#[local] Instance later_refl : Reflexive later.
Proof. intros w. unfold later. lia. Qed.
#[local] Instance later_trans : Transitive later.
Proof. intros a b c. unfold later. lia. Qed.

Lemma same_clock_later {A} (m : M World A) : keeps (same clock) m → keeps later m.
Proof. intros H w. specialize (H w). unfold same in H. unfold later. lia. Qed.

Lemma sleep_later d : 0 ≤ d → keeps later (sleep d).
Proof.
  intros Hd. apply keeps_modify. intros w. unfold later.
  rewrite (proj1 (deliver_fields _)). simpl. lia.
Qed.

Lemma await_response_later fuel start_time :
  keeps later (await_response json_loads fuel start_time).
Proof.
  induction fuel as [|fuel IH]; simpl; [apply keeps_out_of_fuel; apply _|].
  repeat first [ exact IH
               | apply same_clock_later, read_response_clock
               | apply same_clock_later, in_waiting_keeps
               | apply sleep_later; lia
               | keeps_step ].
Qed.

Lemma bind_before_pause c0 {A} (m : M World A) (k : A → M World bool) w :
  keeps (same clock) m → clock w = c0 →
  (∀ a w1, clock w1 = c0 → paused c0 (k a w1)) →
  paused c0 (bind m k w).
Proof.
  intros Hm Hs Hk. specialize (Hm w). unfold same in Hm. unfold bind.
  destruct (m w) as [[a|e|] w1]; simpl in *.
  - apply Hk. congruence.
  - split; simpl; [lia | done].
  - split; simpl; [lia | done].
Qed.

Lemma try_except_paused c0 (m : M World bool) w r w' :
  paused c0 (m w) → try_except m (λ _, ret false) w = (Done r, w') →
  c0 ≤ clock w' ∧ (r = true → c0 + 500 ≤ clock w').
Proof.
  unfold try_except, paused.
  destruct (m w) as [[a|e|] w1]; simpl; intros [H1 H2] [= <- <-].
  - split; [done|]. intros ->. by apply H2.
  - split; [done|]. done.
Qed.

(** X10. A send always returns [True] or [False] and lets no exception out:
    the wait for the response ends within its 21 tests of the clock.  Time
    does not run backwards across the call, and [True] is returned only
    after the pause that follows the write, at least 500 ms after the call
    began. *)
Theorem send_bounded_wait (command : gmap string val) (w : World) :
  ∃ result w',
    send_command_to_arduino json_loads json_dumps command w = (Done result, w') ∧
    clock w ≤ clock w' ∧
    (result = true → clock w + 500 ≤ clock w').
Proof.
  destruct (send_returns json_loads json_dumps command w) as (r & w' & E).
  exists r, w'. split; [done|].
  unfold send_command_to_arduino in E.
  refine (try_except_paused (clock w) _ w r w' _ E).
  unfold bind at 1. unfold get. cbv beta iota zeta.
  destruct (negb (is_open (ser w))); [split; simpl; [lia | done]|].
  case_bool_decide; [split; simpl; [lia | done]|].
  apply bind_before_pause; [apply in_waiting_keeps | done | intros n w1 H1].
  apply bind_before_pause;
    [destruct (n =? 0); unfold read_waiting; same_auto | done | intros _ w2 H2].
  apply bind_before_pause; [unfold ser_write; same_auto | done | intros _ w3 H3].
  apply bind_before_pause; [unfold ser_flush; same_auto | done | intros _ w4 H4].
  destruct (sleep_clock 500 w4) as (w5 & E5 & H5).
  rewrite (bind_done _ _ _ _ _ E5).
  unfold bind at 1. unfold gets. cbv beta iota.
  pose proof (await_response_later response_polls (clock w5) w5) as Hl.
  unfold later in Hl. unfold bind.
  destruct (await_response json_loads response_polls (clock w5) w5)
    as [[[]|e|] w6]; simpl in Hl; split; simpl; first [lia | done].
Qed.

(** A send on an open, working port goes on from the world [line_written]
    describes, after the pause of line 163. *)
Lemma send_reaches_wait (command : gmap string val) (w : World) :
  is_open (ser w) = true → serial_fault w (clock w) = false →
  format_command command ≠ ∅ →
  send_command_to_arduino json_loads json_dumps command w
  = try_except
      (sleep 500 >>
       let* start_time := gets clock in
       await_response json_loads response_polls start_time >> ret true)
      (λ _, ret false)
      (line_written (json_dumps (format_command command) ++ ["010"%char]) w).
Proof.
  intros Ho Hf Hc. unfold send_command_to_arduino, try_except.
  unfold bind at 1. unfold get. cbv beta iota. rewrite Ho. cbn [negb].
  rewrite bool_decide_eq_false_2 by done.
  rewrite (bind_done _ _ _ _ _ (in_waiting_healthy w Hf)).
  set (w1 := set_ser (mkSerial true [] (tx (ser w))) w).
  assert ((if Z.of_nat (length (rx (ser w))) =? 0 then ret tt
           else read_waiting >> ret tt) w = (Done tt, w1)) as Ed.
  { destruct (rx (ser w)) eqn:Er.
    - simpl. unfold ret, w1. f_equal. destruct w as [c [o r t] d sf st dec pc rem rf].
      simpl in *. by subst.
    - replace (Z.of_nat (length (a :: l)) =? 0) with false
        by (symmetry; apply Z.eqb_neq; simpl; lia).
      rewrite (bind_done _ _ _ _ _ (read_waiting_healthy w Hf)).
      unfold ret, w1. by rewrite Ho. }
  rewrite (bind_done _ _ _ _ _ Ed).
  rewrite (bind_done _ _ _ _ _ (ser_write_healthy w1 _ Hf)).
  unfold ser_flush. unfold bind at 1. unfold port_io at 1, bind at 1, get at 1.
  cbv beta iota. unfold w1. cbn [serial_fault set_ser clock]. rewrite Hf.
  reflexivity.
Qed.

(** X11. Input that was waiting on the port before a command is written is
    discarded unread: the send behaves exactly as on an empty input queue. *)
Theorem send_ignores_stale_input (command : gmap string val) (w : World) :
  is_open (ser w) = true → serial_fault w (clock w) = false →
  format_command command ≠ ∅ →
  send_command_to_arduino json_loads json_dumps command w
  = send_command_to_arduino json_loads json_dumps command
      (set_ser (mkSerial true [] (tx (ser w))) w).
Proof.
  intros Ho Hf Hc.
  rewrite (send_reaches_wait command w Ho Hf Hc).
  by rewrite (send_reaches_wait command (set_ser _ w)).
Qed.

Lemma sleep_open d (w : World) :
  is_open (ser w) = true →
  sleep d w
  = (Done tt,
     set_device (filter (λ c, ¬ c.1 <= clock w + d) (device w))
       (set_ser (mkSerial true (rx (ser w) ++ emitted_by (clock w + d) w) (tx (ser w)))
          (set_clock (clock w + d) w))).
Proof.
  intros Ho. unfold sleep, modify, deliver. cbn [ser set_clock is_open]. by rewrite Ho.
Qed.

(** The first poll of the wait finds a whole frame: it is merged and the
    wait is over. *)
Lemma await_first_poll fuel (w : World) (pre body post : list ascii) data :
  let frame := "{"%char :: body ++ ["}"%char] in
  serial_fault w (clock w) = false →
  rx (ser w) = pre ++ frame ++ post →
  brace_free pre → brace_free body →
  json_loads frame = Some data →
  (update_status data (current_status w)).1 = Done tt →
  await_response json_loads (S fuel) (clock w) w
  = (Done tt,
     set_status (update_status data (current_status w)).2
       (set_ser (mkSerial (is_open (ser w)) [] (tx (ser w))) w)).
Proof.
  intros frame Hf Hrx Hpre Hbody Hj Hu.
  destruct (frame_indices pre body post Hpre Hbody) as (H1 & H2 & Hs & _).
  fold frame in H1, H2, Hs. rewrite <- Hrx in H1, H2, Hs.
  simpl. unfold bind at 1. unfold gets at 1. cbv beta iota.
  rewrite Z.sub_diag. change (0 <? 2000) with true. cbv iota.
  rewrite (bind_done _ _ _ _ _ (in_waiting_healthy w Hf)).
  replace (Z.of_nat (length (rx (ser w))) =? 0) with false
    by (symmetry; apply Z.eqb_neq; rewrite Hrx, length_app; simpl; lia).
  assert (read_response json_loads w
          = (Done true, set_status (update_status data (current_status w)).2
                          (set_ser (mkSerial (is_open (ser w)) [] (tx (ser w))) w)))
    as Er.
  { unfold read_response, try_except.
    rewrite (bind_done _ _ _ _ _ (read_waiting_healthy w Hf)).
    cbv zeta. rewrite H1, H2, Hs, Hj. cbn [andb].
    unfold bind, with_status, zoom. cbn [current_status set_ser].
    destruct (update_status data (current_status w)) as [[[]|e|] st']; done. }
  by rewrite (bind_done _ _ _ _ _ Er).
Qed.

(** X12. If the device answers within the 500 ms pause with a frame that
    parses, the frame is merged into the status at the first poll, the call
    returns [True] without waiting further, and whatever else had arrived
    with the frame is gone from the input queue. *)
Theorem send_merges_response (command : gmap string val) (w : World)
    (pre body post : list ascii) data :
  let frame := "{"%char :: body ++ ["}"%char] in
  is_open (ser w) = true →
  serial_fault w (clock w) = false → serial_fault w (clock w + 500) = false →
  format_command command ≠ ∅ →
  emitted_by (clock w + 500) w = pre ++ frame ++ post →
  brace_free pre → brace_free body →
  json_loads frame = Some data →
  (update_status data (current_status w)).1 = Done tt →
  ∃ w', send_command_to_arduino json_loads json_dumps command w = (Done true, w') ∧
        current_status w' = (update_status data (current_status w)).2 ∧
        clock w' = clock w + 500 ∧
        rx (ser w') = [] ∧
        tx (ser w') = tx (ser w) ++ json_dumps (format_command command) ++ ["010"%char].
Proof.
  intros frame Ho Hf Hf' Hc Hdev Hpre Hbody Hj Hu.
  rewrite (send_reaches_wait command w Ho Hf Hc).
  set (line := json_dumps (format_command command) ++ ["010"%char]).
  unfold try_except.
  rewrite (bind_done _ _ _ _ _ (sleep_open 500 (line_written line w) eq_refl)).
  set (w1 := set_device _ _).
  unfold bind at 1. unfold gets at 1. cbv beta iota.
  assert (rx (ser w1) = pre ++ frame ++ post) as Hrx by exact Hdev.
  rewrite (bind_done _ _ _ _ _
             (await_first_poll (Nat.pred response_polls) w1 pre body post data
                Hf' Hrx Hpre Hbody Hj Hu)).
  eexists. split; [reflexivity|]. done.
Qed.

Lemma steady_quiet {A} (m : M World A) : quiet m → steady m.
Proof. intros H w _. apply H. Qed.

Lemma steady_port_io : steady port_io.
Proof. intros w Hn e. unfold port_io, bind, get. simpl. by rewrite Hn. Qed.

Lemma steady_bind {A B} (m : M World A) (k : A → M World B) :
  keeps (same serial_fault) m → steady m → (∀ a, steady (k a)) → steady (bind m k).
Proof.
  intros Hk Hm Hks w Hn e. unfold bind. specialize (Hm w Hn). specialize (Hk w).
  unfold same in Hk.
  destruct (m w) as [[a|e'|] w1]; simpl in *; [| by destruct (Hm e') | done].
  apply Hks. unfold never_faults. by rewrite Hk.
Qed.

Lemma steady_in_waiting : steady in_waiting.
Proof.
  unfold in_waiting. apply steady_bind; [apply port_io_keeps | apply steady_port_io |].
  intros _. apply steady_quiet, quiet_gets.
Qed.

Lemma read_response_quiet : quiet (read_response json_loads).
Proof. unfold read_response. apply quiet_try_except. intros _. apply quiet_ret. Qed.

Lemma poll_keeps_fault n :
  keeps (same serial_fault) (if n =? 0 then ret false else read_response json_loads).
Proof.
  destruct (n =? 0); unfold read_response, read_waiting;
    repeat first [ keeps_step | apply keeps_with_status; by intros
                 | apply keeps_modify; by intros ? ].
Qed.

Lemma sleep_keeps_fault d : keeps (same serial_fault) (sleep d).
Proof. apply sleep_keeps; [intros; apply deliver_fields | done]. Qed.

Lemma steady_await_response fuel start_time :
  steady (await_response json_loads fuel start_time).
Proof.
  induction fuel as [|fuel IH]; [by intros w _ e|].
  simpl. apply steady_bind; [apply keeps_gets; apply _ | apply steady_quiet, quiet_gets |].
  intros now. destruct (now - start_time <? 2000); [|apply steady_quiet, quiet_ret].
  apply steady_bind; [apply in_waiting_keeps | apply steady_in_waiting |]. intros n.
  apply steady_bind; [apply poll_keeps_fault | |].
  { apply steady_quiet. destruct (n =? 0); [apply quiet_ret | apply read_response_quiet]. }
  intros [|]; [apply steady_quiet, quiet_ret|].
  apply steady_bind; [apply sleep_keeps_fault | apply steady_quiet, quiet_modify |].
  intros _. exact IH.
Qed.

(** X13. On a port whose driver never fails, a command with a recognised
    key is reported as sent whatever the device does, silence included: the
    call returns [True] and exactly one line has been written, the encoding
    of the recognised keys of the command, each forced to 0 or 1. *)
Theorem send_succeeds_without_response (command : gmap string val) (w : World) :
  never_faults w → is_open (ser w) = true →
  (∃ k, k ∈ actuator_keys ∧ is_Some (command !! k)) →
  ∃ w' sent,
    send_command_to_arduino json_loads json_dumps command w = (Done true, w') ∧
    tx (ser w') = tx (ser w) ++ json_dumps sent ++ ["010"%char] ∧
    ∀ k, sent !! k
         = if bool_decide (k ∈ actuator_keys)
           then coerce01 <$> command !! k else None.
Proof.
  intros Hn Ho (k0 & Hk0 & [v0 Hv0]).
  pose proof (format_command_nonempty command k0 v0 Hk0 Hv0) as Hc.
  pose proof (send_writes json_loads json_dumps command w Ho (Hn _) Hc) as Ht.
  assert (send_command_to_arduino json_loads json_dumps command w
          = (Done true, (send_command_to_arduino json_loads json_dumps command w).2))
    as E.
  { clear Ht. rewrite (send_reaches_wait command w Ho (Hn _) Hc).
    set (w1 := line_written _ w).
    assert (never_faults w1) as Hn1 by exact Hn.
    set (rest := sleep 500 >> _).
    assert (steady rest) as Hs.
    { unfold rest. apply steady_bind;
        [apply sleep_keeps_fault | apply steady_quiet, quiet_modify |]. intros _.
      apply steady_bind; [apply keeps_gets; apply _ | apply steady_quiet, quiet_gets |].
      intros start. apply steady_bind;
        [|apply steady_await_response | intros _; apply steady_quiet, quiet_ret].
      apply await_response_keeps; first [done | intros; apply deliver_fields]. }
    assert (finishes rest) as Hfin.
    { unfold rest. pose proof await_tail_finishes. finishes_auto. }
    assert (yields (λ r, r = true) rest) as Hy by (unfold rest; yields_auto; done).
    specialize (Hs w1 Hn1). specialize (Hfin w1). specialize (Hy w1).
    unfold try_except.
    destruct (rest w1) as [[r|e|] w2]; simpl in *;
      [by rewrite (Hy r w2 eq_refl) | by destruct (Hs e) | done]. }
  exists (send_command_to_arduino json_loads json_dumps command w).2,
         (format_command command).
  split; [exact E|]. split; [exact Ht|].
  intros k. apply format_command_lookup.
Qed.

(** X14. If the port driver is failing when a command is to be sent, the
    call returns [False] at once: nothing is written, no time passes and
    the whole state is as before. *)
Theorem send_fails_on_faulty_port (command : gmap string val) (w : World) :
  serial_fault w (clock w) = true →
  send_command_to_arduino json_loads json_dumps command w = (Done false, w).
Proof.
  intros Hf. unfold send_command_to_arduino, try_except.
  unfold bind at 1. unfold get. cbv beta iota.
  destruct (negb (is_open (ser w))); [done|].
  case_bool_decide; [done|].
  unfold in_waiting, port_io, bind, get. simpl. by rewrite Hf.
Qed.

End ChannelProperties.

Lemma send_ignores_stale_input_witness :
  send_command_to_arduino sample_json_loads sample_json_dumps
    {["pump1" := PyInt 1]} stale_input_world
  = send_command_to_arduino sample_json_loads sample_json_dumps
      {["pump1" := PyInt 1]} fresh_world.
Proof.
  apply (send_ignores_stale_input sample_json_loads sample_json_dumps
           {["pump1" := PyInt 1]} stale_input_world); [reflexivity | reflexivity |].
  by apply (format_command_nonempty _ "pump1" (PyInt 1));
    [rewrite list_elem_of_In; vm_compute; tauto|].
Defined.

Lemma send_merges_response_witness :
  ∃ w', send_command_to_arduino sample_json_loads sample_json_dumps
          {["pump1" := PyInt 1]} answering_world = (Done true, w') ∧
        current_status w' !! "ph" = Some (PyInt 7) ∧ clock w' = 500.
Proof.
  destruct (send_merges_response sample_json_loads sample_json_dumps
              {["pump1" := PyInt 1]} answering_world []
              (["034"%char] ++ text "ph" ++ ["034"%char] ++ text ": " ++ text "7") []
              {["ph" := PyInt 7]})
    as (w' & E & Hst & Hc & _);
    [ first [ reflexivity | (split; reflexivity)
            | by apply (format_command_nonempty _ "pump1" (PyInt 1));
                [rewrite list_elem_of_In; vm_compute; tauto|] ] .. | ].
  exists w'. split; [exact E|]. split; [by rewrite Hst | exact Hc].
Defined.

Lemma send_succeeds_without_response_witness :
  ∃ w' sent,
    send_command_to_arduino sample_json_loads sample_json_dumps
      {["servo" := PyInt 5]} fresh_world = (Done true, w') ∧
    tx (ser w') = [] ++ sample_json_dumps sent ++ ["010"%char] ∧
    ∀ k, sent !! k
         = if bool_decide (k ∈ actuator_keys)
           then coerce01 <$> ({["servo" := PyInt 5]} : gmap string val) !! k else None.
Proof.
  apply (send_succeeds_without_response sample_json_loads sample_json_dumps
           {["servo" := PyInt 5]} fresh_world).
  - intros t. reflexivity.
  - reflexivity.
  - exists "servo". split; [rewrite list_elem_of_In; vm_compute; tauto|].
    by exists (PyInt 5).
Defined.

Lemma send_fails_on_faulty_port_witness :
  send_command_to_arduino sample_json_loads sample_json_dumps
    {["pump1" := PyInt 1]} broken_port_world = (Done false, broken_port_world).
Proof. apply send_fails_on_faulty_port. reflexivity. Defined.

(** ** The reconciler and the mirror *)

Section ReconcilerProperties.
Variable json_loads : list ascii → option (gmap string val).
Variable json_dumps : gmap string Z → list ascii.
Variable int_of_str : string → option Z.
Variable strftime : Z → string.

Lemma check_key_settled cv key acc (w : World) :
  settled int_of_str cv (previous_control w) key →
  check_key int_of_str cv key acc w = (Done acc, w).
Proof.
  unfold settled, check_key. destruct (cv !! key) as [c|]; [|done].
  unfold previous, set_previous, try_except_only, bind, lift, get, modify, ret, raise.
  destruct (control_value int_of_str c) as [z|e|]; simpl.
  - intros ->. simpl. rewrite bool_decide_eq_false_2; [done|]. intros [?|?]; done.
  - intros [-> [p ->]]. done.
  - done.
Qed.

Lemma check_key_settles cv key acc (w : World) acc' w' :
  check_key int_of_str cv key acc w = (Done acc', w') →
  settled int_of_str cv (previous_control w') key.
Proof.
  unfold settled, check_key. destruct (cv !! key) as [c|]; [|done].
  unfold previous, set_previous, try_except_only, bind, lift, get, modify, ret, raise.
  destruct (control_value int_of_str c) as [z|e|]; simpl.
  - destruct (previous_control w !! key) as [prev|] eqn:Ep; simpl; [|done].
    case_bool_decide as Hd; simpl; intros [= <- <-]; simpl.
    + by rewrite lookup_insert_eq.
    + rewrite Ep. f_equal. destruct prev as [p|].
      * destruct (decide (Some z = Some p)) as [E|E]; [done|]. destruct Hd. by right.
      * destruct Hd. by left.
  - destruct (value_or_type_error e) eqn:Ee; [|done].
    destruct (previous_control w !! key) as [[p|]|] eqn:Ep; simpl; [| |done];
      intros [= <- <-]; simpl; (split; [done|]).
    + by exists p.
    + exists 0. by rewrite lookup_insert_eq.
  - done.
Qed.

Lemma settled_ext cv (pc pc' : gmap string (option Z)) k :
  pc' !! k = pc !! k → settled int_of_str cv pc k → settled int_of_str cv pc' k.
Proof. unfold settled. by intros ->. Qed.

Lemma check_keys_settles cv keys :
  NoDup keys → ∀ acc (w : World) acc' w',
  check_keys int_of_str cv keys acc w = (Done acc', w') →
  ∀ k, k ∈ keys → settled int_of_str cv (previous_control w') k.
Proof.
  induction 1 as [|k0 ks Hk0 Hks IH]; intros acc w acc' w' Hrun k Hk.
  { by apply elem_of_nil in Hk. }
  simpl in Hrun. apply bind_done_inv in Hrun as (acc1 & w1 & H1 & Hrest).
  apply elem_of_cons in Hk as [->|Hk]; [|by eapply IH].
  apply check_key_settles in H1.
  apply (check_keys_done int_of_str cv ks Hks) in Hrest as (_ & _ & Hpc & _ & _).
  by apply (settled_ext cv (previous_control w1)); [apply Hpc|].
Qed.

Lemma check_keys_settled cv keys acc (w : World) :
  (∀ k, k ∈ keys → settled int_of_str cv (previous_control w) k) →
  check_keys int_of_str cv keys acc w = (Done acc, w).
Proof.
  induction keys as [|k0 ks IH]; intros Hs; [done|]. simpl.
  rewrite (bind_done _ _ _ _ _ (check_key_settled cv k0 acc w
                                  (Hs k0 ltac:(apply elem_of_cons; auto)))).
  apply IH. intros k Hk. apply Hs, elem_of_cons. auto.
Qed.

Lemma actuator_keys_nodup : NoDup actuator_keys.
Proof. by apply (bool_decide_unpack _). Qed.

(** X15. A reconciliation cycle is not repeated.  Once a cycle over a
    document has returned, or has at least completed its loop over the keys,
    a second cycle over the same document forwards nothing and changes
    nothing.  The cache is updated in the loop, before the send, and
    nothing after the loop is consulted: a command whose send failed is not
    sent again, and a confirmation that the database refused is not written
    later. *)
Theorem reconcile_idempotent (cv : gmap string val) (w : World) r w' :
  process_control_values json_loads json_dumps int_of_str strftime cv w = (r, w') →
  r = Done tt ∨
    (∃ acc, (check_keys int_of_str cv actuator_keys (∅, false) w).1 = Done acc) →
  process_control_values json_loads json_dumps int_of_str strftime cv w' = (Done tt, w').
Proof.
  unfold process_control_values. intros Hrun Hr.
  assert (∃ command changed w1,
            check_keys int_of_str cv actuator_keys (∅, false) w
            = (Done (command, changed), w1)) as (command & changed & w1 & Hkeys).
  { destruct Hr as [->|[[command changed] Hacc]].
    - apply bind_done_inv in Hrun as ([command changed] & w1 & Hkeys & _). eauto.
    - destruct (check_keys int_of_str cv actuator_keys (∅, false) w) as [o w1].
      simpl in Hacc. subst o. eauto. }
  rewrite (bind_done _ _ _ _ _ Hkeys) in Hrun.
  pose proof (check_keys_settles cv actuator_keys actuator_keys_nodup _ _ _ _ Hkeys)
    as Hs.
  assert (previous_control w' = previous_control w1) as Hpc.
  { destruct changed; [|by injection Hrun as _ <-].
    pose proof (forward_command_cache json_loads json_dumps strftime command w1) as Hk.
    by rewrite Hrun in Hk. }
  rewrite <- Hpc in Hs.
  by rewrite (bind_done _ _ _ _ _ (check_keys_settled cv actuator_keys (∅, false) w' Hs)).
Qed.

(** X16. A value that cannot be read as an integer is skipped without a
    command, but an unset cache entry is then recorded as 0: when the
    document later holds a plain 0 for that key, no command is forwarded
    for it, although nothing was ever sent for the key. *)
Theorem unreadable_value_presets_cache (cv : gmap string val) key v e acc (w : World) :
  cv !! key = Some v →
  control_value int_of_str v = Raised e → value_or_type_error e = true →
  previous_control w !! key = Some None →
  let w' := set_previous_control (<[key := Some 0]> (previous_control w)) w in
  check_key int_of_str cv key acc w = (Done acc, w') ∧
  ∀ cv' : gmap string val,
    cv' !! key = Some (PyInt 0) →
    key_delta int_of_str cv' (previous_control w') key = None ∧
    check_key int_of_str cv' key acc w' = (Done acc, w').
Proof.
  intros Hv He Hc Hp w'. split.
  - unfold check_key. rewrite Hv.
    unfold previous, set_previous, try_except_only, bind, lift, get, modify, ret, raise.
    rewrite He. simpl. rewrite Hc, Hp. done.
  - intros cv' Hv'.
    assert (settled int_of_str cv' (previous_control w') key) as Hs.
    { unfold settled. rewrite Hv'. simpl. apply lookup_insert_eq. }
    split; [|by apply check_key_settled].
    unfold key_delta. rewrite Hv'. simpl.
    unfold w'. simpl. rewrite lookup_insert_eq.
    rewrite bool_decide_eq_false_2; [done|]. intros [?|?]; done.
Qed.

(** What [control_updates] builds from a status with two pump slots. *)
Lemma control_updates_run (w : World) v1 v2 rest servo system :
  current_status w !! "pumps" = Some (PyList (v1 :: v2 :: rest)) →
  current_status w !! "servo" = Some servo →
  current_status w !! "system" = Some system →
  control_updates strftime w
  = (Done (mirrored v1 v2 servo system (strftime (clock w))), w).
Proof.
  intros Hp Hs Hy.
  unfold control_updates, pump_slot, status_item, bind, get, gets, lift, ret.
  simpl. rewrite Hp. simpl. rewrite Hp. simpl. rewrite Hs. simpl. rewrite Hy. reflexivity.
Qed.

(** X17. The periodic mirror overwrites the four actuator entries of the
    control document with what the device last reported, whatever the
    document held.  A command written there but not yet reconciled is lost,
    and wherever the reported value differs from the cached one the next
    reconciliation forwards the reported value back to the device as a
    command. *)
Theorem mirror_overwrites_commands (t : Z) (lp : Loop) (w : World)
    v1 v2 rest servo system :
  remote_fault w (clock w) = false →
  current_status w !! "pumps" = Some (PyList (v1 :: v2 :: rest)) →
  current_status w !! "servo" = Some servo →
  current_status w !! "system" = Some system →
  let reported := mirrored v1 v2 servo system (strftime (clock w)) in
  let w' := set_remote (mkRemote (reported ∪ control_doc (remote w))
                                 (sensor_data (remote w))) w in
  sync_control_values strftime t lp w
  = (Done (mkLoop (serial_errors lp) (last_reset_time lp) (last_firebase_update lp)
                  (last_sensor_upload lp) t), w') ∧
  (∀ k, k ∈ actuator_keys → control_doc (remote w') !! k = reported !! k) ∧
  (∀ k v z prev,
     k ∈ actuator_keys → reported !! k = Some v →
     control_value int_of_str v = Done z →
     previous_control w !! k = Some prev → prev ≠ Some z →
     key_delta int_of_str (control_doc (remote w')) (previous_control w') k = Some z).
Proof.
  intros Hf Hp Hs Hy reported w'.
  assert (∀ k, k ∈ actuator_keys → is_Some (reported !! k)) as Hin.
  { intros k Hk. rewrite list_elem_of_In in Hk. simpl in Hk.
    destruct Hk as [<-|[<-|[<-|[<-|[]]]]]; by eexists. }
  assert (∀ k, k ∈ actuator_keys → control_doc (remote w') !! k = reported !! k) as Hdoc.
  { intros k Hk. destruct (Hin k Hk) as [v Hv]. unfold w'. simpl.
    rewrite Hv. by apply lookup_union_Some_l. }
  split; [|split; [exact Hdoc|]].
  - unfold sync_control_values, try_except.
    rewrite (bind_done _ _ _ _ _ (control_updates_run w v1 v2 rest servo system Hp Hs Hy)).
    unfold control_ref_update, remote_io, bind, get, modify, ret. simpl.
    by rewrite Hf.
  - intros k v z prev Hk Hv Hz Hprev Hne.
    unfold key_delta. rewrite (Hdoc k Hk), Hv, Hz.
    change (previous_control w') with (previous_control w). rewrite Hprev.
    rewrite bool_decide_eq_true_2; [done|].
    destruct prev as [p|]; [right; congruence | by left].
Qed.

End ReconcilerProperties.

Lemma reconcile_idempotent_witness :
  let run := process_control_values sample_json_loads sample_json_dumps
               sample_int_of_str sample_strftime {["pump1" := PyInt 1]} in
  tx (ser (run closed_port_world).2) = [] ∧
  run (run closed_port_world).2 = (Done tt, (run closed_port_world).2) ∧
  (run remote_down_world).1 = Raised FirebaseError ∧
  run (run remote_down_world).2 = (Done tt, (run remote_down_world).2).
Proof.
  intros run. split; [reflexivity|]. split; [|split; [by vm_compute|]].
  - apply (reconcile_idempotent sample_json_loads sample_json_dumps sample_int_of_str
             sample_strftime {["pump1" := PyInt 1]} closed_port_world (Done tt)).
    + vm_compute. reflexivity.
    + by left.
  - apply (reconcile_idempotent sample_json_loads sample_json_dumps sample_int_of_str
             sample_strftime {["pump1" := PyInt 1]} remote_down_world
             (run remote_down_world).1).
    + apply surjective_pairing.
    + right. eexists. reflexivity.
Defined.

Lemma unreadable_value_presets_cache_witness :
  let w' := set_previous_control (<["pump1" := Some 0]> unset_control) fresh_world in
  check_key sample_int_of_str {["pump1" := PyStr "on"]} "pump1" (∅, false) fresh_world
  = (Done (∅, false), w') ∧
  key_delta sample_int_of_str {["pump1" := PyInt 0]} (previous_control w') "pump1" = None.
Proof.
  intros w'.
  destruct (unreadable_value_presets_cache sample_int_of_str {["pump1" := PyStr "on"]}
              "pump1" (PyStr "on") ValueError (∅, false) fresh_world)
    as [H1 H2]; [reflexivity..|].
  split; [exact H1|]. apply (H2 {["pump1" := PyInt 0]}). reflexivity.
Defined.

Lemma mirror_overwrites_commands_witness :
  let w := set_remote (mkRemote {["pump1" := PyInt 1]} ∅) unconfirmed_world in
  let w' := (sync_control_values sample_strftime 5000
               (mkLoop 0 0 0 0 0) w).2 in
  control_doc (remote w') !! "pump1" = Some (PyInt 0) ∧
  key_delta sample_int_of_str (control_doc (remote w')) (previous_control w') "pump1"
  = Some 0.
Proof.
  intros w w'.
  destruct (mirror_overwrites_commands sample_int_of_str sample_strftime 5000
              (mkLoop 0 0 0 0 0) w (PyInt 0) (PyInt 0) [] (PyInt 0) (PyInt 0))
    as (E & Hdoc & Hdelta); [reflexivity..|].
  unfold w'. rewrite E. cbn [snd]. split.
  - rewrite Hdoc; [reflexivity | rewrite list_elem_of_In; vm_compute; tauto].
  - apply (Hdelta "pump1" (PyInt 0) 0 (Some 1));
      [rewrite list_elem_of_In; vm_compute; tauto | reflexivity.. | discriminate].
Defined.

(** ** The main loop *)

(** Observations that only the command channel and the port reset can
    change: whatever [f] reads of the world, if it does not depend on the
    status, the decoder, the input queue or the database, then reading the
    port and uploading leave it alone. *)
Section Frame.
Context {B : Type} (f : World → B).
Hypothesis f_status : ∀ w st, f (set_status st w) = f w.
Hypothesis f_decoder : ∀ w d, f (set_decoder d w) = f w.
Hypothesis f_rx :
  ∀ w r, f (set_ser (mkSerial (is_open (ser w)) r (tx (ser w))) w) = f w.
Hypothesis f_remote : ∀ w r, f (set_remote r w) = f w.
Variable json_loads : list ascii → option (gmap string val).
Variable strftime : Z → string.
Variable strftime_key : Z → string.

Ltac frame_step :=
  first [ keeps_step
        | apply keeps_with_status; exact f_status
        | apply keeps_modify; intros ?; unfold same;
          first [apply f_decoder | apply f_remote | apply f_status] ].

Lemma read_waiting_leaves : keeps (same f) read_waiting.
Proof.
  intros w. unfold same. destruct (serial_fault w (clock w)) eqn:E.
  - unfold read_waiting, in_waiting, port_io, bind, get. simpl. by rewrite E.
  - rewrite (read_waiting_healthy w E). apply f_rx.
Qed.

Lemma decode_step_leaves : keeps (same f) (decode_step json_loads).
Proof.
  unfold decode_step, on_decode_error, set_buffer, set_error_count.
  repeat frame_step.
Qed.

Lemma decode_loop_leaves fuel : keeps (same f) (decode_loop json_loads fuel).
Proof.
  induction fuel as [|fuel IH]; simpl; [apply keeps_out_of_fuel; apply _|].
  repeat first [ exact IH | apply decode_step_leaves | frame_step ].
Qed.

Lemma read_and_upload_data_leaves fuel :
  keeps (same f) (read_and_upload_data json_loads fuel).
Proof.
  unfold read_and_upload_data, drop_stalled_frame, trim_buffer, set_buffer,
    set_error_count.
  repeat first [ apply read_waiting_leaves | apply decode_loop_leaves | frame_step ].
Qed.

Lemma upload_block_leaves t lp :
  keeps (same f) (upload_block strftime strftime_key t lp).
Proof.
  unfold upload_block, upload_sensor_data, display_states, sync_control_values,
    control_updates, control_ref_update, remote_io, pump_slot, status_item, status_get.
  repeat frame_step.
Qed.

Lemma process_serial_leaves fuel t lp :
  keeps (same f) (process_serial json_loads strftime strftime_key fuel t lp).
Proof.
  unfold process_serial.
  repeat first [ apply read_and_upload_data_leaves | apply upload_block_leaves
               | frame_step ].
Qed.

End Frame.

Section MainLoopProperties.
Variable json_loads : list ascii → option (gmap string val).
Variable json_dumps : gmap string Z → list ascii.
Variable int_of_str : string → option Z.
Variable strftime : Z → string.
Variable strftime_key : Z → string.

(** X18. What a reset of the port does.  On an open port the call closes
    it, waits a second and reopens it: if the driver accepts, the result is
    [True] after three seconds, with an input queue that holds only what
    the device emitted during the last two of them; if the driver refuses,
    the result is [False] after one second and the port is left closed.
    Either way what was written and the decoder's buffer are as before. *)
Theorem reset_serial_port_outcome (w : World) :
  is_open (ser w) = true →
  ∃ w',
    reset_serial_port w = (Done (negb (serial_fault w (clock w + 1000))), w') ∧
    is_open (ser w') = negb (serial_fault w (clock w + 1000)) ∧
    clock w' = clock w + (if serial_fault w (clock w + 1000) then 1000 else 3000) ∧
    (serial_fault w (clock w + 1000) = false →
     rx (ser w') = emitted_between (clock w + 1000) (clock w + 3000) w) ∧
    tx (ser w') = tx (ser w) ∧
    decoder w' = decoder w.
Proof.
  intros Ho. unfold reset_serial_port, try_except.
  unfold bind at 1. unfold get at 1. cbv beta iota. rewrite Ho.
  unfold sleep, port_io, bind, get, modify, ret, raise, deliver. simpl.
  destruct (serial_fault w (clock w + 1000)); simpl.
  - eexists. split; [reflexivity|]. repeat split; done.
  - replace (clock w + 1000 + 2000) with (clock w + 3000) by lia.
    eexists. split; [reflexivity|]. repeat split; done.
Qed.

#[local] Instance stays_closed_refl : Reflexive stays_closed.
Proof. by intros w H. Qed.
#[local] Instance stays_closed_trans : Transitive stays_closed.
Proof.
  intros a b c Hab Hbc Ha. destruct (Hab Ha) as [Hb Ht].
  destruct (Hbc Hb) as [Hc Ht']. split; congruence.
Qed.

Local Abbreviation port_view := (λ w : World, (is_open (ser w), tx (ser w))).

Lemma same_view_stays_closed {A} (m : M World A) :
  keeps (same port_view) m → keeps stays_closed m.
Proof.
  intros H w Hc. specialize (H w). unfold same in H. simpl in H.
  injection H as H1 H2. split; congruence.
Qed.

Lemma sleep_view d : keeps (same port_view) (sleep d).
Proof.
  apply keeps_modify. intros w. unfold same. cbv beta.
  rewrite (proj1 (proj2 (deliver_fields _))),
          (proj1 (proj2 (proj2 (deliver_fields _)))). done.
Qed.

Lemma send_closed command (w : World) :
  is_open (ser w) = false →
  send_command_to_arduino json_loads json_dumps command w = (Done false, w).
Proof.
  intros Hc. unfold send_command_to_arduino, try_except.
  unfold bind at 1. unfold get. cbv beta iota. by rewrite Hc.
Qed.

Lemma send_stays_closed command :
  keeps stays_closed (send_command_to_arduino json_loads json_dumps command).
Proof. intros w Hc. by rewrite send_closed. Qed.

Lemma check_keys_view cv keys acc :
  keeps (same port_view) (check_keys int_of_str cv keys acc).
Proof.
  revert acc. induction keys as [|k keys IH]; intros acc; simpl.
  { apply keeps_ret; apply _. }
  apply keeps_bind; [apply _ | | intros ?; apply IH].
  unfold check_key, previous, set_previous.
  destruct (cv !! k); [|apply keeps_ret; apply _].
  apply keeps_try_except_only; [apply _ | | intros ?]; same_auto.
Qed.

Lemma process_control_values_stays_closed cv :
  keeps stays_closed
        (process_control_values json_loads json_dumps int_of_str strftime cv).
Proof.
  unfold process_control_values.
  apply keeps_bind; [apply _ | apply same_view_stays_closed, check_keys_view |].
  intros [command changed]. destruct changed; [|apply keeps_ret; apply _].
  unfold forward_command.
  apply keeps_bind; [apply _ | apply send_stays_closed | intros _].
  apply same_view_stays_closed. unfold control_ref_update, remote_io.
  pose proof (report_keys_keeps port_view) as Hr.
  repeat first [ apply Hr | apply sleep_view | keeps_step | same_leaf ].
Qed.

Lemma reset_serial_port_stays_closed : keeps stays_closed reset_serial_port.
Proof.
  intros w Hc. unfold reset_serial_port, bind, get. simpl. by rewrite Hc.
Qed.

Lemma main_iteration_stays_closed fuel lp :
  keeps stays_closed
        (main_iteration json_loads json_dumps int_of_str strftime strftime_key fuel lp).
Proof.
  unfold main_iteration, check_reset, check_firebase, control_ref_get, remote_io.
  repeat first
    [ apply reset_serial_port_stays_closed
    | apply process_control_values_stays_closed
    | apply same_view_stays_closed, process_serial_leaves; by intros
    | apply same_view_stays_closed, sleep_view
    | keeps_step ].
Qed.

(** X19. The main loop never reopens a closed port.  Once the port is
    closed (a reset whose reopening failed leaves it so), it is closed
    after any number of turns, and in all that time nothing is written to
    the device. *)
Theorem closed_port_never_reopened fuel n lp (w : World) :
  is_open (ser w) = false →
  let w' := (main_loop json_loads json_dumps int_of_str strftime strftime_key
               fuel n lp w).2 in
  is_open (ser w') = false ∧ tx (ser w') = tx (ser w).
Proof.
  revert lp w. induction n as [|n IH]; intros lp w Hc; simpl; [done|].
  pose proof (main_iteration_stays_closed fuel lp w Hc) as [Hc1 Ht1].
  unfold bind.
  destruct (main_iteration json_loads json_dumps int_of_str strftime strftime_key
              fuel lp w) as [[lp1|e|] w1]; simpl in *; [|done..].
  destruct (IH lp1 w1 Hc1) as [Hc2 Ht2]. split; congruence.
Qed.

Lemma read_and_upload_data_quiet fuel : quiet (read_and_upload_data json_loads fuel).
Proof.
  unfold read_and_upload_data, set_error_count. apply quiet_try_except. intros _.
  apply quiet_bind; [apply quiet_gets | intros ?; apply quiet_modify].
Qed.

(** X20. Failures of the port are not what [serial_errors] counts.  In a
    turn in which no upload is due the counter and the other locals come
    out of the serial block as they went in, whatever the port did; a read
    on a closed or failing port only raises the decoder's own count. *)
Theorem port_failures_not_counted fuel t lp (w : World) :
  t - last_sensor_upload lp < 1000 →
  (∀ lp' w', process_serial json_loads strftime strftime_key fuel t lp w
             = (Done lp', w') → lp' = lp) ∧
  (is_open (ser w) = false ∨ serial_fault w (clock w) = true →
   process_serial json_loads strftime strftime_key fuel t lp w
   = (Done lp, bump_error_count w)).
Proof.
  intros Ht. unfold process_serial, try_except.
  replace (1000 <=? t - last_sensor_upload lp) with false
    by (symmetry; apply Z.leb_gt; lia).
  split.
  - intros lp' w'. unfold bind.
    pose proof (read_and_upload_data_quiet fuel w) as Hq.
    destruct (read_and_upload_data json_loads fuel w) as [[[]|e|] w1]; simpl in *.
    + by intros [= <- _].
    + by destruct (Hq e).
    + done.
  - intros H.
    destruct (read_and_upload_data_cases json_loads fuel w)
      as [[_ E]|(Ho & Hf & _)]; [|destruct H; congruence].
    by rewrite (bind_done _ _ _ _ _ E).
Qed.

(** X21. A database failure is what [serial_errors] counts.  When the
    sensor upload is due and the database refuses it, the serial block ends
    with [serial_errors] one higher and [last_sensor_upload] as it was, so
    the upload is due again at the next turn; past 100 such failures, and a
    minute after the last reset, a reset of the serial port is due. *)
Theorem upload_failure_counts_as_serial_error fuel t lp (w w1 : World) :
  1000 ≤ t - last_sensor_upload lp →
  read_and_upload_data json_loads fuel w = (Done tt, w1) →
  remote_fault w1 (clock w1) = true →
  process_serial json_loads strftime strftime_key fuel t lp w
  = (Done (count_serial_error lp), w1) ∧
  1000 ≤ t - last_sensor_upload (count_serial_error lp) ∧
  (∀ t', 100 ≤ serial_errors lp → 60 * 1000 < t' - last_reset_time lp →
         reset_due t' (count_serial_error lp) = true).
Proof.
  intros Ht Hread Hf. split; [|split; [done|]].
  - unfold process_serial, try_except. rewrite (bind_done _ _ _ _ _ Hread).
    replace (1000 <=? t - last_sensor_upload lp) with true
      by (symmetry; apply Z.leb_le; lia).
    unfold upload_block, upload_sensor_data, status_get, remote_io, bind, gets, get,
      raise. simpl. by rewrite Hf.
  - intros t' He Hr. apply reset_due_spec. simpl. lia.
Qed.

End MainLoopProperties.

Lemma reset_serial_port_outcome_witness :
  ∃ w', reset_serial_port failing_reopen_world = (Done false, w') ∧
        is_open (ser w') = false ∧ clock w' = 1000.
Proof.
  destruct (reset_serial_port_outcome failing_reopen_world eq_refl)
    as (w' & E & Ho & Hc & _).
  exists w'. split; [exact E|]. split; [exact Ho | exact Hc].
Defined.

Lemma closed_port_never_reopened_witness :
  let w' := (main_loop sample_json_loads sample_json_dumps sample_int_of_str
               sample_strftime sample_strftime_key 5 3 (mkLoop 0 0 0 0 0)
               closed_port_world).2 in
  is_open (ser w') = false ∧ tx (ser w') = [].
Proof.
  apply (closed_port_never_reopened sample_json_loads sample_json_dumps
           sample_int_of_str sample_strftime sample_strftime_key 5 3
           (mkLoop 0 0 0 0 0) closed_port_world).
  reflexivity.
Defined.

Lemma port_failures_not_counted_witness :
  process_serial sample_json_loads sample_strftime sample_strftime_key 2 0
    (mkLoop 0 0 0 0 0) closed_port_world
  = (Done (mkLoop 0 0 0 0 0), bump_error_count closed_port_world).
Proof.
  destruct (port_failures_not_counted sample_json_loads sample_strftime
              sample_strftime_key 2 0 (mkLoop 0 0 0 0 0) closed_port_world)
    as [_ H]; [simpl; lia|].
  apply H. left. reflexivity.
Defined.

Lemma upload_failure_counts_as_serial_error_witness :
  process_serial sample_json_loads sample_strftime sample_strftime_key 2 1000
    (mkLoop 100 0 0 0 0) remote_down_world
  = (Done (mkLoop 101 0 0 0 0), remote_down_world) ∧
  reset_due 60001 (mkLoop 101 0 0 0 0) = true.
Proof.
  destruct (upload_failure_counts_as_serial_error sample_json_loads sample_strftime
              sample_strftime_key 2 1000 (mkLoop 100 0 0 0 0)
              remote_down_world remote_down_world)
    as (E & _ & H); [simpl; lia | reflexivity | reflexivity |].
  split; [exact E|]. apply (H 60001); simpl; lia.
Defined.

(** ** The keys of the status *)

#[local] Instance keeps_keys_refl : Reflexive keeps_keys.
Proof. by intros st k. Qed.
#[local] Instance keeps_keys_trans : Transitive keeps_keys.
Proof. intros a b c H1 H2 k Hk. by apply H2, H1. Qed.
#[local] Instance status_grows_refl : Reflexive status_grows.
Proof. intros w. unfold status_grows. reflexivity. Qed.
#[local] Instance status_grows_trans : Transitive status_grows.
Proof. intros a b c. unfold status_grows. apply keeps_keys_trans. Qed.

Lemma keeps_keys_insert (st : gmap string val) k v : keeps_keys st (<[k := v]> st).
Proof.
  intros k' Hk'. destruct (decide (k = k')) as [->|Hne].
  - rewrite lookup_insert_eq. by eexists.
  - by rewrite lookup_insert_ne.
Qed.

Lemma update_status_grows data : keeps keeps_keys (update_status data).
Proof.
  assert (∀ k, keeps keeps_keys (copy_key k data)) as Hc.
  { intros k. unfold copy_key. destruct (data !! k); [|apply keeps_ret; apply _].
    apply keeps_modify. intros st. apply keeps_keys_insert. }
  assert (∀ k i, keeps keeps_keys (set_pump k i data)) as Hp.
  { intros k i. unfold set_pump.
    keeps_auto; apply keeps_modify; intros st;
      try destruct (st !! "pumps"); first [reflexivity | apply keeps_keys_insert]. }
  unfold update_status.
  repeat (apply keeps_bind; [apply _ | | intros _]); first [apply Hc | apply Hp].
Qed.

Lemma keeps_zoom_rel {S T A} (R : S → S → Prop) (Q : T → T → Prop)
    (proj : S → T) upd (m : M T A) :
  keeps Q m → (∀ s t, Q (proj s) t → R s (upd t s)) → keeps R (zoom proj upd m).
Proof.
  intros Hm H s. unfold zoom. specialize (Hm (proj s)).
  destruct (m (proj s)). by apply H.
Qed.

Lemma with_status_grows data : keeps status_grows (with_status (update_status data)).
Proof.
  unfold with_status. apply (keeps_zoom_rel _ keeps_keys).
  - apply update_status_grows.
  - intros s t H. exact H.
Qed.

Lemma sleep_grows d : keeps status_grows (sleep d).
Proof.
  apply keeps_modify. intros w. unfold status_grows.
  rewrite (proj1 (proj2 (proj2 (proj2 (proj2 (deliver_fields _)))))). reflexivity.
Qed.

Ltac grows_step :=
  first [ apply with_status_grows
        | apply sleep_grows
        | keeps_step
        | apply keeps_modify; intros ?; unfold status_grows; simpl; reflexivity ].

Section StatusKeys.
Variable json_loads : list ascii → option (gmap string val).
Variable json_dumps : gmap string Z → list ascii.
Variable int_of_str : string → option Z.
Variable strftime : Z → string.
Variable strftime_key : Z → string.

Lemma await_response_grows fuel start_time :
  keeps status_grows (await_response json_loads fuel start_time).
Proof.
  induction fuel as [|fuel IH]; simpl; [apply keeps_out_of_fuel; apply _|].
  unfold read_response, read_waiting.
  repeat first [ exact IH | grows_step ].
Qed.

Lemma send_grows command :
  keeps status_grows (send_command_to_arduino json_loads json_dumps command).
Proof.
  unfold send_command_to_arduino, read_waiting, ser_write, ser_flush.
  repeat first [ apply await_response_grows | grows_step ].
Qed.

Lemma decode_loop_grows fuel : keeps status_grows (decode_loop json_loads fuel).
Proof.
  induction fuel as [|fuel IH]; simpl; [apply keeps_out_of_fuel; apply _|].
  unfold decode_step, on_decode_error, set_buffer, set_error_count.
  repeat first [ exact IH | grows_step ].
Qed.

Lemma read_and_upload_data_grows fuel :
  keeps status_grows (read_and_upload_data json_loads fuel).
Proof.
  unfold read_and_upload_data, read_waiting, drop_stalled_frame, trim_buffer,
    set_buffer, set_error_count.
  repeat first [ apply decode_loop_grows | grows_step ].
Qed.

Lemma check_keys_grows cv keys acc :
  keeps status_grows (check_keys int_of_str cv keys acc).
Proof.
  revert acc. induction keys as [|k keys IH]; intros acc; simpl.
  { apply keeps_ret; apply _. }
  apply keeps_bind; [apply _ | | intros ?; apply IH].
  unfold check_key, previous, set_previous.
  destruct (cv !! k); [|apply keeps_ret; apply _].
  apply keeps_try_except_only; [apply _ | | intros ?]; repeat grows_step.
Qed.

Lemma report_keys_grows keys : keeps status_grows (report_keys keys).
Proof.
  induction keys as [|k keys IH]; simpl; [apply keeps_ret; apply _|].
  unfold report_key, actual_value. repeat first [ exact IH | grows_step ].
Qed.

Lemma main_iteration_grows fuel lp :
  keeps status_grows
        (main_iteration json_loads json_dumps int_of_str strftime strftime_key fuel lp).
Proof.
  unfold main_iteration, check_reset, reset_serial_port, process_serial, upload_block,
    upload_sensor_data, display_states, sync_control_values, control_updates,
    check_firebase, control_ref_get, process_control_values, forward_command,
    control_ref_update, remote_io, pump_slot, status_item, status_get, port_io.
  repeat first
    [ apply read_and_upload_data_grows | apply send_grows
    | apply check_keys_grows | apply report_keys_grows
    | grows_step ].
Qed.

(** X22. The status never loses a key.  A key present in the status when
    the loop starts is present after any number of turns, whatever was
    received and whichever way the merges ended, so reading it (as the
    status display and the mirror do for [servo] and [system]) does not
    fail for want of the key. *)
Theorem status_keys_persist fuel n lp (w : World) k :
  is_Some (current_status w !! k) →
  let w' := (main_loop json_loads json_dumps int_of_str strftime strftime_key
               fuel n lp w).2 in
  is_Some (current_status w' !! k) ∧ ∃ v, status_item k w' = (Done v, w').
Proof.
  intros Hk w'.
  assert (is_Some (current_status w' !! k)) as [v Hv].
  { unfold w'. clear w'. revert lp w Hk. induction n as [|n IH]; intros lp w Hk; simpl.
    { done. }
    pose proof (main_iteration_grows fuel lp w k Hk) as H1. unfold bind.
    destruct (main_iteration json_loads json_dumps int_of_str strftime strftime_key
                fuel lp w) as [[lp1|e|] w1]; simpl in *; [by apply IH | done..]. }
  split; [by exists v|]. exists v. unfold status_item, bind, get. simpl. by rewrite Hv.
Qed.

End StatusKeys.

Lemma status_keys_persist_witness :
  is_Some (current_status
             (main_loop sample_json_loads sample_json_dumps sample_int_of_str
                sample_strftime sample_strftime_key 5 2 (mkLoop 0 0 0 0 0)
                (set_ser (mkSerial true (frame_text "ph" "7") []) fresh_world)).2
           !! "servo").
Proof.
  apply (status_keys_persist sample_json_loads sample_json_dumps sample_int_of_str
           sample_strftime sample_strftime_key 5 2 (mkLoop 0 0 0 0 0)
           (set_ser (mkSerial true (frame_text "ph" "7") []) fresh_world) "servo").
  by eexists.
Defined.

(** ** Several frames, and frames in pieces *)

Section FrameStreams.
Variable json_loads : list ascii → option (gmap string val).

Lemma decode_loop_step fuel (w wa : World) :
  has_char "{" (buffer (decoder w)) = true →
  has_char "}" (buffer (decoder w)) = true →
  decode_step json_loads w = (Done false, wa) →
  decode_loop json_loads (S fuel) w = decode_loop json_loads fuel wa.
Proof.
  intros H1 H2 Es. simpl. unfold bind at 1. unfold gets at 1. cbv beta iota.
  rewrite H1, H2. cbn [andb]. by rewrite (bind_done _ _ _ _ _ Es).
Qed.

Lemma decode_loop_frames post :
  brace_free post → ∀ fs fuel (w : World),
  Forall (well_framed json_loads) fs →
  buffer (decoder w) = stream_text fs ++ post →
  (length fs < fuel)%nat →
  decode_loop json_loads fuel w
  = (Done tt, match fs with
              | [] => w
              | _ :: _ => set_status (merge_all fs (current_status w))
                            (set_decoder (mkDecoder post 0) w)
              end).
Proof.
  intros Hpost. induction fs as [|[[pre body] data] fs IH]; intros fuel w Hfs Hbuf Hfuel.
  { destruct fuel as [|fuel]; [simpl in Hfuel; lia|].
    apply decode_loop_exit. rewrite Hbuf. simpl. by rewrite (proj1 Hpost). }
  destruct fuel as [|fuel]; [simpl in Hfuel; lia|].
  apply Forall_cons in Hfs as [(Hpre & Hbody & Hlen & Hj) Hfs]. simpl in Hpre, Hbody, Hlen, Hj.
  change (stream_text ((pre, body, data) :: fs))
    with (pre ++ frame_of body ++ stream_text fs) in Hbuf.
  rewrite <- (assoc_L (++) pre), <- (assoc_L (++) (frame_of body)) in Hbuf.
  destruct (frame_indices pre body (stream_text fs ++ post) Hpre Hbody)
    as (H1 & H2 & _ & _).
  unfold frame_of in Hbuf, Hlen, Hj. rewrite <- Hbuf in H1, H2.
  pose proof (decode_step_frame json_loads w pre body (stream_text fs ++ post)
                Hbuf Hpre Hbody) as Es.
  replace ((text_len ("{"%char :: body ++ ["}"%char]) <? 5)
           || (500 <? text_len ("{"%char :: body ++ ["}"%char]))) with false in Es
    by (symmetry; apply orb_false_iff; split; apply Z.ltb_ge; lia).
  rewrite Hj in Es.
  rewrite (decode_loop_step fuel w _ H1 H2 Es).
  assert (length fs < fuel)%nat as Hfuel' by (simpl in Hfuel; lia).
  match type of Es with
  | _ = (_, ?wa) => rewrite (IH fuel wa Hfs eq_refl Hfuel')
  end.
  by destruct fs.
Qed.

(** X23. Every frame of a read is merged, in the order of arrival.  When
    the buffer after a read is a sequence of frames that the decoder
    accepts, each preceded by text without braces, followed by text without
    braces, the status ends as the frames' contents merged one after the
    other, so that a later frame overrides an earlier one; the error count
    is 0 and only the trailing text is kept. *)
Theorem decoder_merges_frames_in_order fuel (w : World) f fs (post : list ascii) :
  is_open (ser w) = true → serial_fault w (clock w) = false → rx (ser w) ≠ [] →
  buffer (decoder w) ++ rx (ser w) = stream_text (f :: fs) ++ post →
  Forall (well_framed json_loads) (f :: fs) → brace_free post →
  (length (f :: fs) < fuel)%nat →
  read_and_upload_data json_loads fuel w
  = (Done tt,
     set_status (merge_all (f :: fs) (current_status w))
       (set_decoder (mkDecoder (kept post) 0)
          (set_ser (mkSerial true [] (tx (ser w))) w))).
Proof.
  intros Ho Hf Hrx Hbuf Hfs Hpost Hfuel.
  set (w1 := set_decoder (mkDecoder (buffer (decoder w) ++ rx (ser w))
                                    (error_count (decoder w)))
                         (set_ser (mkSerial true [] (tx (ser w))) w)).
  assert (has_char "}" (buffer (decoder w) ++ rx (ser w)) = true) as H2.
  { destruct f as [[pre body] data].
    pose proof (Forall_inv Hfs) as (Hpre & Hbody & _). simpl in Hpre, Hbody.
    rewrite Hbuf.
    change (stream_text ((pre, body, data) :: fs))
      with (pre ++ frame_of body ++ stream_text fs).
    rewrite <- (assoc_L (++) pre), <- (assoc_L (++) (frame_of body)).
    apply (frame_indices pre body (stream_text fs ++ post) Hpre Hbody). }
  apply read_then_decode; try done.
  - by rewrite H2, andb_false_r.
  - rewrite (bind_done _ _ _ _ _
               (decode_loop_frames post Hpost (f :: fs) fuel w1 Hfs Hbuf Hfuel)).
    rewrite trim_buffer_brace_free by apply Hpost. reflexivity.
Qed.

End FrameStreams.

Lemma decoder_merges_frames_in_order_witness :
  let w := set_ser (mkSerial true (frame_text "pump1" "1" ++ frame_text "ph" "7") [])
                   fresh_world in
  let st := current_status (read_and_upload_data sample_json_loads 3 w).2 in
  st !! "ph" = Some (PyInt 7) ∧ st !! "pumps" = Some (PyList [PyInt 1; PyInt 0]).
Proof.
  intros w st. unfold st.
  rewrite (decoder_merges_frames_in_order sample_json_loads 3 w
             ([], ["034"%char] ++ text "pump1" ++ ["034"%char] ++ text ": " ++ text "1",
              {["pump1" := PyInt 1]})
             [([], ["034"%char] ++ text "ph" ++ ["034"%char] ++ text ": " ++ text "7",
               {["ph" := PyInt 7]})] []);
    first [ by split | reflexivity | done | (simpl; lia)
          | (repeat (apply Forall_cons; split; [|try apply Forall_nil]);
             repeat split; first [reflexivity | (vm_compute; discriminate)]) ].
Defined.

Section ResponsePieces.
Variable json_loads : list ascii → option (gmap string val).
Variable json_dumps : gmap string Z → list ascii.

(** What a pause delivers to an open port. *)
Lemma deliver_queue (w : World) :
  is_open (ser w) = true →
  rx (ser (deliver w)) = rx (ser w) ++ emitted_by (clock w) w ∧
  device (deliver w) = filter (λ c, ¬ c.1 <= clock w) (device w).
Proof. intros Ho. unfold deliver. by rewrite Ho. Qed.

(** A poll that finds text without a pair of braces throws the text away
    and goes on to the next poll. *)
Lemma await_poll_discards fuel start_time (w : World) :
  clock w - start_time < 2000 → serial_fault w (clock w) = false →
  rx (ser w) ≠ [] →
  has_char "{" (rx (ser w)) && has_char "}" (rx (ser w)) = false →
  await_response json_loads (S fuel) start_time w
  = await_response json_loads fuel start_time
      (deliver (set_clock (clock w + 100)
                  (set_ser (mkSerial (is_open (ser w)) [] (tx (ser w))) w))).
Proof.
  intros Hc Hf Hrx Hb. simpl. unfold bind at 1. unfold gets at 1. cbv beta iota.
  replace (clock w - start_time <? 2000) with true by (symmetry; apply Z.ltb_lt; lia).
  rewrite (bind_done _ _ _ _ _ (in_waiting_healthy w Hf)).
  replace (Z.of_nat (length (rx (ser w))) =? 0) with false
    by (symmetry; apply Z.eqb_neq; destruct (rx (ser w)); [done | simpl; lia]).
  assert (read_response json_loads w
          = (Done false, set_ser (mkSerial (is_open (ser w)) [] (tx (ser w))) w)) as Er.
  { unfold read_response, try_except.
    rewrite (bind_done _ _ _ _ _ (read_waiting_healthy w Hf)). by rewrite Hb. }
  by rewrite (bind_done _ _ _ _ _ Er).
Qed.

(** With nothing waiting and nothing on its way, the wait runs to the end
    of its two seconds and changes nothing but the clock. *)
Lemma await_silent fuel start_time :
  ∀ (w : World) k,
  is_open (ser w) = true → rx (ser w) = [] → device w = [] → never_faults w →
  0 ≤ k ≤ 20 → clock w - start_time = 100 * k → 21 - k ≤ Z.of_nat fuel →
  ∃ w', await_response json_loads fuel start_time w = (Done tt, w') ∧
        clock w' = start_time + 2000 ∧
        current_status w' = current_status w ∧ decoder w' = decoder w ∧
        rx (ser w') = [] ∧ tx (ser w') = tx (ser w).
Proof.
  induction fuel as [|fuel IH]; intros w k Ho Hrx Hdev Hn Hk Hc Hfuel; [lia|].
  simpl. unfold bind at 1. unfold gets at 1. cbv beta iota.
  destruct (clock w - start_time <? 2000) eqn:G.
  2:{ apply Z.ltb_ge in G. exists w. split; [done|]. repeat split; try done. lia. }
  apply Z.ltb_lt in G.
  rewrite (bind_done _ _ _ _ _ (in_waiting_healthy w (Hn _))).
  rewrite Hrx. change (Z.of_nat (length (@nil ascii)) =? 0) with true. cbv iota.
  unfold bind at 1. unfold ret at 1. cbv beta iota.
  set (w2 := deliver (set_clock (clock w + 100) w)).
  assert (sleep 100 w = (Done tt, w2)) as E2 by reflexivity.
  rewrite (bind_done _ _ _ _ _ E2).
  pose proof (deliver_fields (set_clock (clock w + 100) w))
    as (Hc2 & Ht2 & Ho2 & Hf2 & Hs2 & Hd2 & _).
  destruct (deliver_queue (set_clock (clock w + 100) w) Ho) as [Hrx2 Hdev2].
  fold w2 in Hc2, Ht2, Ho2, Hf2, Hs2, Hd2, Hrx2, Hdev2.
  unfold emitted_by in Hrx2. cbn [set_clock ser device] in Hrx2, Hdev2, Ho2.
  cbn [set_clock clock ser serial_fault current_status decoder] in Hc2, Ht2, Hf2, Hs2, Hd2.
  rewrite Hdev in Hrx2, Hdev2. rewrite Hrx in Hrx2.
  destruct (IH w2 (k + 1)) as (w' & E & H1 & H2 & H3 & H4 & H5);
    [by rewrite Ho2 | exact Hrx2 | exact Hdev2
    | intros t; rewrite Hf2; apply Hn | lia | rewrite Hc2; simpl; lia | lia |].
  exists w'. split; [exact E|]. repeat split; congruence.
Qed.

(** X24. A response that reaches the port in two pieces is lost.  If the
    first piece is waiting at the first poll and the second one arrives
    before the next poll, and neither holds both an opening and a closing
    brace, each poll reads its piece and throws it away: the call waits
    its full two seconds and returns [True], the status is as before, and
    nothing of the response is left for the decoder. *)
Theorem send_loses_split_response (command : gmap string val) (w : World)
    t1 t2 (s1 s2 : list ascii) :
  is_open (ser w) = true → never_faults w → format_command command ≠ ∅ →
  device w = [(t1, s1); (t2, s2)] →
  t1 ≤ clock w + 500 → clock w + 500 < t2 ≤ clock w + 600 →
  s1 ≠ [] → s2 ≠ [] →
  has_char "}" s1 = false → has_char "{" s2 = false →
  ∃ w', send_command_to_arduino json_loads json_dumps command w = (Done true, w') ∧
        clock w' = clock w + 2500 ∧
        current_status w' = current_status w ∧
        decoder w' = decoder w ∧
        rx (ser w') = [].
Proof.
  intros Ho Hn Hc Hdev Ht1 Ht2 Hs1 Hs2 Hb1 Hb2.
  rewrite (send_reaches_wait json_loads json_dumps command w Ho (Hn _) Hc).
  set (w0 := line_written _ w). unfold try_except.
  assert (sleep 500 w0 = (Done tt, deliver (set_clock (clock w + 500) w0))) as EA
    by reflexivity.
  rewrite (bind_done _ _ _ _ _ EA). clear EA.
  (* the first piece *)
  pose proof (deliver_fields (set_clock (clock w + 500) w0))
    as (HcA & _ & HoA & HfA & HsA & HdA & _).
  destruct (deliver_queue (set_clock (clock w + 500) w0) eq_refl) as [HrxA HdevA].
  unfold emitted_by in HrxA.
  change (device (set_clock (clock w + 500) w0)) with (device w) in HrxA, HdevA.
  change (clock (set_clock (clock w + 500) w0)) with (clock w + 500)
    in HcA, HrxA, HdevA.
  change (rx (ser (set_clock (clock w + 500) w0))) with (@nil ascii) in HrxA.
  change (is_open (ser (set_clock (clock w + 500) w0))) with true in HoA.
  change (serial_fault (set_clock (clock w + 500) w0)) with (serial_fault w) in HfA.
  change (current_status (set_clock (clock w + 500) w0)) with (current_status w) in HsA.
  change (decoder (set_clock (clock w + 500) w0)) with (decoder w) in HdA.
  revert HcA HoA HfA HsA HdA HrxA HdevA.
  generalize (deliver (set_clock (clock w + 500) w0)). clear w0.
  intros wA HcA HoA HfA HsA HdA HrxA HdevA.
  rewrite Hdev in HrxA, HdevA.
  rewrite filter_cons_True, filter_cons_False, filter_nil in HrxA by (simpl; lia).
  rewrite filter_cons_False, filter_cons_True, filter_nil in HdevA
    by (simpl; lia).
  simpl in HrxA. rewrite app_nil_r in HrxA.
  unfold bind at 1. unfold gets at 1. cbv beta iota. unfold bind at 1.
  change response_polls with (S (S (S 18))).
  rewrite (await_poll_discards _ (clock wA) wA);
    [ | lia | rewrite HfA; apply Hn | by rewrite HrxA
      | by rewrite HrxA, Hb1, andb_false_r ].
  (* the second piece *)
  set (wA' := set_ser (mkSerial (is_open (ser wA)) [] (tx (ser wA))) wA).
  pose proof (deliver_fields (set_clock (clock wA + 100) wA'))
    as (HcB & _ & HoB & HfB & HsB & HdB & _).
  destruct (deliver_queue (set_clock (clock wA + 100) wA') HoA) as [HrxB HdevB].
  unfold emitted_by in HrxB.
  change (device (set_clock (clock wA + 100) wA')) with (device wA) in HrxB, HdevB.
  change (clock (set_clock (clock wA + 100) wA')) with (clock wA + 100)
    in HcB, HrxB, HdevB.
  change (rx (ser (set_clock (clock wA + 100) wA'))) with (@nil ascii) in HrxB.
  change (is_open (ser (set_clock (clock wA + 100) wA'))) with (is_open (ser wA)) in HoB.
  change (serial_fault (set_clock (clock wA + 100) wA')) with (serial_fault wA) in HfB.
  change (current_status (set_clock (clock wA + 100) wA')) with (current_status wA)
    in HsB.
  change (decoder (set_clock (clock wA + 100) wA')) with (decoder wA) in HdB.
  revert HcB HoB HfB HsB HdB HrxB HdevB.
  generalize (deliver (set_clock (clock wA + 100) wA')). clear wA'.
  intros wB HcB HoB HfB HsB HdB HrxB HdevB.
  rewrite HdevA, HcA in HrxB, HdevB.
  rewrite filter_cons_True, filter_nil in HrxB by (simpl; lia).
  rewrite filter_cons_False, filter_nil in HdevB by (simpl; lia).
  simpl in HrxB. rewrite app_nil_r in HrxB.
  rewrite (await_poll_discards _ (clock wA) wB);
    [ | lia | rewrite HfB, HfA; apply Hn | by rewrite HrxB | by rewrite HrxB, Hb2 ].
  (* silence *)
  set (wB' := set_ser (mkSerial (is_open (ser wB)) [] (tx (ser wB))) wB).
  assert (is_open (ser wB) = true) as HoB' by (by rewrite HoB, HoA).
  pose proof (deliver_fields (set_clock (clock wB + 100) wB'))
    as (HcC & _ & HoC & HfC & HsC & HdC & _).
  destruct (deliver_queue (set_clock (clock wB + 100) wB') HoB') as [HrxC HdevC].
  unfold emitted_by in HrxC.
  change (device (set_clock (clock wB + 100) wB')) with (device wB) in HrxC, HdevC.
  change (clock (set_clock (clock wB + 100) wB')) with (clock wB + 100)
    in HcC, HrxC, HdevC.
  change (rx (ser (set_clock (clock wB + 100) wB'))) with (@nil ascii) in HrxC.
  change (is_open (ser (set_clock (clock wB + 100) wB'))) with (is_open (ser wB)) in HoC.
  change (serial_fault (set_clock (clock wB + 100) wB')) with (serial_fault wB) in HfC.
  change (current_status (set_clock (clock wB + 100) wB')) with (current_status wB)
    in HsC.
  change (decoder (set_clock (clock wB + 100) wB')) with (decoder wB) in HdC.
  revert HcC HoC HfC HsC HdC HrxC HdevC.
  generalize (deliver (set_clock (clock wB + 100) wB')). clear wB'.
  intros wC HcC HoC HfC HsC HdC HrxC HdevC.
  rewrite HdevB in HrxC, HdevC. simpl in HrxC, HdevC.
  destruct (await_silent 19 (clock wA) wC 2) as (w' & E & H1 & H2 & H3 & H4 & _);
    [ by rewrite HoC | exact HrxC | exact HdevC
    | intros t; rewrite HfC, HfB, HfA; apply Hn | lia | lia | simpl; lia | ].
  rewrite E. exists w'. split; [reflexivity|]. split; [lia|].
  split; [congruence|]. split; [congruence | exact H4].
Qed.

End ResponsePieces.

Lemma send_loses_split_response_witness :
  ∃ w', send_command_to_arduino sample_json_loads sample_json_dumps
          {["pump1" := PyInt 1]} stuttering_world = (Done true, w') ∧
        clock w' = 2500 ∧
        current_status w' !! "ph" = Some (PyInt 0) ∧
        buffer (decoder w') = [] ∧ rx (ser w') = [].
Proof.
  destruct (send_loses_split_response sample_json_loads sample_json_dumps
              {["pump1" := PyInt 1]} stuttering_world 400 550
              ("{"%char :: ["034"%char] ++ text "ph") (["034"%char] ++ text ": 7}"))
    as (w' & E & Hc & Hs & Hd & Hrx).
  - reflexivity.
  - intros t. reflexivity.
  - by apply (format_command_nonempty _ "pump1" (PyInt 1));
      [rewrite list_elem_of_In; vm_compute; tauto|].
  - reflexivity.
  - by vm_compute.
  - split; by vm_compute.
  - discriminate.
  - discriminate.
  - reflexivity.
  - reflexivity.
  - exists w'. split; [exact E|]. split; [exact Hc|].
    split; [by rewrite Hs|]. split; [by rewrite Hd | exact Hrx].
Defined.

(** ** From the port to the database, and from the database to the port *)

Section Pipeline.
Variable json_loads : list ascii → option (gmap string val).
Variable json_dumps : gmap string Z → list ascii.
Variable int_of_str : string → option Z.
Variable strftime : Z → string.
Variable strftime_key : Z → string.

(** X25. A sensor frame read from the port reaches the database in the
    same turn.  When a read brings a frame the decoder accepts, the upload
    is due and the database answers, the serial block merges the frame and
    stores, under the key of the current second, the record of [ph], [tds]
    and [turbidity] of the merged status (0 for a field the status lacks);
    the control document is untouched and the time of the last upload is
    the current time. *)
Theorem sensor_reading_reaches_database fuel t lp (w : World)
    (pre body post : list ascii) data v1 v2 rest servo system :
  let frame := "{"%char :: body ++ ["}"%char] in
  let st' := (update_status data (current_status w)).2 in
  is_open (ser w) = true → serial_fault w (clock w) = false → rx (ser w) ≠ [] →
  buffer (decoder w) ++ rx (ser w) = pre ++ frame ++ post →
  brace_free pre → brace_free body → brace_free post →
  5 ≤ text_len frame ≤ 500 → json_loads frame = Some data →
  st' !! "pumps" = Some (PyList (v1 :: v2 :: rest)) →
  st' !! "servo" = Some servo → st' !! "system" = Some system →
  remote_fault w (clock w) = false →
  1000 ≤ t - last_sensor_upload lp → t - last_control_sync lp < 5000 →
  ∃ w',
    process_serial json_loads strftime strftime_key (S (S fuel)) t lp w
    = (Done (uploaded_at t lp), w') ∧
    current_status w' = st' ∧
    sensor_data (remote w')
    = <[strftime_key (clock w) := sensor_record st']> (sensor_data (remote w)) ∧
    control_doc (remote w') = control_doc (remote w).
Proof.
  intros frame st' Ho Hf Hrx Hbuf Hpre Hbody Hpost Hlen Hj Hp Hs Hy Hrf Hdue Hsync.
  unfold process_serial, try_except.
  rewrite (bind_done _ _ _ _ _
             (read_merges_frame json_loads fuel w pre body post data
                Ho Hf Hrx Hbuf Hpre Hbody Hpost Hlen Hj)).
  fold st'. clearbody st'.
  replace (1000 <=? t - last_sensor_upload lp) with true
    by (symmetry; apply Z.leb_le; lia).
  set (w1 := set_status st' _).
  set (w2 := set_remote (mkRemote (control_doc (remote w))
                (<[strftime_key (clock w) := sensor_record st']>
                   (sensor_data (remote w)))) w1).
  assert (upload_sensor_data strftime_key w1 = (Done tt, w2)) as Eu.
  { unfold upload_sensor_data, status_get, remote_io, bind, gets, get, modify.
    simpl. by rewrite Hrf. }
  assert (display_states w2 = (Done tt, w2)) as Ed.
  { unfold display_states, pump_slot, status_item, bind, get, lift, ret. simpl.
    rewrite Hp. simpl. rewrite Hp. simpl. rewrite Hs. simpl. by rewrite Hy. }
  unfold upload_block.
  rewrite (bind_done _ _ _ _ _ Eu), (bind_done _ _ _ _ _ Ed).
  replace (5000 <=? t - last_control_sync lp) with false
    by (symmetry; apply Z.leb_gt; lia).
  exists w2. split; [reflexivity|]. by repeat split.
Qed.

(** X26. A bridge that starts on an empty database switches everything
    off.  [initialize_control_values] writes the four defaults, and the
    first reconciliation over that document, with the cache still unset,
    forwards the command [{pump1: 0, pump2: 0, servo: 0, system: 0}]: on a
    working port that line is what is written. *)
Theorem startup_switches_everything_off (w : World) :
  control_doc (remote w) = ∅ → remote_fault w (clock w) = false →
  previous_control w = unset_control →
  ∃ w1,
    initialize_control_values strftime w = (Done tt, w1) ∧
    control_doc (remote w1) = default_values (strftime (clock w)) ∧
    process_control_values json_loads json_dumps int_of_str strftime
      (control_doc (remote w1)) w1
    = forward_command json_loads json_dumps strftime all_zero
        (set_previous_control all_off w1) ∧
    (is_open (ser w) = true → serial_fault w (clock w) = false →
     tx (ser (process_control_values json_loads json_dumps int_of_str strftime
                (control_doc (remote w1)) w1).2)
     = tx (ser w) ++ json_dumps (format_command all_zero) ++ ["010"%char]).
Proof.
  intros Hdoc Hrf Hpc.
  set (now := strftime (clock w)).
  set (w1 := set_remote (mkRemote (default_values now) (sensor_data (remote w))) w).
  assert (initialize_control_values strftime w = (Done tt, w1)) as Ei.
  { unfold initialize_control_values.
    unfold bind at 1. unfold gets at 1. cbv beta iota zeta. fold now.
    assert (control_ref_get w = (Done ∅, w)) as Eg.
    { unfold control_ref_get, remote_io, bind, get, gets. simpl. rewrite Hrf.
      simpl. by rewrite Hdoc. }
    rewrite (bind_done _ _ _ _ _ Eg). rewrite bool_decide_eq_true_2 by done.
    assert (control_ref_set (default_values now) w = (Done tt, w1)) as Es.
    { unfold control_ref_set, remote_io, bind, get, modify. simpl. by rewrite Hrf. }
    rewrite (bind_done _ _ _ _ _ Es).
    unfold bind at 1. unfold gets at 1. cbv beta iota.
    change (strftime (clock w1)) with now.
    assert (control_ref_update {["last_updated" := PyStr now]} w1
            = (Done tt, set_remote (mkRemote ({["last_updated" := PyStr now]}
                                              ∪ default_values now)
                                             (sensor_data (remote w))) w)) as Eu.
    { unfold control_ref_update, remote_io, bind, get, modify. simpl. by rewrite Hrf. }
    rewrite Eu. unfold w1.
    assert (({["last_updated" := PyStr now]} : gmap string val) ∪ default_values now
            = default_values now) as ->; [|reflexivity].
    apply map_eq. intros k.
    destruct (decide (k = "last_updated")) as [->|Hne].
    - by apply lookup_union_Some_l.
    - rewrite lookup_union_r; [done|]. by rewrite lookup_singleton_ne. }
  assert (process_control_values json_loads json_dumps int_of_str strftime
            (control_doc (remote w1)) w1
          = forward_command json_loads json_dumps strftime all_zero
              (set_previous_control all_off w1)) as Ep.
  { assert (check_keys int_of_str (control_doc (remote w1)) actuator_keys (∅, false) w1
            = (Done (all_zero, true), set_previous_control all_off w1)) as E.
    { unfold w1. destruct w; simpl in Hpc; subst. reflexivity. }
    unfold process_control_values. by rewrite (bind_done _ _ _ _ _ E). }
  exists w1. split; [exact Ei|]. split; [reflexivity|]. split; [exact Ep|].
  intros Ho Hf. rewrite Ep, forward_command_tx.
  rewrite send_writes; [reflexivity | done | done |].
  by apply (format_command_nonempty _ "pump1" (PyInt 0));
    [rewrite list_elem_of_In; vm_compute; tauto|].
Qed.

(** X27. A turn in which nothing is due and nothing is waiting on the port
    costs the 50 ms of its pause and changes nothing else: the loop
    variables are as before and the port is polled again 50 ms later. *)
Theorem idle_turn fuel lp (w : World) :
  is_open (ser w) = true → serial_fault w (clock w) = false → rx (ser w) = [] →
  reset_due (clock w) lp = false →
  clock w - last_sensor_upload lp < 1000 →
  clock w - last_firebase_update lp < 2000 →
  main_iteration json_loads json_dumps int_of_str strftime strftime_key fuel lp w
  = (Done lp, deliver (set_clock (clock w + 50) w)).
Proof.
  intros Ho Hf Hrx Hr Hu Hp. unfold main_iteration.
  unfold bind at 1. unfold gets at 1. cbv beta iota.
  unfold check_reset. rewrite Hr. unfold bind at 1. unfold ret at 1. cbv beta iota.
  assert (read_and_upload_data json_loads fuel w = (Done tt, w)) as Er.
  { destruct (read_and_upload_data_cases json_loads fuel w)
      as [[[H|H] _]|(_ & _ & [[_ E]|[(H & _)|(H & _)]])]; congruence. }
  assert (process_serial json_loads strftime strftime_key fuel (clock w) lp w
          = (Done lp, w)) as Es.
  { unfold process_serial, try_except. rewrite (bind_done _ _ _ _ _ Er).
    by replace (1000 <=? clock w - last_sensor_upload lp) with false
      by (symmetry; apply Z.leb_gt; lia). }
  rewrite (bind_done _ _ _ _ _ Es).
  unfold check_firebase.
  replace (2000 <=? clock w - last_firebase_update lp) with false
    by (symmetry; apply Z.leb_gt; lia).
  reflexivity.
Qed.

End Pipeline.

Lemma sensor_reading_reaches_database_witness :
  let w := set_ser (mkSerial true (frame_text "ph" "7") []) fresh_world in
  ∃ w', process_serial sample_json_loads sample_strftime sample_strftime_key 2 1000
          (mkLoop 0 0 0 0 0) w = (Done (mkLoop 0 0 0 1000 0), w') ∧
        sensor_data (remote w') !! "20250101000000"
        = Some (<["ph" := PyInt 7]> (<["tds" := PyInt 0]>
                (<["turbidity" := PyInt 0]> ∅))).
Proof.
  intros w.
  destruct (sensor_reading_reaches_database sample_json_loads sample_strftime
              sample_strftime_key 0 1000 (mkLoop 0 0 0 0 0) w []
              (["034"%char] ++ text "ph" ++ ["034"%char] ++ text ": " ++ text "7") []
              {["ph" := PyInt 7]} (PyInt 0) (PyInt 0) [] (PyInt 0) (PyInt 0))
    as (w' & E & _ & Hs & _);
    [ first [ reflexivity | done | (split; reflexivity) | (simpl; lia) ] .. | ].
  exists w'. split; [exact E|]. rewrite Hs. apply lookup_insert_eq.
Defined.

Lemma startup_switches_everything_off_witness :
  ∃ w1,
    initialize_control_values sample_strftime fresh_world = (Done tt, w1) ∧
    tx (ser (process_control_values sample_json_loads sample_json_dumps
               sample_int_of_str sample_strftime (control_doc (remote w1)) w1).2)
    = sample_json_dumps (format_command all_zero) ++ ["010"%char].
Proof.
  destruct (startup_switches_everything_off sample_json_loads sample_json_dumps
              sample_int_of_str sample_strftime fresh_world)
    as (w1 & E & _ & _ & H); [reflexivity..|].
  exists w1. split; [exact E|]. apply H; reflexivity.
Defined.

Lemma idle_turn_witness :
  main_iteration sample_json_loads sample_json_dumps sample_int_of_str
    sample_strftime sample_strftime_key 0 (mkLoop 0 0 0 0 0) fresh_world
  = (Done (mkLoop 0 0 0 0 0), deliver (set_clock 50 fresh_world)).
Proof.
  apply (idle_turn sample_json_loads sample_json_dumps sample_int_of_str
           sample_strftime sample_strftime_key 0 (mkLoop 0 0 0 0 0) fresh_world);
    first [ reflexivity | (simpl; lia) ].
Defined.
